(** * The weighted-prompt parser of [ldm/invoke/prompt_parser.py]

    A shallow embedding of the AST node classes, their constructors and
    equality methods, the flattening engine ([PromptParser.flatten], with its
    local functions [fuse_fragments] and [flatten_internal]), the pyparsing
    grammar of [build_parser_logic] and the entry point [PromptParser.parse],
    followed by the properties of the repository's specification.

    Conventions of the embedding.
    - A Python [str] is a [string]; its characters stand for the code points
      0..255.
    - A Python [float] is a binary64 number, a primitive [float]; [*] and [==]
      on weights are [PrimFloat.mul] and [PrimFloat.eqb].
    - Python values are dynamically typed: the tokens of a [pp.ParseResults]
      and the nodes of the tree live in one type, [node], and the [type(x) is
      ...] tests of the source are pattern matches on it.
    - A Python call returns or raises: [result A].  The only exception class
      of the module is [PromptParser.ParsingException]; the others are
      pyparsing's [ParseException] and the builtin errors a dynamic lookup can
      raise.  The [print] calls of the source write to the console and are
      left out. *)

From Stdlib Require Import ZArith List String Ascii Bool Arith Lia Floats.
From Stdlib Require Import FunctionalExtensionality.
Import ListNotations.

Set Warnings "-register-all,-inexact-float".

Local Open Scope string_scope.
Local Open Scope list_scope.
Local Open Scope nat_scope.

(** ** Exceptions and results *)

Inductive exn : Type :=
| ParsingException   (* PromptParser.ParsingException *)
| ParseException     (* pyparsing.ParseException *)
| AttributeError
| TypeError
| IndexError.

(** [Diverge] stands for a Python computation that does not return: a
    pyparsing repetition whose body matches without consuming input, or a
    [Forward] that re-enters itself at the same position. *)
Inductive result (A : Type) : Type :=
| Return (a : A)
| Raise (e : exn)
| Diverge.

Arguments Return {A} a.
Arguments Raise {A} e.
Arguments Diverge {A}.

Definition bind {A B : Type} (r : result A) (k : A -> result B) : result B :=
  match r with
  | Return a => k a
  | Raise e => Raise e
  | Diverge => Diverge
  end.

Notation "x <- r ;; k" := (bind r (fun x => k))
  (at level 61, r at next level, right associativity).
Notation "' pat <- r ;; k" := (bind r (fun x => match x with pat => k end))
  (at level 61, pat pattern, r at next level, right associativity).

(** ** Python strings *)

Definition chr (n : nat) : ascii := ascii_of_nat n.

(** [string.whitespace], [pp.nums], [pp.printables] and pyparsing's default
    whitespace characters, as predicates on a character. *)
Definition in_string_whitespace (c : ascii) : bool :=
  let n := nat_of_ascii c in
  (n =? 32) || (n =? 9) || (n =? 10) || (n =? 13) || (n =? 11) || (n =? 12).

Definition in_nums (c : ascii) : bool :=
  let n := nat_of_ascii c in (48 <=? n) && (n <=? 57).

Definition in_printables (c : ascii) : bool :=
  let n := nat_of_ascii c in (33 <=? n) && (n <=? 126).

Definition in_default_whitespace (c : ascii) : bool :=
  let n := nat_of_ascii c in
  (n =? 32) || (n =? 10) || (n =? 9) || (n =? 13).

Definition is_hex (c : ascii) : bool :=
  let n := nat_of_ascii c in
  ((48 <=? n) && (n <=? 57)) || ((97 <=? n) && (n <=? 102))
  || ((65 <=? n) && (n <=? 70)).

(** [str.isspace] on one code point below 256. *)
Definition isspace (c : ascii) : bool :=
  let n := nat_of_ascii c in
  ((9 <=? n) && (n <=? 13)) || ((28 <=? n) && (n <=? 32))
  || (n =? 133) || (n =? 160).

Definition char_in (set : string) (c : ascii) : bool :=
  existsb (Ascii.eqb c) (list_ascii_of_string set).

Fixpoint lstrip (s : string) : string :=
  match s with
  | String c s' => if isspace c then lstrip s' else s
  | EmptyString => EmptyString
  end.

Fixpoint string_rev_acc (s acc : string) : string :=
  match s with
  | EmptyString => acc
  | String c s' => string_rev_acc s' (String c acc)
  end.

Definition string_rev (s : string) : string := string_rev_acc s "".

(** [s.strip()] *)
Definition strip (s : string) : string :=
  string_rev (lstrip (string_rev (lstrip s))).

(** [sep.join(items)] *)
Fixpoint join (sep : string) (items : list string) : string :=
  match items with
  | [] => ""
  | [x] => x
  | x :: rest => (x ++ sep ++ join sep rest)%string
  end.

(** [s.startswith(p)], returning the rest of [s] after [p]. *)
Fixpoint strip_prefix (p s : string) : option string :=
  match p with
  | EmptyString => Some s
  | String a p' =>
      match s with
      | String b s' => if Ascii.eqb a b then strip_prefix p' s' else None
      | EmptyString => None
      end
  end.

(** The longest prefix of [s] whose characters satisfy [f], and the rest. *)
Fixpoint span (f : ascii -> bool) (s : string) : string * string :=
  match s with
  | String c s' =>
      if f c then let '(a, b) := span f s' in (String c a, b) else ("", s)
  | EmptyString => ("", "")
  end.

(** [s.expandtabs()] with the default tab size 8; [col] is the current
    column, reset by a line feed or a carriage return. *)
Fixpoint spaces (n : nat) : string :=
  match n with O => "" | S n' => String " " (spaces n') end.

Fixpoint expandtabs_from (col : nat) (s : string) : string :=
  match s with
  | EmptyString => ""
  | String c s' =>
      let n := nat_of_ascii c in
      if n =? 9 then
        let incr := 8 - Nat.modulo col 8 in
        (spaces incr ++ expandtabs_from (col + incr) s')%string
      else if (n =? 10) || (n =? 13) then String c (expandtabs_from 0 s')
      else String c (expandtabs_from (S col) s')
  end.

Definition expandtabs (s : string) : string := expandtabs_from 0 s.

(** ** Python floats *)

Module PyFloat.

(** The value of a run of decimal digits. *)
Fixpoint digits_value (acc : Z) (s : string) : Z :=
  match s with
  | EmptyString => acc
  | String c s' =>
      digits_value (10 * acc + (Z.of_nat (nat_of_ascii c) - 48))%Z s'
  end.

(** The binary64 number nearest to [n / d] (ties to even), computed by the
    specification of IEEE division on the two integers. *)
Definition of_ratio (n : Z) (d : positive) : float :=
  match n with
  | Z0 => 0%float
  | Zpos p =>
      SF2Prim (SFdiv prec emax (S754_finite false p 0) (S754_finite false d 0))
  | Zneg p =>
      SF2Prim (SFdiv prec emax (S754_finite true p 0) (S754_finite false d 0))
  end.

(** [float(s)] for the literals the grammar's [number] lets through: an
    optional sign, digits, and an optional point followed by digits.
    CPython rounds the decimal value correctly. *)
Definition of_unsigned (s : string) : float :=
  let '(int_part, rest) := span in_nums s in
  let frac := match rest with
              | String _ r => fst (span in_nums r)
              | EmptyString => ""
              end in
  of_ratio (digits_value 0 (int_part ++ frac)%string)
           (Z.to_pos (10 ^ Z.of_nat (String.length frac))).

Definition of_string (s : string) : float :=
  match s with
  | String "-" s' => PrimFloat.opp (of_unsigned s')
  | String "+" s' => of_unsigned s'
  | _ => of_unsigned s
  end.

End PyFloat.

(** ** Python values: tokens and AST nodes

    One constructor per class of the module, and one per builtin or pyparsing
    type that reaches the tree.  A field holds whatever object the constructor
    was given ([node]) unless the constructor itself builds a Python list
    ([list node]).  [Conjunction.type] is the constant ['AND'] and is left
    out. *)

Inductive node : Type :=
| Str (s : string)
| Num (x : float)
| PyList (items : list node)
| PyTuple (items : list node)
| ParseResults (toklist : list node)
| Fragment (text : string) (weight : float)
| Attention (weight : float) (children : node)
| CrossAttentionControlSubstitute (original edited : node)
| CrossAttentionControlAppend (fragment : node)
| Prompt (children : node)
| FlattenedPrompt (children : list node)
| Blend (prompts weights : node) (normalize_weights : bool)
| Conjunction (prompts : list node) (weights : list node).

(** [issubclass(type(x), BaseFragment)] *)
Definition is_BaseFragment (x : node) : bool :=
  match x with
  | Fragment _ _ | CrossAttentionControlSubstitute _ _
  | CrossAttentionControlAppend _ => true
  | _ => false
  end.

(** [issubclass(type(x), CrossAttentionControlledFragment)] *)
Definition is_CrossAttentionControlledFragment (x : node) : bool :=
  match x with
  | CrossAttentionControlSubstitute _ _ | CrossAttentionControlAppend _ => true
  | _ => false
  end.

Definition is_Attention (x : node) : bool :=
  match x with Attention _ _ => true | _ => false end.

Definition is_Prompt (x : node) : bool :=
  match x with Prompt _ => true | _ => false end.

Definition is_FlattenedPrompt (x : node) : bool :=
  match x with FlattenedPrompt _ => true | _ => false end.

Definition is_Blend (x : node) : bool :=
  match x with Blend _ _ _ => true | _ => false end.

(** Iterating over a string yields its characters, each a [str]. *)
Definition chars (s : string) : list node :=
  map (fun c => Str (String c "")) (list_ascii_of_string s).

(** [iter(x)]: the items a [for] loop visits. *)
Definition py_iter (x : node) : result (list node) :=
  match x with
  | PyList l | PyTuple l | ParseResults l => Return l
  | Str s => Return (chars s)
  | _ => Raise TypeError
  end.

(** [len(x)] *)
Definition py_len (x : node) : result nat :=
  match x with
  | PyList l | PyTuple l | ParseResults l => Return (List.length l)
  | Str s => Return (String.length s)
  | _ => Raise TypeError
  end.

(** [x[i]] on a sequence. *)
Definition py_getitem (x : node) (i : nat) : result node :=
  items <- py_iter x ;;
  match nth_error items i with
  | Some y => Return y
  | None => Raise IndexError
  end.

(** [x.text] and [x.weight] *)
Definition attr_text (x : node) : result string :=
  match x with
  | Fragment text _ => Return text
  | _ => Raise AttributeError
  end.

Definition attr_weight (x : node) : result float :=
  match x with
  | Fragment _ weight | Attention weight _ => Return weight
  | _ => Raise AttributeError
  end.

(** A [for] loop over a list that threads one local variable. *)
Definition for_each {A : Type} (body : node -> A -> result A)
  : list node -> A -> result A :=
  fix loop (items : list node) (acc : A) : result A :=
    match items with
    | [] => Return acc
    | x :: rest => bind (body x acc) (loop rest)
    end.

(** ** Constructors *)

(** [Prompt.__init__] *)
Definition Prompt_init (parts : node) : result node :=
  items <- py_iter parts ;;
  _ <- for_each (fun c (_ : unit) =>
         if negb (is_Attention c) && negb (is_BaseFragment c)
         then Raise ParsingException else Return tt) items tt ;;
  Return (Prompt parts).

(** [FlattenedPrompt.__init__] *)
Definition FlattenedPrompt_init (parts : list node) : result node :=
  parts_converted <- for_each (fun part parts_converted =>
      if is_BaseFragment part then Return (parts_converted ++ [part])
      else match part with
           | PyTuple items =>
               p0 <- py_getitem part 0 ;;
               match p0 with
               | Str text =>
                   p1 <- py_getitem part 1 ;;
                   match p1 with
                   | Num weight =>
                       Return (parts_converted ++ [Fragment text weight])
                   | _ => Raise ParsingException
                   end
               | _ => Raise ParsingException
               end
           | _ => Raise ParsingException
           end) parts [] ;;
  Return (FlattenedPrompt parts_converted).

(** [Conjunction.__init__]; [weights = None] is the omitted argument. *)
Definition Conjunction_init (prompts : node) (weights : option node)
  : result node :=
  items <- py_iter prompts ;;
  self_prompts <- for_each (fun x acc =>
      if is_Prompt x || is_Blend x || is_FlattenedPrompt x
      then Return (acc ++ [x])
      else (p <- Prompt_init x ;; Return (acc ++ [p]))) items [] ;;
  self_weights <- match weights with
                  | None => Return (repeat (Num 1.0) (List.length self_prompts))
                  | Some w => py_iter w
                  end ;;
  if negb (List.length self_weights =? List.length self_prompts)
  then Raise ParsingException
  else Return (Conjunction self_prompts self_weights).

(** [Blend.__init__] *)
Definition Blend_init (prompts weights : node) (normalize_weights : bool)
  : result node :=
  n_prompts <- py_len prompts ;;
  n_weights <- py_len weights ;;
  if negb (n_prompts =? n_weights) then Raise ParsingException
  else
    items <- py_iter prompts ;;
    _ <- for_each (fun c (_ : unit) =>
           if negb (is_Prompt c) && negb (is_FlattenedPrompt c)
           then Raise ParsingException else Return tt) items tt ;;
    Return (Blend prompts weights normalize_weights).

(** ** The flattening engine *)

Definition last_item (l : list node) : option node :=
  match rev l with
  | x :: _ => Some x
  | [] => None
  end.

(** One turn of the loop of [fuse_fragments]: [x] is the current item and
    [res] the list built so far ([result] in the source).  The recursive
    calls on [x.original] and [x.edited] iterate over those two objects. *)
Fixpoint fuse_item (x : node) (res : list node) {struct x}
  : result (list node) :=
  let fuse_seq (seq : node) : result (list node) :=
    match seq with
    | PyList l | PyTuple l | ParseResults l => for_each fuse_item l []
    | Str s =>
        (* each character is a [str], which has no attribute [text] *)
        match s with
        | EmptyString => Return []
        | String _ _ => Raise AttributeError
        end
    | _ => Raise TypeError
    end in
  match x with
  | CrossAttentionControlSubstitute original edited =>
      original_fused <- fuse_seq original ;;
      edited_fused <- fuse_seq edited ;;
      Return (res ++ [CrossAttentionControlSubstitute
                        (PyList original_fused) (PyList edited_fused)])
  | _ =>
      last_weight <-
        match last_item res with
        | Some l =>
            if negb (is_CrossAttentionControlledFragment l)
            then (w <- attr_weight l ;; Return (Some w))
            else Return None
        | None => Return None
        end ;;
      this_text <- attr_text x ;;
      this_weight <- attr_weight x ;;
      match last_weight with
      | Some last_weight =>
          if PrimFloat.eqb last_weight this_weight then
            match last_item res with
            | Some l =>
                last_text <- attr_text l ;;
                Return (removelast res
                        ++ [Fragment (last_text ++ " " ++ this_text)%string
                                     last_weight])
            | None => Raise IndexError
            end
          else Return (res ++ [x])
      | None => Return (res ++ [x])
      end
  end.

Definition fuse_fragments (items : list node) : result (list node) :=
  for_each fuse_item items [].

(** [flatten_internal(node, weight_scale, results, prefix)]; [prefix] only
    feeds the trace output.  The list [results] is extended and returned. *)
Fixpoint flatten_internal (n : node) (weight_scale : float)
  (results : list node) {struct n} : result (list node) :=
  let for_in (seq : node) (scale : float) (acc : list node)
    : result (list node) :=
    match seq with
    | PyList l | PyTuple l | ParseResults l =>
        for_each (fun c r => flatten_internal c scale r) l acc
    | Str s =>
        (* each character is a [str], an unhandled node type *)
        match s with
        | EmptyString => Return acc
        | String _ _ => Raise ParsingException
        end
    | _ => Raise TypeError
    end in
  match n with
  | ParseResults toklist =>
      for_each (fun x r => flatten_internal x weight_scale r) toklist results
  | Attention weight children =>
      for_in children (weight_scale * weight)%float results
  | Fragment text weight =>
      Return (results ++ [Fragment text (weight * weight_scale)%float])
  | CrossAttentionControlSubstitute original_ edited_ =>
      original <- flatten_internal original_ weight_scale [] ;;
      edited <- flatten_internal edited_ weight_scale [] ;;
      Return (results ++ [CrossAttentionControlSubstitute
                            (PyList original) (PyList edited)])
  | Blend prompts weights _ =>
      flattened_subprompts <- for_in prompts weight_scale [] ;;
      b <- Blend_init (PyList flattened_subprompts) weights true ;;
      Return (results ++ [b])
  | Prompt children =>
      flattened_prompt <- for_in children weight_scale [] ;;
      fused <- fuse_fragments flattened_prompt ;;
      p <- FlattenedPrompt_init fused ;;
      Return (results ++ [p])
  | _ => Raise ParsingException
  end.

(** [PromptParser.flatten(root)] *)
Definition flatten (root : node) : result node :=
  match root with
  | Conjunction prompts weights =>
      flattened_parts <- for_each (fun part acc =>
          r <- flatten_internal part 1.0 [] ;; Return (acc ++ r)) prompts [] ;;
      Conjunction_init (PyList flattened_parts) (Some (PyList weights))
  | _ => Raise AttributeError
  end.

(** ** The pyparsing elements the grammar uses

    A parser element is a function from the input that is left to the input
    left after the match and the tokens matched; a failed match raises
    [ParseException].  The behaviour is the one of pyparsing 3.0 under which
    the repository's tests hold:
    - every element skips leading blanks, tabs and line ends before it
      matches, except [CharsNotIn] and the elements inside a [Combine];
    - a parse action runs when the element has matched, unless the match is a
      look-ahead ([doActions] is off, the first pass of [Or]); an
      [IndexError] it raises becomes a [ParseException], any other exception
      leaves the parser;
    - packrat memoisation is off. *)

Module Pyparsing.

Record mode : Type := { doActions : bool; leaveWhitespace : bool }.

Definition parser : Type := mode -> string -> result (string * list node).

(** [ParserElement.preParse] with the default whitespace characters. *)
Fixpoint preParse (s : string) : string :=
  match s with
  | String c s' => if in_default_whitespace c then preParse s' else s
  | EmptyString => EmptyString
  end.

Definition pre (m : mode) (s : string) : string :=
  if leaveWhitespace m then s else preParse s.

Definition is_empty (s : string) : bool :=
  match s with EmptyString => true | _ => false end.

(** *** Tokens *)

Definition Literal (lit : string) : parser := fun m s =>
  match strip_prefix lit (pre m s) with
  | Some rest => Return (rest, [Str lit])
  | None => Raise ParseException
  end.

(** [Word(chars)]: a non-empty run of the allowed characters. *)
Definition Word (allowed : ascii -> bool) : parser := fun m s =>
  let '(w, rest) := span allowed (pre m s) in
  if is_empty w then Raise ParseException else Return (rest, [Str w]).

(** [CharsNotIn(chars)]: a non-empty run of characters outside the set; it
    does not skip whitespace. *)
Definition CharsNotIn (excluded : ascii -> bool) : parser := fun m s =>
  let '(w, rest) := span (fun c => negb (excluded c)) s in
  if is_empty w then Raise ParseException else Return (rest, [Str w]).

Definition StringEnd : parser := fun m s =>
  if is_empty (pre m s) then Return ("", []) else Raise ParseException.

(** A matcher looks for a match at the start of the input and returns the
    matched text and the rest; [Regex] makes it an element. *)
Definition matcher : Type := string -> option (string * string).

Definition Regex (re : matcher) : parser := fun m s =>
  match re (pre m s) with
  | Some (matched, rest) => Return (rest, [Str matched])
  | None => Raise ParseException
  end.

(** *** Expressions *)

Definition catches (e : exn) : bool :=
  match e with ParseException | IndexError => true | _ => false end.

(** [And(exprs)], written [e1 + e2 + ...] *)
Fixpoint And (exprs : list parser) : parser := fun m s =>
  match exprs with
  | [] => Return (s, [])
  | e :: rest =>
      '(s1, toks1) <- e m s ;;
      '(s2, toks2) <- And rest m s1 ;;
      Return (s2, toks1 ++ toks2)
  end.

Fixpoint first_match (exprs : list parser) : parser := fun m s =>
  match exprs with
  | [] => Raise ParseException
  | e :: rest =>
      match e m s with
      | Raise x => if catches x then first_match rest m s else Raise x
      | r => r
      end
  end.

(** [MatchFirst(exprs)], written [e1 | e2 | ...] *)
Definition MatchFirst (exprs : list parser) : parser := fun m s =>
  first_match exprs m (pre m s).

(** The first pass of [Or]: every alternative that matches without its
    actions, with the input it leaves. *)
Fixpoint try_all (exprs : list parser) (m : mode) (s : string)
  : result (list (nat * parser)) :=
  match exprs with
  | [] => Return []
  | e :: rest =>
      match e {| doActions := false; leaveWhitespace := leaveWhitespace m |} s with
      | Return (s1, _) =>
          ms <- try_all rest m s ;; Return ((String.length s1, e) :: ms)
      | Raise x => if catches x then try_all rest m s else Raise x
      | Diverge => Diverge
      end
  end.

(** Stable insertion sort: longest match (least input left) first. *)
Fixpoint insert_match (x : nat * parser) (l : list (nat * parser))
  : list (nat * parser) :=
  match l with
  | [] => [x]
  | y :: l' => if fst x <=? fst y then x :: l else y :: insert_match x l'
  end.

Fixpoint sort_matches (l : list (nat * parser)) : list (nat * parser) :=
  match l with
  | [] => []
  | x :: l' => insert_match x (sort_matches l')
  end.

(** The second pass of [Or]: the matches are parsed again with their
    actions, longest first; [longest] is the best shorter result so far. *)
Fixpoint retry (matches : list (nat * parser))
  (longest : option (string * list node)) (m : mode) (s : string)
  : result (string * list node) :=
  match matches with
  | [] =>
      match longest with
      | Some r => Return r
      | None => Raise ParseException
      end
  | (left1, expr1) :: rest =>
      let stop := match longest with
                  | Some (sl, _) => String.length sl <=? left1
                  | None => false
                  end in
      if stop then
        match longest with
        | Some r => Return r
        | None => Raise ParseException
        end
      else
        match expr1 m s with
        | Return (s2, toks) =>
            if String.length s2 <=? left1 then Return (s2, toks)
            else
              let better := match longest with
                            | Some (sl, _) => String.length s2 <? String.length sl
                            | None => true
                            end in
              retry rest (if better then Some (s2, toks) else longest) m s
        | Raise ParseException => retry rest longest m s
        | r => r
        end
  end.

(** [Or(exprs)]: the longest alternative. *)
Definition Or (exprs : list parser) : parser := fun m s =>
  let s := pre m s in
  matches <- try_all exprs m s ;;
  let sorted := sort_matches matches in
  match sorted with
  | [] => Raise ParseException
  | (_, best) :: _ =>
      if doActions m then retry sorted None m s else best m s
  end.

Definition Group (e : parser) : parser := fun m s =>
  '(rest, toks) <- e m s ;; Return (rest, [ParseResults toks]).

Definition Suppress (e : parser) : parser := fun m s =>
  '(rest, _) <- e m s ;; Return (rest, []).

(** The loop of [OneOrMore] and [ZeroOrMore].  [fuel] bounds the number of
    turns by the length of the input: a turn that consumes nothing would be
    repeated for ever. *)
Fixpoint many_loop (fuel : nat) (e : parser) (m : mode) (s : string)
  (acc : list node) : result (string * list node) :=
  match fuel with
  | O => Diverge
  | S fuel' =>
      match e m s with
      | Return (rest, toks) =>
          if String.length rest <? String.length s
          then many_loop fuel' e m rest (acc ++ toks)
          else Diverge
      | Raise x => if catches x then Return (s, acc) else Raise x
      | Diverge => Diverge
      end
  end.

Definition OneOrMore (e : parser) : parser := fun m s =>
  '(s1, toks) <- e m (pre m s) ;;
  many_loop (S (String.length s1)) e m s1 toks.

(** Every repetition and option of the grammar wraps an element that skips
    whitespace, and so skips it too, also when it matches nothing. *)
Definition ZeroOrMore (e : parser) : parser := fun m s =>
  match OneOrMore e m s with
  | Raise x => if catches x then Return (pre m s, []) else Raise x
  | r => r
  end.

Definition Optional (e : parser) : parser := fun m s =>
  match e m (pre m s) with
  | Raise x => if catches x then Return (pre m s, []) else Raise x
  | r => r
  end.

(** [str(token)] for the tokens under a [Combine]: strings, possibly
    grouped. *)
Fixpoint as_string (tok : node) : result string :=
  match tok with
  | Str s => Return s
  | ParseResults l =>
      (fix go (l : list node) : result string :=
         match l with
         | [] => Return ""
         | x :: l' =>
             a <- as_string x ;; b <- go l' ;; Return (a ++ b)%string
         end) l
  | _ => Raise TypeError
  end.

(** [Combine(e)]: the elements of [e] match adjacent text, and their tokens
    are joined into one string. *)
Definition Combine (e : parser) : parser := fun m s =>
  '(rest, toks) <- e {| doActions := doActions m; leaveWhitespace := true |}
                     (pre m s) ;;
  joined <- as_string (ParseResults toks) ;;
  Return (rest, [Str joined]).

(** The tokens that replace the matched ones when a parse action returns
    [r]: [ParseResults(r)]. *)
Definition tokens_of (r : node) : list node :=
  match r with
  | ParseResults l | PyList l => l
  | x => [x]
  end.

(** [e.set_parse_action(fn)] *)
Definition with_action (fn : node -> result node) (e : parser) : parser :=
  fun m s =>
    '(rest, toks) <- e m s ;;
    if doActions m then
      match fn (ParseResults toks) with
      | Return r => Return (rest, tokens_of r)
      | Raise IndexError => Raise ParseException
      | Raise x => Raise x
      | Diverge => Diverge
      end
    else Return (rest, toks).

(** *** Matchers of the regular expressions *)

Definition is_char (n : nat) (c : ascii) : bool := nat_of_ascii c =? n.

Definition dquote : ascii := ascii_of_nat 34.
Definition squote : ascii := ascii_of_nat 39.
Definition backslash : ascii := ascii_of_nat 92.

(** The body of [pyparsing_common.real] after the sign:
    [\d+\.\d*|\.\d+] *)
Definition match_unsigned_real : matcher := fun s =>
  let '(d1, r1) := span in_nums s in
  match r1 with
  | String c r2 =>
      if is_char 46 c then
        let '(d2, r3) := span in_nums r2 in
        if is_empty d1 && is_empty d2 then None
        else Some ((d1 ++ String c d2)%string, r3)
      else None
  | EmptyString => None
  end.

(** [pyparsing_common.real]: [[+-]?(?:\d+\.\d*|\.\d+)] *)
Definition match_real : matcher := fun s =>
  match s with
  | String c s' =>
      if is_char 43 c || is_char 45 c then
        match match_unsigned_real s' with
        | Some (t, rest) => Some (String c t, rest)
        | None => None
        end
      else match_unsigned_real s
  | EmptyString => None
  end.

(** The repeated group of the pattern of [QuotedString] for the double
    quote and the escape character backslash: an escaped character other
    than a line feed, or a character that is no quote, line end or
    backslash.  The text matched and the rest. *)
Fixpoint scan_quoted (s : string) : string * string :=
  match s with
  | String c s' =>
      if is_char 92 c then
        match s' with
        | String c2 s'' =>
            if is_char 10 c2 then ("", s)
            else let '(a, b) := scan_quoted s'' in (String c (String c2 a), b)
        | EmptyString => ("", s)
        end
      else if is_char 34 c || is_char 10 c || is_char 13 c then ("", s)
      else let '(a, b) := scan_quoted s' in (String c a, b)
  | EmptyString => ("", "")
  end.

(** [ret.replace(a + b, r)] for a pattern of two characters. *)
Fixpoint replace2 (a b r : ascii) (s : string) : string :=
  match s with
  | String c1 s' =>
      match s' with
      | String c2 s'' =>
          if Ascii.eqb c1 a && Ascii.eqb c2 b then String r (replace2 a b r s'')
          else String c1 (replace2 a b r s')
      | EmptyString => s
      end
  | EmptyString => s
  end.

(** [re.sub(escCharReplacePattern, r'\g<1>', ret)]: a backslash followed
    by a character other than a line feed is dropped. *)
Fixpoint unescape (s : string) : string :=
  match s with
  | String c1 s' =>
      if is_char 92 c1 then
        match s' with
        | String c2 s'' =>
            if is_char 10 c2 then String c1 (unescape s')
            else String c2 (unescape s'')
        | EmptyString => s
        end
      else String c1 (unescape s')
  | EmptyString => s
  end.

Definition contains (c : ascii) (s : string) : bool :=
  existsb (Ascii.eqb c) (list_ascii_of_string s).

(** The text inside the quotes, as [QuotedString] returns it: the escaped
    whitespace letters t, n, f, r are converted, then every escape
    character is dropped. *)
Definition unquote (inner : string) : string :=
  let ret :=
    if contains backslash inner then
      replace2 backslash "r" (ascii_of_nat 13)
        (replace2 backslash "f" (ascii_of_nat 12)
          (replace2 backslash "n" (ascii_of_nat 10)
            (replace2 backslash "t" (ascii_of_nat 9) inner)))
    else inner in
  unescape ret.

(** [QuotedString] with the double quote as [quote_char] and the backslash
    as [esc_char]. *)
Definition QuotedString : parser := fun m s =>
  match pre m s with
  | String c s1 =>
      if is_char 34 c then
        let '(inner, rest) := scan_quoted s1 in
        match rest with
        | String c' rest' =>
            if is_char 34 c' then Return (rest', [Str (unquote inner)])
            else Raise ParseException
        | EmptyString => Raise ParseException
        end
      else Raise ParseException
  | EmptyString => Raise ParseException
  end.

(** The pattern of [dbl_quoted_string] and [sgl_quoted_string] for the
    quote character [q]:
    [q(?:[^q\n\r\\]|(?:qq)|(?:\\(?:[^x]|x[0-9a-fA-F]+)))*]
    after the opening quote. *)
Fixpoint scan_quoted_string (q : ascii) (s : string) : string * string :=
  match s with
  | String c s' =>
      if Ascii.eqb c q then
        match s' with
        | String c2 s'' =>
            if Ascii.eqb c2 q then
              let '(a, b) := scan_quoted_string q s'' in
              (String c (String c2 a), b)
            else ("", s)
        | EmptyString => ("", s)
        end
      else if is_char 92 c then
        match s' with
        | String c2 s'' =>
            if is_char 120 c2 then
              match s'' with
              | String c3 s3 =>
                  if is_hex c3 then
                    let '(a, b) := scan_quoted_string q s3 in
                    (String c (String c2 (String c3 a)), b)
                  else ("", s)
              | EmptyString => ("", s)
              end
            else let '(a, b) := scan_quoted_string q s'' in
                 (String c (String c2 a), b)
        | EmptyString => ("", s)
        end
      else if is_char 10 c || is_char 13 c then ("", s)
      else let '(a, b) := scan_quoted_string q s' in (String c a, b)
  | EmptyString => ("", "")
  end.

Definition match_quoted_string (q : ascii) : matcher := fun s =>
  match s with
  | String c s1 =>
      if Ascii.eqb c q then
        let '(a, b) := scan_quoted_string q s1 in Some (String c a, b)
      else None
  | EmptyString => None
  end.

(** [pp.dbl_quoted_string] and [pp.quoted_string] *)
Definition dbl_quoted_string : parser :=
  Combine (And [Regex (match_quoted_string dquote);
                Literal (String dquote "")]).

Definition quoted_string : parser :=
  Combine (MatchFirst
             [And [Regex (match_quoted_string dquote);
                   Literal (String dquote "")];
              And [Regex (match_quoted_string squote);
                   Literal (String squote "")]]).

(** [delimited_list(expr, delim)] *)
Definition delimited_list (expr : parser) (delim : string) : parser :=
  And [expr; ZeroOrMore (And [Suppress (Literal delim); expr])].

(** A [Forward] that is entered again from inside itself: the inner match
    starts further in the input than the outer one. *)
Definition guard (outer : string) (e : parser) : parser := fun m s =>
  if String.length s <? String.length outer then e m s else Diverge.

(** [e.parse_string(instring)] *)
Definition parse_string (e : parser) (instring : string) : result node :=
  '(_, toks) <- e {| doActions := true; leaveWhitespace := false |}
                  (expandtabs instring) ;;
  Return (ParseResults toks).

End Pyparsing.

(** ** The grammar: [PromptParser.build_parser_logic] *)

Import Pyparsing.

(** [SPACE_CHARS = string.whitespace]: blank, tab, line feed, carriage
    return, vertical tab, form feed. *)
Definition SPACE_CHARS : string :=
  String (ascii_of_nat 32) (String (ascii_of_nat 9) (String (ascii_of_nat 10)
  (String (ascii_of_nat 13) (String (ascii_of_nat 11)
  (String (ascii_of_nat 12) ""))))).

Definition all_strings (items : list node) : result (list string) :=
  for_each (fun x acc =>
              match x with
              | Str s => Return (acc ++ [s])
              | _ => Raise TypeError
              end) items [].

Definition make_fragment (x : node) : result node :=
  match x with
  | Str s => Return (Fragment s 1)
  | ParseResults items | PyList items =>
      strs <- all_strings items ;;
      Return (Fragment (join " " strs) 1)
  | _ => Raise ParsingException
  end.

Definition make_cross_attention_substitute (x : node) : result node :=
  x0 <- py_getitem x 0 ;;
  x1 <- py_getitem x 1 ;;
  Return (CrossAttentionControlSubstitute x0 x1).

Section Grammar.

(** Python's builtin [pow] on a float base and an integer exponent, which
    CPython hands to the C library. *)
Variable pow : float -> nat -> float.

(** [self.attention_plus_base] and [self.attention_minus_base] *)
Variables attention_plus_base attention_minus_base : float.

Definition lparen : parser := Suppress (Literal "(").
Definition rparen : parser := Suppress (Literal ")").
Definition quotes : parser := Suppress (Literal (String dquote "")).

(** [number]: a real, or a run of digits, mapped to a float by
    [token_map(float)]. *)
Definition convert_to_float (x : node) : result node :=
  items <- py_iter x ;;
  floats <- for_each (fun t acc =>
              match t with
              | Str s => Return (acc ++ [Num (PyFloat.of_string s)])
              | _ => Raise TypeError
              end) items [] ;;
  Return (PyList floats).

Definition number : parser :=
  MatchFirst [with_action convert_to_float (Regex match_real);
              with_action convert_to_float (Word in_nums)].

Definition make_attention (x : node) : result node :=
  x0 <- py_getitem x 0 ;;
  weight <- match x0 with
            | Num f => Return f
            | Str s =>
                match s with
                | String c _ =>
                    let base := if is_char 43 c
                                then attention_plus_base
                                else attention_minus_base in
                    Return (pow base (String.length s))
                | EmptyString => Raise IndexError
                end
            | _ => Return 1%float
            end ;;
  x1 <- py_getitem x 1 ;;
  Return (Attention weight x1).

Definition attention_head : parser :=
  MatchFirst [number; Word (is_char 43); Word (is_char 45)].

Definition inside_attention_excluded (c : ascii) : bool :=
  in_string_whitespace c || is_char 40 c || is_char 41 c.

Definition fragment_inside_attention : parser :=
  with_action make_fragment (CharsNotIn inside_attention_excluded).

(** [nested_expr(content=content)], with the default opener, closer and
    [ignore_expr=quoted_string]: the [Forward] it returns refers to
    itself. *)
Fixpoint nested_expr_fuel (fuel : nat) (content : parser) : parser :=
  fun m s =>
    match fuel with
    | O => Diverge
    | S fuel' =>
        let ret := guard s (nested_expr_fuel fuel' content) in
        Group (And [Suppress (Literal "(");
                    ZeroOrMore (MatchFirst [quoted_string; ret; content]);
                    Suppress (Literal ")")]) m s
    end.

Definition nested_expr (content : parser) : parser := fun m s =>
  nested_expr_fuel (S (String.length s)) content m s.

(** [attention_with_parens], a [Forward] that its own body refers to. *)
Fixpoint attention_with_parens_fuel (fuel : nat) : parser := fun m s =>
  match fuel with
  | O => Diverge
  | S fuel' =>
      let attention_with_parens :=
        guard s (attention_with_parens_fuel fuel') in
      let attention_with_parens_body :=
        nested_expr
          (delimited_list
             (MatchFirst [attention_with_parens; fragment_inside_attention])
             SPACE_CHARS) in
      with_action make_attention
        (And [attention_head; attention_with_parens_body]) m s
  end.

Definition attention_with_parens : parser := fun m s =>
  attention_with_parens_fuel (S (String.length s)) m s.

Definition attention_without_parens : parser :=
  with_action make_attention
    (And [MatchFirst [Word (is_char 43); Word (is_char 45)];
          with_action (fun x => f <- make_fragment x ;;
                                Return (PyList [PyList [f]]))
            (CharsNotIn inside_attention_excluded)]).

Definition attention : parser :=
  MatchFirst [attention_with_parens; attention_without_parens].

Definition printable_word : ascii -> bool :=
  fun c => in_printables c && negb (in_string_whitespace c).

(** [parse_fragment_str]: the text of a quoted or parenthesized fragment is
    parsed again as attentions and words. *)
Definition parse_fragment_str (x : node) : result node :=
  x0 <- py_getitem x 0 ;;
  match x0 with
  | Str s =>
      if String.length (strip s) =? 0 then Return (Fragment "" 1)
      else
        let fragment_parser :=
          Group (OneOrMore
                   (MatchFirst [attention;
                                with_action make_fragment
                                  (Word printable_word)])) in
        parse_string fragment_parser s
  | _ => Raise AttributeError
  end.

(** The last [set_parse_action] on [quoted_fragment], inside the
    definition of [parenthesized_fragment], replaces [make_fragment] by
    [parse_fragment_str] for every use of the element. *)
Definition quoted_fragment : parser :=
  with_action parse_fragment_str QuotedString.

Definition unquoted_word : ascii -> bool :=
  fun c => in_printables c
           && negb (in_string_whitespace c || is_char 92 c || is_char 34 c).

Definition unquoted_fragment : parser :=
  with_action make_fragment
    (Combine (OneOrMore
                (MatchFirst [Literal (String backslash (String dquote ""));
                             Literal (String backslash "");
                             Word unquoted_word]))).

Definition in_parens_word : ascii -> bool :=
  fun c => in_printables c
           && negb (in_string_whitespace c || is_char 92 c || is_char 41 c).

Definition parenthesized_fragment : parser :=
  Or [And [lparen; quoted_fragment; rparen];
      with_action (fun _ => make_fragment (Str "")) (And [lparen; rparen]);
      And [lparen;
           with_action parse_fragment_str
             (Combine (OneOrMore
                         (MatchFirst [Literal (String backslash ")");
                                      Literal (String backslash "");
                                      Word in_parens_word;
                                      Word in_string_whitespace])));
           rparen]].

(** Cross-attention control *)
Definition two_quotes : string := String dquote (String dquote "").

Definition empty_string : parser :=
  with_action (fun _ => Return (Fragment "" 1))
    (MatchFirst [And [lparen; rparen];
                 Suppress (Literal two_quotes);
                 And [lparen; Suppress (Literal two_quotes); rparen]]).

Definition original_fragment : parser :=
  MatchFirst [empty_string; quoted_fragment; parenthesized_fragment;
              unquoted_fragment].

Definition edited_fragment : parser := parenthesized_fragment.

Definition cross_attention_substitute : parser :=
  with_action make_cross_attention_substitute
    (And [original_fragment; Suppress (Literal ".swap"); edited_fragment]).

Definition prompt_part : parser :=
  MatchFirst [cross_attention_substitute; attention; quoted_fragment;
              unquoted_fragment].

Definition empty : parser :=
  MatchFirst [And [lparen; ZeroOrMore (Word in_string_whitespace); rparen];
              And [quotes; ZeroOrMore (Word in_string_whitespace); quotes]].

(** The root prompt definition *)
Definition prompt : parser :=
  with_action (fun x => x0 <- py_getitem x 0 ;; Prompt_init x0)
    (And [Group (MatchFirst [OneOrMore prompt_part; empty]); StringEnd]).

(** [x[1:-1]] on a string *)
Definition drop_ends (s : string) : string :=
  match s with
  | String _ s' => string_rev (match string_rev s' with
                               | String _ r => r
                               | EmptyString => ""
                               end)
  | EmptyString => ""
  end.

Definition make_prompt_from_quoted_string (x : node) : result node :=
  x0 <- py_getitem x 0 ;;
  match x0 with
  | Str s =>
      let x_unquoted := drop_ends s in
      if String.length (strip x_unquoted) =? 0
      then Prompt_init (PyList [Fragment "" 1])
      else
        x_parsed <- parse_string prompt x_unquoted ;;
        py_getitem x_parsed 0
  | _ => Raise TypeError
  end.

Definition quoted_prompt : parser :=
  with_action make_prompt_from_quoted_string dbl_quoted_string.

Definition blend_terms : parser := delimited_list quoted_prompt ",".
Definition blend_weights : parser := delimited_list number ",".

Definition blend : parser :=
  with_action (fun x =>
                 x0 <- py_getitem x 0 ;;
                 prompts <- py_getitem x0 0 ;;
                 weights <- py_getitem x0 1 ;;
                 Blend_init prompts weights true)
    (Group (And [lparen; Group blend_terms; rparen;
                 Suppress (Literal ".blend");
                 lparen; Group blend_weights; rparen])).

Definition conjunction_terms : parser := blend_terms.
Definition conjunction_weights : parser := blend_weights.

Definition make_conjunction (x : node) : result node :=
  x0 <- py_getitem x 0 ;;
  parts_raw <- py_getitem x0 0 ;;
  n <- py_len x0 ;;
  weights <- (if 1 <? n then py_getitem x0 1
              else (k <- py_len parts_raw ;;
                    Return (PyList (repeat (Num 1.0) k)))) ;;
  parts <- py_iter parts_raw ;;
  Conjunction_init (PyList parts) (Some weights).

Definition conjunction_with_parens_and_quotes : parser :=
  with_action make_conjunction
    (Group (And [lparen; Group conjunction_terms; rparen;
                 Suppress (Literal ".and");
                 lparen; Optional (Group conjunction_weights); rparen])).

Definition implicit_conjunction : parser :=
  with_action (fun x => Conjunction_init x None)
    (OneOrMore (MatchFirst [blend; prompt])).

(** The top level is a conjunction of one or more blends or prompts. *)
Definition conjunction : parser :=
  MatchFirst [conjunction_with_parens_and_quotes; implicit_conjunction].

Definition build_parser_logic : parser := conjunction.

End Grammar.

(** ** The class [PromptParser] *)

Record PromptParser : Type := {
  attention_plus_base : float;
  attention_minus_base : float;
  root : parser
}.

(** [PromptParser.__init__] *)
Definition PromptParser_init (pow : float -> nat -> float)
  (attention_plus_base attention_minus_base : float) : PromptParser :=
  {| attention_plus_base := attention_plus_base;
     attention_minus_base := attention_minus_base;
     root := build_parser_logic pow attention_plus_base attention_minus_base |}.

(** [PromptParser()], with the default arguments 1.1 and 0.9. *)
Definition default_parser (pow : float -> nat -> float) : PromptParser :=
  PromptParser_init pow 1.1 0.9.

(** [PromptParser.parse] *)
Definition parse (self : PromptParser) (prompt : string) : result node :=
  if String.length (strip prompt) =? 0 then
    p <- FlattenedPrompt_init [PyTuple [Str ""; Num 1.0]] ;;
    Conjunction_init (PyList [p]) (Some (PyList [Num 1.0]))
  else
    root <- parse_string (root self) prompt ;;
    root0 <- py_getitem root 0 ;;
    flatten root0.

(** ** Printing and equality: [__repr__] and [__eq__] *)

Section Equality.

(** Python's builtin [repr] on a float and on a string. *)
Variable repr_float : float -> string.
Variable repr_str : string -> string.

Definition is_ParseResults (x : node) : bool :=
  match x with ParseResults _ => true | _ => false end.

(** [str(x)] when [as_str] is set, [repr(x)] otherwise.  An f-string
    formats a field with [str]; a list prints its items with [repr], a
    [pp.ParseResults] prints its nested results with [str] and its other
    tokens with [repr].  [CrossAttentionControlAppend.__repr__] returns a
    tuple, which [repr] refuses. *)
Fixpoint py_show (as_str : bool) (x : node) {struct x} : result string :=
  let show_all (inside_results : bool) :=
    fix go (l : list node) : result (list string) :=
      match l with
      | [] => Return []
      | y :: l' =>
          a <- py_show (inside_results && is_ParseResults y) y ;;
          r <- go l' ;;
          Return (a :: r)
      end in
  let show_list (l : list node) : result string :=
    items <- show_all false l ;;
    Return ("[" ++ join ", " items ++ "]")%string in
  match x with
  | Str s => Return (if as_str then s else repr_str s)
  | Num f => Return (repr_float f)
  | PyList l => show_list l
  | PyTuple l =>
      items <- show_all false l ;;
      Return (match items with
              | [one] => "(" ++ one ++ ",)"
              | _ => "(" ++ join ", " items ++ ")"
              end)%string
  | ParseResults l =>
      if as_str then
        items <- show_all true l ;;
        Return ("[" ++ join ", " items ++ "]")%string
      else
        inner <- show_list l ;;
        Return ("ParseResults(" ++ inner ++ ", {})")%string
  | Fragment text weight =>
      Return ("Fragment:'" ++ text ++ "'@" ++ repr_float weight)%string
  | Attention weight children =>
      c <- py_show true children ;;
      Return ("Attention:'" ++ c ++ "' @ " ++ repr_float weight)%string
  | CrossAttentionControlSubstitute original edited =>
      o <- py_show true original ;;
      e <- py_show true edited ;;
      Return ("CrossAttentionControlSubstitute:(" ++ o ++ "->" ++ e ++ ")")%string
  | CrossAttentionControlAppend _ => Raise TypeError
  | Prompt children =>
      c <- py_show true children ;;
      Return ("Prompt:" ++ c)%string
  | FlattenedPrompt children =>
      c <- show_list children ;;
      Return ("FlattenedPrompt:" ++ c)%string
  | Blend prompts weights _ =>
      p <- py_show true prompts ;;
      w <- py_show true weights ;;
      Return ("Blend:" ++ p ++ " | weights " ++ w)%string
  | Conjunction prompts weights =>
      p <- show_list prompts ;;
      w <- show_list weights ;;
      Return ("Conjunction:" ++ p ++ " | weights " ++ w)%string
  end.

Definition py_repr (x : node) : result string := py_show false x.

(** [l1 == l2] on two Python lists, items compared by [eq]: lists of
    different lengths differ without a comparison of items. *)
Definition list_eq (eq : node -> node -> result bool)
  : list node -> list node -> result bool :=
  fun l1 l2 =>
    if negb (List.length l1 =? List.length l2) then Return false
    else
      (fix go (l1 l2 : list node) : result bool :=
         match l1, l2 with
         | x :: l1', y :: l2' =>
             r <- eq x y ;; if r then go l1' l2' else Return false
         | _, _ => Return true
         end) l1 l2.

(** [t1 == t2] on two tuples: the items are compared first, up to the
    first difference, then the lengths. *)
Definition tuple_eq (eq : node -> node -> result bool)
  : list node -> list node -> result bool :=
  fix go (l1 l2 : list node) : result bool :=
    match l1, l2 with
    | x :: l1', y :: l2' =>
        r <- eq x y ;; if r then go l1' l2' else Return false
    | [], [] => Return true
    | _, _ => Return false
    end.

Definition is_builtin (x : node) : bool :=
  match x with
  | Str _ | Num _ | PyList _ | PyTuple _ | ParseResults _ => true
  | _ => false
  end.

(** [py_eq a b] is [a == b] and [py_eq_rev a b] is [b == a], for two
    objects that share no part: the equality of [pp.ParseResults] and the
    shortcut of the list comparison are by identity.  The [__eq__] of the
    left operand decides; a builtin type that does not know the right
    operand ([NotImplemented]) hands over to the [__eq__] of the right
    operand, which for a class of this module answers [False] unless it
    is [Blend]. *)
Fixpoint py_eq (a b : node) {struct a} : result bool :=
  let reflected :=
    match b with
    | Blend _ _ _ =>
        ra <- py_repr a ;; rb <- py_repr b ;; Return (String.eqb ra rb)
    | _ => Return false
    end in
  match a with
  | Str s =>
      match b with Str t => Return (String.eqb s t) | _ => reflected end
  | Num x =>
      match b with Num y => Return (PrimFloat.eqb x y) | _ => reflected end
  | PyList l =>
      match b with PyList l' => list_eq py_eq l l' | _ => reflected end
  | PyTuple l =>
      match b with PyTuple l' => tuple_eq py_eq l l' | _ => reflected end
  | ParseResults _ => reflected
  | Fragment text weight =>
      match b with
      | Fragment t w => Return (String.eqb t text && PrimFloat.eqb w weight)
      | _ => Return false
      end
  | Attention weight _ =>
      match b with
      | Attention w _ =>
          (* [other.fragment]: an [Attention] has no such attribute *)
          if PrimFloat.eqb w weight then Raise AttributeError
          else Return false
      | _ => Return false
      end
  | CrossAttentionControlSubstitute original edited =>
      match b with
      | CrossAttentionControlSubstitute o e =>
          r <- py_eq_rev original o ;;
          if r then py_eq_rev edited e else Return false
      | _ => Return false
      end
  | CrossAttentionControlAppend fragment =>
      match b with
      | CrossAttentionControlAppend f => py_eq_rev fragment f
      | _ => Return false
      end
  | Prompt children =>
      match b with
      | Prompt c => py_eq_rev children c
      | _ => Return false
      end
  | FlattenedPrompt children =>
      match b with
      | FlattenedPrompt c => list_eq py_eq_rev children c
      | _ => Return false
      end
  | Blend _ _ _ =>
      rb <- py_repr b ;; ra <- py_repr a ;; Return (String.eqb rb ra)
  | Conjunction prompts weights =>
      match b with
      | Conjunction p w =>
          r <- list_eq py_eq_rev prompts p ;;
          if r then list_eq py_eq_rev weights w else Return false
      | _ => Return false
      end
  end
with py_eq_rev (a b : node) {struct a} : result bool :=
  let builtin_b (same : result bool) : result bool :=
    (* [b == a] for a builtin [b]: [same] when [a] has the type of [b] *)
    match a with
    | Blend _ _ _ =>
        rb <- py_repr b ;; ra <- py_repr a ;; Return (String.eqb rb ra)
    | _ => same
    end in
  match b with
  | Str t =>
      builtin_b (match a with Str s => Return (String.eqb t s)
                              | _ => Return false end)
  | Num y =>
      builtin_b (match a with Num x => Return (PrimFloat.eqb y x)
                              | _ => Return false end)
  | PyList l' =>
      builtin_b (match a with PyList l => list_eq py_eq_rev l l'
                              | _ => Return false end)
  | PyTuple l' =>
      builtin_b (match a with PyTuple l => tuple_eq py_eq_rev l l'
                              | _ => Return false end)
  | ParseResults _ => builtin_b (Return false)
  | Fragment t w =>
      match a with
      | Fragment text weight =>
          Return (String.eqb text t && PrimFloat.eqb weight w)
      | _ => Return false
      end
  | Attention w _ =>
      match a with
      | Attention weight _ =>
          if PrimFloat.eqb weight w then Raise AttributeError
          else Return false
      | _ => Return false
      end
  | CrossAttentionControlSubstitute o e =>
      match a with
      | CrossAttentionControlSubstitute original edited =>
          r <- py_eq original o ;;
          if r then py_eq edited e else Return false
      | _ => Return false
      end
  | CrossAttentionControlAppend f =>
      match a with
      | CrossAttentionControlAppend fragment => py_eq fragment f
      | _ => Return false
      end
  | Prompt c =>
      match a with
      | Prompt children => py_eq children c
      | _ => Return false
      end
  | FlattenedPrompt c =>
      match a with
      | FlattenedPrompt children => list_eq py_eq children c
      | _ => Return false
      end
  | Blend _ _ _ =>
      ra <- py_repr a ;; rb <- py_repr b ;; Return (String.eqb ra rb)
  | Conjunction p w =>
      match a with
      | Conjunction prompts weights =>
          r <- list_eq py_eq prompts p ;;
          if r then list_eq py_eq weights w else Return false
      | _ => Return false
      end
  end.

End Equality.

(** * Vocabulary of the specification *)

(** A string made of whitespace only (in the sense of [str.strip]). *)
Definition all_whitespace (s : string) : bool :=
  forallb isspace (list_ascii_of_string s).

(** The objects a [for] loop can go through. *)
Definition is_sequence (x : node) : bool :=
  match x with
  | Str _ | PyList _ | PyTuple _ | ParseResults _ => true
  | _ => false
  end.

(** The items of a list, a tuple or a [pp.ParseResults]. *)
Definition items_of (x : node) : list node :=
  match x with
  | PyList l | PyTuple l | ParseResults l => l
  | _ => []
  end.

(** The entries [Conjunction.__init__] keeps as they are. *)
Definition prompt_like (x : node) : bool :=
  is_Prompt x || is_Blend x || is_FlattenedPrompt x.

(** The children [Prompt.__init__] accepts. *)
Definition prompt_item (c : node) : bool := is_Attention c || is_BaseFragment c.

(** The prompts [Blend.__init__] accepts. *)
Definition blend_item (c : node) : bool := is_Prompt c || is_FlattenedPrompt c.

(** What [Conjunction.__init__] makes of an entry of [prompts]. *)
Definition coerced (x : node) : node := if prompt_like x then x else Prompt x.


(** A sequence of children that [Prompt.__init__] accepts. *)
Definition prompt_parts (x : node) : bool :=
  match x with
  | PyList l | PyTuple l | ParseResults l => forallb prompt_item l
  | Str s => match s with EmptyString => true | _ => false end
  | _ => false
  end.

Definition valid_entry (x : node) : bool := prompt_like x || prompt_parts x.

(** A tree of attentions: fragments, attentions over a sequence of such
    trees, and the groups of pyparsing. *)
Fixpoint attention_tree (n : node) : bool :=
  match n with
  | Fragment _ _ => true
  | Attention _ children =>
      match children with
      | PyList l | PyTuple l | ParseResults l => forallb attention_tree l
      | _ => false
      end
  | ParseResults l => forallb attention_tree l
  | _ => false
  end.

(** The leaf fragments of a tree of attentions, in order, each with the
    weights of the attentions that enclose it, outermost first. *)
Fixpoint weighted_leaves (n : node) : list (list float * string * float) :=
  let enter (w : float) (leaf : list float * string * float) :=
    let '(path, text, weight) := leaf in (w :: path, text, weight) in
  match n with
  | Fragment text weight => [([], text, weight)]
  | Attention w children =>
      match children with
      | PyList l | PyTuple l | ParseResults l =>
          map (enter w) (flat_map weighted_leaves l)
      | _ => []
      end
  | ParseResults l => flat_map weighted_leaves l
  | _ => []
  end.

(** The fragment a leaf resolves to under the scale [weight_scale]: its own
    weight times the scale multiplied by the enclosing weights in turn. *)
Definition resolved (weight_scale : float) (leaf : list float * string * float)
  : node :=
  let '(path, text, weight) := leaf in
  Fragment text (weight * fold_left PrimFloat.mul path weight_scale)%float.

Definition fmap {A B : Type} (f : A -> B) (r : result A) : result B :=
  x <- r ;; Return (f x).

(** The weight of the last item of the buffer of [fuse_fragments], when it
    can fuse ([last_weight] in the source). *)
Definition last_weight_of (res : list node) : result (option float) :=
  match last_item res with
  | Some l =>
      if negb (is_CrossAttentionControlledFragment l)
      then (w <- attr_weight l ;; Return (Some w))
      else Return None
  | None => Return None
  end.

(** The loop of [Conjunction.__init__] that coerces the entries. *)
Definition coerce_loop : list node -> list node -> result (list node) :=
  for_each (fun x acc =>
      if is_Prompt x || is_Blend x || is_FlattenedPrompt x
      then Return (acc ++ [x])
      else (p <- Prompt_init x ;; Return (acc ++ [p]))).

(** A double quote, to write the inputs of [parse]. *)
Definition q : string := String dquote "".

(** ** Runs of one character, and a function [pow] can stand for *)

(** A run of [n] copies of the character [c]. *)
Fixpoint run (c : ascii) (n : nat) : string :=
  match n with O => "" | S n' => String c (run c n') end.

Definition starts_with (c : ascii) (s : string) : bool :=
  match s with String c' _ => Ascii.eqb c' c | EmptyString => false end.

(** Repeated multiplication, one function that [pow] can stand for. *)
Fixpoint power (base : float) (n : nat) : float :=
  match n with O => 1%float | S n' => (base * power base n')%float end.

(** ** Outcomes of parser elements *)

(** The exceptions that leave [parse] by design. *)
Definition expected (e : exn) : Prop := e = ParseException \/ e = ParsingException.

(** What a well-behaved element answers on the input [s]: a match that
    leaves no more input than it got (less, when [strict]) and tokens of the
    shape [Q], owed when the actions ran or, with [always], in a look-ahead
    too; or one of the two expected exceptions. *)
Definition ok_result (always strict : bool) (Q : list node -> Prop) (m : mode)
  (s : string) (r : result (string * list node)) : Prop :=
  match r with
  | Return (rest, toks) =>
      (if strict then String.length rest < String.length s
       else String.length rest <= String.length s)
      /\ (always = true \/ doActions m = true -> Q toks)
  | Raise e => expected e
  | Diverge => False
  end.

(** [sound_lt a n strict Q e]: the element behaves well on every input
    shorter than [n]. *)
Definition sound_lt (always : bool) (n : nat) (strict : bool)
  (Q : list node -> Prop) (e : parser) : Prop :=
  forall m s, String.length s < n -> ok_result always strict Q m s (e m s).

Definition sound (always strict : bool) (Q : list node -> Prop) (e : parser)
  : Prop :=
  forall n, sound_lt always n strict Q e.

Definition one_str (toks : list node) : Prop := exists w, toks = [Str w].
Definition no_tokens (toks : list node) : Prop := toks = [].

(** A matcher that consumes what it matches. *)
Definition consuming (re : matcher) : Prop :=
  forall s matched rest, re s = Some (matched, rest) ->
                         String.length rest < String.length s.

Definition both (Q1 Q2 : list node -> Prop) (toks : list node) : Prop :=
  exists t1 t2, toks = t1 ++ t2 /\ Q1 t1 /\ Q2 t2.

(** The tokens of a repetition: [Q] holds of the tokens of every turn. *)
Definition closed_under_app (Q : list node -> Prop) : Prop :=
  forall a b, Q a -> Q b -> Q (a ++ b).

Definition all_strs (toks : list node) : Prop :=
  Forall (fun t => exists w, t = Str w) toks.

(** What a parse action may answer. *)
Definition action_ok (Q : list node -> Prop) (r : result node) : Prop :=
  match r with
  | Return x => Q (tokens_of x)
  | Raise e => expected e \/ e = IndexError
  | Diverge => False
  end.

(** ** Shapes of the raw tree *)

Definition is_Num (x : node) : bool := match x with Num _ => true | _ => false end.
Definition is_Str (x : node) : bool := match x with Str _ => true | _ => false end.
Definition is_Fragment (x : node) : bool :=
  match x with Fragment _ _ => true | _ => false end.

(** What the body of an attention holds: quoted strings, nested groups,
    attentions and fragments. *)
Fixpoint att_item (x : node) : bool :=
  match x with
  | Str _ | Fragment _ _ => true
  | ParseResults l => forallb att_item l
  | Attention _ children =>
      match children with
      | PyList l | PyTuple l | ParseResults l => forallb att_item l
      | _ => false
      end
  | _ => false
  end.

(** An attention or a fragment. *)
Definition phrase_item (x : node) : bool :=
  (is_Attention x || is_Fragment x) && att_item x.

(** One side of a substitution: a fragment, or a group of attentions and
    fragments. *)
Definition side (x : node) : bool :=
  match x with
  | Fragment _ _ => true
  | ParseResults l => forallb phrase_item l
  | _ => false
  end.

(** A child of a raw prompt. *)
Definition raw_child (x : node) : bool :=
  match x with
  | Fragment _ _ => true
  | Attention _ _ => att_item x
  | CrossAttentionControlSubstitute o e => side o && side e
  | _ => false
  end.

Definition raw_prompt (x : node) : bool :=
  match x with
  | Prompt children =>
      match children with
      | PyList l | ParseResults l => forallb raw_child l
      | _ => false
      end
  | _ => false
  end.

Definition raw_blend (x : node) : bool :=
  match x with
  | Blend (ParseResults ps) (ParseResults ws) _ =>
      forallb raw_prompt ps && forallb is_Num ws
  | _ => false
  end.

Definition raw_branch (x : node) : bool := raw_prompt x || raw_blend x.

Definition raw_conjunction (x : node) : bool :=
  match x with
  | Conjunction ps ws => forallb raw_branch ps && forallb is_Num ws
  | _ => false
  end.

(** Token lists: exactly one token of a shape, or tokens all of a shape. *)
Definition one (P : node -> bool) (toks : list node) : Prop :=
  exists x, toks = [x] /\ P x = true.

Definition every (P : node -> bool) (toks : list node) : Prop :=
  forallb P toks = true.

Definition head_tok (x : node) : bool := is_Num x || is_Str x.

Definition att_group (x : node) : bool :=
  match x with ParseResults l => forallb att_item l | _ => false end.

Definition attention_node (x : node) : bool := is_Attention x && att_item x.

Definition fragment_list (x : node) : bool :=
  match x with
  | PyList l => forallb is_Fragment l
  | _ => false
  end.

Definition substitute_node (x : node) : bool :=
  match x with
  | CrossAttentionControlSubstitute o e => side o && side e
  | _ => false
  end.

(** A token of [prompt_part]: a child of a raw prompt, or the group of a
    quoted fragment, which [Prompt] refuses. *)
Definition part (x : node) : bool := raw_child x || side x.

Definition part_or_str (x : node) : bool := part x || is_Str x.

Definition group_of (P : node -> bool) (x : node) : bool :=
  match x with ParseResults l => forallb P l | _ => false end.

(** ** Shapes of the flattened tree *)

(** A child of a flattened prompt: a fragment, or a substitution between two
    lists of fragments. *)
Definition flat_item (x : node) : bool :=
  match x with
  | Fragment _ _ => true
  | CrossAttentionControlSubstitute (PyList o) (PyList e) =>
      forallb is_Fragment o && forallb is_Fragment e
  | _ => false
  end.

Definition flat_prompt (x : node) : bool :=
  match x with
  | FlattenedPrompt l => forallb flat_item l
  | _ => false
  end.

Definition flat_blend (x : node) : bool :=
  match x with
  | Blend (PyList ps) (ParseResults ws) _ =>
      forallb flat_prompt ps && forallb is_Num ws
      && (List.length ps =? List.length ws)
  | _ => false
  end.

Definition flat_branch (x : node) : bool := flat_prompt x || flat_blend x.

Definition flat_conjunction (x : node) : bool :=
  match x with
  | Conjunction ps ws =>
      forallb flat_branch ps && forallb is_Num ws
      && (List.length ps =? List.length ws)
  | _ => false
  end.

(** A step of the flattening engine extends the list it is given with items
    of the shape [P], or raises [ParsingException]. *)
Definition appends (P : node -> bool) (acc : list node)
  (r : result (list node)) : Prop :=
  match r with
  | Return out => exists new, out = acc ++ new /\ forallb P new = true
  | Raise e => e = ParsingException
  | Diverge => False
  end.

Definition flattens_att (n : node) : Prop :=
  att_item n = true ->
  forall ws acc, appends is_Fragment acc (flatten_internal n ws acc).

(** What [flatten] and [parse] may answer. *)
Definition flat_outcome (r : result node) : Prop :=
  match r with
  | Return c => flat_conjunction c = true
  | Raise e => e = ParsingException \/ e = ParseException
  | Diverge => False
  end.

(** No [Attention] anywhere in a tree. *)
Fixpoint no_attention (n : node) : bool :=
  match n with
  | Attention _ _ => false
  | Str _ | Num _ | Fragment _ _ => true
  | PyList l | PyTuple l | ParseResults l | FlattenedPrompt l =>
      forallb no_attention l
  | CrossAttentionControlSubstitute o e => no_attention o && no_attention e
  | CrossAttentionControlAppend f => no_attention f
  | Prompt c => no_attention c
  | Blend p w _ => no_attention p && no_attention w
  | Conjunction ps ws => forallb no_attention ps && forallb no_attention ws
  end.

Definition is_branch (x : node) : bool := is_FlattenedPrompt x || is_Blend x.

(** ** Outcomes of the flattening engine *)

(** [flatten_internal] on a tree of attentions appends its resolved leaves. *)
Definition flattens_to_leaves (n : node) : Prop :=
  attention_tree n = true ->
  forall weight_scale results,
    flatten_internal n weight_scale results
    = Return (results ++ map (resolved weight_scale) (weighted_leaves n)).


(** ** Structural equality *)

(** Two lists of the same length whose items are pairwise related. *)
Definition all2 (f : node -> node -> bool) : list node -> list node -> bool :=
  fix go (l1 l2 : list node) : bool :=
    match l1, l2 with
    | [], [] => true
    | x :: l1', y :: l2' => f x y && go l1' l2'
    | _, _ => false
    end.

(** Structural equality: the same class and equal fields, strings and
    floats compared as Python compares them. *)
Fixpoint same (a b : node) {struct a} : bool :=
  match a, b with
  | Str s, Str t => String.eqb s t
  | Num x, Num y => PrimFloat.eqb x y
  | PyList l, PyList l' => all2 same l l'
  | Fragment t w, Fragment t' w' => String.eqb t t' && PrimFloat.eqb w w'
  | CrossAttentionControlSubstitute o e, CrossAttentionControlSubstitute o' e' =>
      same o o' && same e e'
  | CrossAttentionControlAppend f, CrossAttentionControlAppend f' => same f f'
  | Prompt c, Prompt c' => same c c'
  | FlattenedPrompt l, FlattenedPrompt l' => all2 same l l'
  | Conjunction p w, Conjunction p' w' => all2 same p p' && all2 same w w'
  | _, _ => false
  end.

(** The trees on which equality is structural: strings, floats, lists and
    the classes of the module other than [Attention] and [Blend]. *)
Fixpoint plain (x : node) : bool :=
  match x with
  | Str _ | Num _ | Fragment _ _ => true
  | PyList l | FlattenedPrompt l => forallb plain l
  | CrossAttentionControlSubstitute o e => plain o && plain e
  | CrossAttentionControlAppend f => plain f
  | Prompt c => plain c
  | Conjunction ps ws => forallb plain ps && forallb plain ws
  | PyTuple _ | ParseResults _ | Attention _ _ | Blend _ _ _ => false
  end.

(** Equality is structural between [a] and any other plain tree, whichever
    operand is asked. *)
Definition structural (repr_float : float -> string) (repr_str : string -> string)
  (a : node) : Prop :=
  plain a = true ->
  forall b, plain b = true ->
    py_eq repr_float repr_str a b = Return (same a b)
    /\ py_eq_rev repr_float repr_str a b = Return (same a b).

(** ** Results of the flattening engine *)


Definition is_raw_branch (x : node) : bool := is_Prompt x || is_Blend x.

(** ** Fused lists *)

(** No fragment of the list comes right after a fragment of equal weight. *)
Fixpoint separated (l : list node) : bool :=
  match l with
  | [] => true
  | x :: rest =>
      match x, rest with
      | Fragment _ w, Fragment _ w' :: _ => negb (PrimFloat.eqb w w')
      | _, _ => true
      end && separated rest
  end.

(** The two sides of a substitute are separated lists. *)
Definition sides_separated (x : node) : bool :=
  match x with
  | CrossAttentionControlSubstitute (PyList o) (PyList e) =>
      separated o && separated e
  | _ => true
  end.

(** The text of a fragment. *)
Definition text_of (x : node) : string :=
  match x with Fragment text _ => text | _ => "" end.

(** Whether [x] may follow a list whose last item is [last]. *)
Definition may_follow (last : option node) (x : node) : bool :=
  match last, x with
  | Some (Fragment _ w), Fragment _ w' => negb (PrimFloat.eqb w w')
  | _, _ => true
  end.

(** ** Floats that equal themselves *)

(** No weight of the tree is a NaN: every float equals itself. *)
Fixpoint reflexive_floats (x : node) : bool :=
  match x with
  | Num f | Fragment _ f => PrimFloat.eqb f f
  | PyList l | FlattenedPrompt l => forallb reflexive_floats l
  | CrossAttentionControlSubstitute o e =>
      reflexive_floats o && reflexive_floats e
  | CrossAttentionControlAppend f => reflexive_floats f
  | Prompt c => reflexive_floats c
  | Conjunction ps ws =>
      forallb reflexive_floats ps && forallb reflexive_floats ws
  | _ => true
  end.

(** ** Printing *)

(** A [CrossAttentionControlAppend] occurs in the tree. *)
Fixpoint has_append (x : node) : bool :=
  match x with
  | CrossAttentionControlAppend _ => true
  | Str _ | Num _ | Fragment _ _ => false
  | PyList l | PyTuple l | ParseResults l | FlattenedPrompt l =>
      existsb has_append l
  | Attention _ c | Prompt c => has_append c
  | CrossAttentionControlSubstitute o e => has_append o || has_append e
  | Blend p w _ => has_append p || has_append w
  | Conjunction ps ws => existsb has_append ps || existsb has_append ws
  end.

(** The printed form of the items of a sequence ([show_all] in [py_show]). *)
Definition show_items (repr_float : float -> string) (repr_str : string -> string)
  (inside_results : bool) : list node -> result (list string) :=
  fix go (l : list node) : result (list string) :=
    match l with
    | [] => Return []
    | y :: l' =>
        a <- py_show repr_float repr_str (inside_results && is_ParseResults y) y ;;
        r <- go l' ;;
        Return (a :: r)
    end.

(** [x] prints, as [str] and as [repr], unless it holds a
    [CrossAttentionControlAppend]. *)
Definition prints (repr_float : float -> string) (repr_str : string -> string)
  (x : node) : Prop :=
  forall as_str,
    if has_append x
    then py_show repr_float repr_str as_str x = Raise TypeError
    else exists s, py_show repr_float repr_str as_str x = Return s.

(** ** Parts of a flattened prompt *)

(** What [FlattenedPrompt.__init__] makes of one part: a fragment of any
    kind is kept, a pair of a string and a float becomes a [Fragment]. *)
Definition upgraded (part child : node) : Prop :=
  (is_BaseFragment part = true /\ child = part)
  \/ (exists text weight more,
        part = PyTuple (Str text :: Num weight :: more)
        /\ child = Fragment text weight).

(** ** Prompts of words and weighted groups *)

(** A letter of the ASCII alphabet. *)
Definition is_letter (c : ascii) : bool :=
  let n := nat_of_ascii c in
  ((65 <=? n) && (n <=? 90)) || ((97 <=? n) && (n <=? 122)).

(** Characters that [unquoted_fragment] takes: printable, no whitespace, no
    backslash, no double quote. *)
Definition token_chars (w : string) : bool :=
  forallb unquoted_word (list_ascii_of_string w).

(** A plain word: a letter, then characters that [unquoted_fragment]
    takes. *)
Definition plain_word (w : string) : bool :=
  match w with
  | String c w' => is_letter c && token_chars w'
  | EmptyString => false
  end.

(** A bare word: a plain word without parentheses. *)
Definition bare_char (c : ascii) : bool :=
  unquoted_word c && negb (inside_attention_excluded c).

Definition bare_word (w : string) : bool :=
  match w with
  | String c w' => is_letter c && forallb bare_char (list_ascii_of_string w')
  | EmptyString => false
  end.

(** A weight as it is written: a run of digits, followed or not by a point
    and digits. *)
Definition numeral : Type := (string * option string)%type.

Definition numeral_text (x : numeral) : string :=
  match snd x with
  | None => fst x
  | Some f => (fst x ++ String "." f)%string
  end.

Definition is_numeral (x : numeral) : bool :=
  negb (is_empty (fst x)) && forallb in_nums (list_ascii_of_string (fst x))
  && match snd x with
     | None => true
     | Some f => forallb in_nums (list_ascii_of_string f)
     end.

Definition sign_char (plus_sign : bool) : ascii := if plus_sign then "+" else "-".

(** What stands before the parenthesis of a group: [n + 1] plus signs or
    minus signs, or a number. *)
Inductive head : Type :=
| by_signs (plus_sign : bool) (n : nat)
| by_number (d : numeral).

Definition head_text (h : head) : string :=
  match h with
  | by_signs p n => run (sign_char p) (S n)
  | by_number d => numeral_text d
  end.

Definition valid_head (h : head) : bool :=
  match h with
  | by_signs _ _ => true
  | by_number d => is_numeral d
  end.

(** An item of the input: a word, with no sign or with [n + 1] plus signs
    or minus signs before it, or a group of words between parentheses after
    a head, each word of the group but the first after [k + 1] blanks. *)
Inductive item : Type :=
| one_word (sign : option (bool * nat)) (w : string)
| word_group (h : head) (w : string) (ws : list (nat * string)).

Definition sign_text (sign : option (bool * nat)) : string :=
  match sign with
  | None => ""
  | Some (p, n) => run (sign_char p) (S n)
  end.

Fixpoint inner_rest (ws : list (nat * string)) : string :=
  match ws with
  | [] => ""
  | (k, w) :: rest => String " " (run " " k ++ w ++ inner_rest rest)
  end.

Definition item_text (it : item) : string :=
  match it with
  | one_word sign w => (sign_text sign ++ w)%string
  | word_group h w ws =>
      (head_text h ++ String "(" (w ++ inner_rest ws ++ ")"))%string
  end.

Definition valid_item (it : item) : bool :=
  match it with
  | one_word None w => plain_word w
  | one_word (Some _) w => bare_word w
  | word_group h w ws =>
      valid_head h && bare_word w && forallb bare_word (map snd ws)
  end.

(** What is left of the input after a word: the words that follow, each
    after one blank and [k] more, then [trail] blanks. *)
Fixpoint tail_of (trail : nat) (its : list (nat * item)) : string :=
  match its with
  | [] => run " " trail
  | (k, it) :: rest =>
      String " " (run " " k ++ item_text it ++ tail_of trail rest)
  end.

(** A word without a sign, after [k + 1] blanks. *)
Definition unsigned (kw : nat * string) : nat * item :=
  (fst kw, one_word None (snd kw)).

Definition all_valid (its : list (nat * item)) : bool :=
  forallb (fun kit => valid_item (snd kit)) its.

(** The weight a sign or a head stands for. *)
Definition sign_weight (pow : float -> nat -> float) (plus minus : float)
  (sign : option (bool * nat)) : float :=
  match sign with
  | None => 1
  | Some (p, n) => pow (if p then plus else minus) (S n)
  end.

Definition head_weight (pow : float -> nat -> float) (plus minus : float)
  (h : head) : float :=
  match h with
  | by_signs p n => pow (if p then plus else minus) (S n)
  | by_number d => PyFloat.of_string (numeral_text d)
  end.

(** The token that [prompt_part] makes of an item, and the fragments that
    [flatten_internal] makes of the token at the scale 1.0. *)
Definition item_token (pow : float -> nat -> float) (plus minus : float)
  (it : item) : node :=
  match it with
  | one_word None w => Fragment w 1
  | one_word (Some (p, n)) w =>
      Attention (sign_weight pow plus minus (Some (p, n))) (PyList [Fragment w 1])
  | word_group h w ws =>
      Attention (head_weight pow plus minus h)
                (ParseResults (map (fun w => Fragment w 1) (w :: map snd ws)))
  end.

Definition item_fragments (pow : float -> nat -> float) (plus minus : float)
  (it : item) : list node :=
  match it with
  | one_word sign w => [Fragment w (sign_weight pow plus minus sign)]
  | word_group h w ws =>
      map (fun w => Fragment w (head_weight pow plus minus h)) (w :: map snd ws)
  end.

(** What a run of signs or a number at the head of an attention is
    followed by: a letter or an opening parenthesis. *)
Definition after_head (c : ascii) : bool := is_letter c || is_char 40 c.

(** What a number is followed by: no digit and no point. *)
Definition ends_number (t : string) : bool :=
  match t with
  | String c _ => negb (in_nums c || is_char 46 c)
  | EmptyString => true
  end.

(** What a word inside a group is followed by: whitespace or a
    parenthesis. *)
Definition ends_word (t : string) : bool :=
  match t with
  | String c _ => inside_attention_excluded c
  | EmptyString => true
  end.

(** One turn of the loop of [nested_expr]: a quoted string, a nested
    group ([ret]) or the content, a list of attentions ([inner]) and of
    fragments delimited by [SPACE_CHARS]. *)
Definition group_item (ret inner : parser) : parser :=
  MatchFirst [quoted_string; ret;
              delimited_list (MatchFirst [inner; fragment_inside_attention])
                             SPACE_CHARS].

(** The 256 characters. *)
Definition all_ascii : list ascii := map ascii_of_nat (seq 0 256).

(** A match that fails with [ParseException]. *)
Definition fails {A : Type} (r : result A) : bool :=
  match r with Raise ParseException => true | _ => false end.

(** The mode of a top-level match: actions on, whitespace skipped. *)
Definition top : mode := {| doActions := true; leaveWhitespace := false |}.

(** The first character of an item of the input. *)
Definition starter (c : ascii) : bool :=
  is_letter c || Ascii.eqb c "+" || Ascii.eqb c "-" || in_nums c.

(** What follows a word: nothing or a blank first, and a word or nothing
    after the blanks. *)
Definition tail (t : string) : Prop :=
  (t = "" \/ exists r, t = String " " r)
  /\ (pre top t = "" \/ exists c r, pre top t = String c r /\ starter c = true).

Definition word_or_blank (c : ascii) : bool := unquoted_word c || Ascii.eqb c " ".

(** Some character of the string is not a space. *)
Definition has_nonspace (s : string) : bool :=
  existsb (fun c => negb (isspace c)) (list_ascii_of_string s).

(** ** Explicit conjunctions and blends *)

(** A phrase: plain words written with single blanks, the first word and
    the others. *)
Definition phrase : Type := (string * list string)%type.

Definition phrase_text (p : phrase) : string := join " " (fst p :: snd p).

Definition plain_phrase (p : phrase) : bool :=
  plain_word (fst p) && forallb plain_word (snd p).

(** The phrase between double quotes. *)
Definition quoted (p : phrase) : string :=
  String dquote (phrase_text p ++ q).

(** The prompt the grammar makes of a phrase, and the flattened prompt
    [flatten] makes of that prompt. *)
Definition phrase_prompt (p : phrase) : node :=
  Prompt (ParseResults (map (fun w => Fragment w 1) (fst p :: snd p))).

Definition phrase_flat (p : phrase) : node :=
  FlattenedPrompt [Fragment (phrase_text p) 1].

(** The entries of a list after the first: each after a comma and [k]
    blanks. *)
Fixpoint more {X : Type} (text : X -> string) (items : list (nat * X)) : string :=
  match items with
  | [] => ""
  | (k, x) :: rest => String "," (run " " k ++ text x ++ more text rest)
  end.

(** The float a weight stands for. *)
Definition weight_of (x : numeral) : node :=
  Num (PyFloat.of_string (numeral_text x)).

(** The input goes on with a comma or a closing parenthesis. *)
Definition stops (t : string) : bool :=
  match t with
  | String c _ => is_char 44 c || is_char 41 c
  | EmptyString => false
  end.

(** No tab, line feed or carriage return. *)
Definition no_tab (c : ascii) : bool :=
  let n := nat_of_ascii c in negb ((n =? 9) || (n =? 10) || (n =? 13)).

(** The quoted phrases and the weights of a list, as written between
    parentheses. *)
Definition terms_text (p : phrase) (ps : list (nat * phrase)) : string :=
  (quoted p ++ more quoted ps)%string.

Definition weights_text (d : numeral) (ds : list (nat * numeral)) : string :=
  (numeral_text d ++ more numeral_text ds)%string.

(** The elements of the grammar after the list of terms, for the method
    [name]. *)
Definition after_terms (name : string) (weights : parser) : list parser :=
  [rparen; Suppress (Literal name); lparen; weights; rparen].

(** * Properties *)

(** ** Binary64 arithmetic: 1.0 is neutral for the product *)

Lemma digits2_pos_shift (m : positive) (k : nat) :
  Zpos (digits2_pos (Nat.iter k xO m)) = (Zpos (digits2_pos m) + Z.of_nat k)%Z.
Proof.
  induction k as [|k IH]; [simpl; lia|].
  rewrite Nat2Z.inj_succ. simpl Nat.iter. simpl digits2_pos. lia.
Qed.

Lemma SFmul_one_r (sx : bool) (mx : positive) (ex : Z) :
  bounded prec emax mx ex = true ->
  SFmul prec emax (S754_finite sx mx ex)
        (S754_finite false 4503599627370496 (-52))
  = S754_finite sx mx ex.
Proof.
  intros Hb. unfold bounded in Hb. apply andb_prop in Hb as [Hc He].
  unfold canonical_mantissa in Hc. apply Z.eqb_eq in Hc.
  unfold SFmul. rewrite xorb_false_r, Pos.mul_comm.
  change (4503599627370496 * mx)%positive with (Nat.iter 52 xO mx).
  unfold binary_round_aux.
  unfold shr_fexp at 1. unfold Zdigits2.
  rewrite digits2_pos_shift.
  replace (Z.pos (digits2_pos mx) + Z.of_nat 52 + (ex + -52))%Z
    with (Z.pos (digits2_pos mx) + ex)%Z by lia.
  rewrite Hc.
  replace (ex - (ex + -52))%Z with 52%Z by lia.
  cbn -[fexp Z.add Z.sub Z.leb].
  unfold shr_fexp. cbn -[fexp Z.add Z.sub Z.leb].
  replace (ex + -52 + 52)%Z with ex by lia.
  rewrite Hc, Z.sub_diag. cbn -[Z.leb Z.sub].
  now rewrite He.
Qed.

Lemma SFmul_one_l (sx : bool) (mx : positive) (ex : Z) :
  bounded prec emax mx ex = true ->
  SFmul prec emax (S754_finite false 4503599627370496 (-52))
        (S754_finite sx mx ex)
  = S754_finite sx mx ex.
Proof.
  intros Hb. rewrite <- (SFmul_one_r sx mx ex Hb) at 2.
  unfold SFmul. now rewrite xorb_false_r, Pos.mul_comm, Z.add_comm.
Qed.


Lemma float_mul_1_l (x : float) : (1 * x)%float = x.
Proof.
  rewrite <- (SF2Prim_Prim2SF (1 * x)), mul_spec.
  rewrite <- (SF2Prim_Prim2SF x) at 2. f_equal.
  pose proof (Prim2SF_valid x) as Hv.
  change (Prim2SF 1) with (S754_finite false 4503599627370496 (-52)).
  unfold SF64mul.
  destruct (Prim2SF x) as [s|s| |s m e];
    try (destruct s; reflexivity); try reflexivity.
  now apply SFmul_one_l.
Qed.

(** ** Loops, sequences and an induction principle for nodes *)

Lemma for_each_app {A : Type} (body : node -> A -> result A)
  (l1 l2 : list node) (acc : A) :
  for_each body (l1 ++ l2) acc = bind (for_each body l1 acc) (for_each body l2).
Proof.
  revert acc. induction l1 as [|x l IH]; intros acc; simpl; [reflexivity|].
  destruct (body x acc); simpl; auto.
Qed.

Lemma for_each_collect (f : node -> list node -> result (list node))
  (g : node -> list node) (l : list node) :
  Forall (fun c => forall r, f c r = Return (r ++ g c)) l ->
  forall r, for_each f l r = Return (r ++ flat_map g l).
Proof.
  induction 1 as [|c l Hc _ IH]; intros r; simpl.
  - now rewrite app_nil_r.
  - rewrite Hc. simpl. rewrite IH. now rewrite <- app_assoc.
Qed.

Lemma for_each_check_ok (ok : node -> bool) (items : list node) :
  forallb ok items = true ->
  for_each (fun c (_ : unit) =>
              if negb (ok c) then Raise ParsingException else Return tt)
           items tt = Return tt.
Proof.
  induction items as [|x l IH]; simpl; [reflexivity|].
  intros H. apply andb_prop in H as [Hx Hl]. rewrite Hx. simpl. auto.
Qed.

Lemma for_each_check_bad (ok : node -> bool) (items : list node) :
  forallb ok items = false ->
  for_each (fun c (_ : unit) =>
              if negb (ok c) then Raise ParsingException else Return tt)
           items tt = Raise ParsingException.
Proof.
  induction items as [|x l IH]; simpl; [discriminate|].
  destruct (ok x); simpl; auto.
Qed.

Lemma map_flat_map' {A B C : Type} (f : B -> C) (g : A -> list B) (l : list A) :
  map f (flat_map g l) = flat_map (fun x => map f (g x)) l.
Proof.
  induction l as [|x l IH]; simpl; [reflexivity|].
  now rewrite map_app, IH.
Qed.

Lemma negb_and_negb (a b : bool) : negb a && negb b = negb (a || b).
Proof. destruct a, b; reflexivity. Qed.

Lemma length_chars (s : string) : List.length (chars s) = String.length s.
Proof.
  unfold chars. rewrite length_map. induction s; simpl; auto.
Qed.

Lemma py_len_iter (x : node) (items : list node) :
  py_iter x = Return items -> py_len x = Return (List.length items).
Proof.
  destruct x; simpl; intros H; try discriminate; inversion H; subst;
    try reflexivity.
  now rewrite length_chars.
Qed.


Lemma last_item_snoc (l : list node) (x : node) : last_item (l ++ [x]) = Some x.
Proof. unfold last_item. now rewrite rev_unit. Qed.

Lemma last_item_app_nonempty (p r : list node) :
  r <> [] -> last_item (p ++ r) = last_item r.
Proof.
  intros H. destruct (exists_last H) as (r' & y & ->).
  now rewrite app_assoc, !last_item_snoc.
Qed.

Section node_induction.
Variable P : node -> Prop.
Hypothesis HStr : forall s, P (Str s).
Hypothesis HNum : forall x, P (Num x).
Hypothesis HPyList : forall l, Forall P l -> P (PyList l).
Hypothesis HPyTuple : forall l, Forall P l -> P (PyTuple l).
Hypothesis HParseResults : forall l, Forall P l -> P (ParseResults l).
Hypothesis HFragment : forall t w, P (Fragment t w).
Hypothesis HAttention : forall w c, P c -> P (Attention w c).
Hypothesis HSubstitute :
  forall o e, P o -> P e -> P (CrossAttentionControlSubstitute o e).
Hypothesis HAppend : forall f, P f -> P (CrossAttentionControlAppend f).
Hypothesis HPrompt : forall c, P c -> P (Prompt c).
Hypothesis HFlattenedPrompt : forall l, Forall P l -> P (FlattenedPrompt l).
Hypothesis HBlend : forall p w b, P p -> P w -> P (Blend p w b).
Hypothesis HConjunction :
  forall p w, Forall P p -> Forall P w -> P (Conjunction p w).

Fixpoint node_induction (n : node) : P n :=
  let all := fix all (l : list node) : Forall P l :=
    match l with
    | [] => Forall_nil P
    | x :: l' => Forall_cons x (node_induction x) (all l')
    end in
  match n with
  | Str s => HStr s
  | Num x => HNum x
  | PyList l => HPyList l (all l)
  | PyTuple l => HPyTuple l (all l)
  | ParseResults l => HParseResults l (all l)
  | Fragment t w => HFragment t w
  | Attention w c => HAttention w c (node_induction c)
  | CrossAttentionControlSubstitute o e =>
      HSubstitute o e (node_induction o) (node_induction e)
  | CrossAttentionControlAppend f => HAppend f (node_induction f)
  | Prompt c => HPrompt c (node_induction c)
  | FlattenedPrompt l => HFlattenedPrompt l (all l)
  | Blend p w b => HBlend p w b (node_induction p) (node_induction w)
  | Conjunction p w => HConjunction p w (all p) (all w)
  end.
End node_induction.

(** ** Blank input (C8) *)

Lemma lstrip_all_whitespace (s : string) :
  all_whitespace s = true -> lstrip s = "".
Proof.
  unfold all_whitespace. induction s as [|c s IH]; simpl; [reflexivity|].
  intros H. apply andb_prop in H as [Hc Hs]. rewrite Hc. auto.
Qed.

Lemma strip_all_whitespace (s : string) :
  all_whitespace s = true -> strip s = "".
Proof.
  intros H. unfold strip. rewrite (lstrip_all_whitespace s H). reflexivity.
Qed.

(** C8.  For every input made of whitespace only, the empty string
    included, [parse] returns
    [Conjunction([FlattenedPrompt([Fragment('', 1.0)])], weights=[1.0])].
    The grammar is not invoked: the result is the same whatever parser
    element the attribute [root] holds. *)
Theorem parse_blank (self : PromptParser) (prompt : string) :
  all_whitespace prompt = true ->
  parse self prompt
  = Return (Conjunction [FlattenedPrompt [Fragment "" 1.0]] [Num 1.0]).
Proof.
  intros H. unfold parse. rewrite (strip_all_whitespace _ H). reflexivity.
Qed.

Lemma parse_blank_witness :
  parse {| attention_plus_base := 1.1; attention_minus_base := 0.9;
           root := fun _ _ => Diverge |} "   "
  = Return (Conjunction [FlattenedPrompt [Fragment "" 1.0]] [Num 1.0]).
Proof. apply parse_blank. reflexivity. Defined.

(** ** The constructors (C7) *)
Lemma Prompt_init_spec (parts : node) (items : list node) :
  py_iter parts = Return items ->
  Prompt_init parts
  = if forallb prompt_item items then Return (Prompt parts) else Raise ParsingException.
Proof.
  intros H. unfold Prompt_init. rewrite H. simpl.
  replace (fun (c : node) (_ : unit) =>
      if negb (is_Attention c) && negb (is_BaseFragment c)
      then Raise ParsingException else Return tt)
    with (fun (c : node) (_ : unit) =>
      if negb (prompt_item c) then @Raise unit ParsingException else Return tt).
  2:{ apply functional_extensionality. intros c.
      apply functional_extensionality. intros _.
      unfold prompt_item. rewrite negb_and_negb. reflexivity. }
  destruct (forallb prompt_item items) eqn:E.
  - rewrite for_each_check_ok by assumption. reflexivity.
  - rewrite for_each_check_bad by assumption. reflexivity.
Qed.

Lemma Blend_init_spec (prompts weights : node) (nw : bool) (items : list node) (m : nat) :
  py_iter prompts = Return items -> py_len weights = Return m ->
  Blend_init prompts weights nw
  = if negb (List.length items =? m) then Raise ParsingException
    else if forallb blend_item items then Return (Blend prompts weights nw)
    else Raise ParsingException.
Proof.
  intros Hi Hm. unfold Blend_init.
  rewrite (py_len_iter _ _ Hi), Hm. simpl.
  destruct (List.length items =? m); simpl; [|reflexivity].
  rewrite Hi. simpl.
  replace (fun (c : node) (_ : unit) =>
      if negb (is_Prompt c) && negb (is_FlattenedPrompt c)
      then Raise ParsingException else Return tt)
    with (fun (c : node) (_ : unit) =>
      if negb (blend_item c) then @Raise unit ParsingException else Return tt).
  2:{ apply functional_extensionality. intros c.
      apply functional_extensionality. intros _.
      unfold blend_item. rewrite negb_and_negb. reflexivity. }
  destruct (forallb blend_item items) eqn:E.
  - rewrite for_each_check_ok by assumption. reflexivity.
  - rewrite for_each_check_bad by assumption. reflexivity.
Qed.







(** ** Fusion of adjacent fragments (C3) *)

Lemma fuse_fragments_snoc (items : list node) (x : node) :
  fuse_fragments (items ++ [x]) = bind (fuse_fragments items) (fuse_item x).
Proof.
  unfold fuse_fragments. rewrite for_each_app. simpl.
  destruct (for_each fuse_item items []); simpl; try reflexivity.
  destruct (fuse_item x a); reflexivity.
Qed.

Lemma fuse_item_first (text : string) (weight : float) :
  fuse_item (Fragment text weight) [] = Return [Fragment text weight].
Proof. reflexivity. Qed.

Lemma fuse_item_after_fragment (res : list node) (last_text this_text : string)
  (last_weight this_weight : float) :
  fuse_item (Fragment this_text this_weight) (res ++ [Fragment last_text last_weight])
  = Return (if PrimFloat.eqb last_weight this_weight
            then res ++ [Fragment (last_text ++ " " ++ this_text) last_weight]
            else res ++ [Fragment last_text last_weight; Fragment this_text this_weight]).
Proof.
  simpl. rewrite last_item_snoc. simpl.
  destruct (PrimFloat.eqb last_weight this_weight); simpl.
  - now rewrite removelast_last.
  - now rewrite <- app_assoc.
Qed.

Lemma fuse_item_after_substitute (res : list node) (o e : node) (this_text : string)
  (this_weight : float) :
  fuse_item (Fragment this_text this_weight) (res ++ [CrossAttentionControlSubstitute o e])
  = Return (res ++ [CrossAttentionControlSubstitute o e; Fragment this_text this_weight]).
Proof.
  simpl. rewrite last_item_snoc. simpl. now rewrite <- app_assoc.
Qed.

Lemma fuse_item_substitute (res original edited : list node) :
  fuse_item (CrossAttentionControlSubstitute (PyList original) (PyList edited)) res
  = (original_fused <- fuse_fragments original ;;
     edited_fused <- fuse_fragments edited ;;
     Return (res ++ [CrossAttentionControlSubstitute (PyList original_fused)
                                                      (PyList edited_fused)])).
Proof. reflexivity. Qed.

(** The items before a substitute do not take part in what follows it. *)
Lemma fuse_item_prefix (p : list node) (o e : node) (x : node) (r : list node) :
  fuse_item x ((p ++ [CrossAttentionControlSubstitute o e]) ++ r)
  = fmap (app (p ++ [CrossAttentionControlSubstitute o e])) (fuse_item x r).
Proof.
  set (P := p ++ [CrossAttentionControlSubstitute o e]).
  assert (HP : last_item P = Some (CrossAttentionControlSubstitute o e))
    by apply last_item_snoc.
  assert (Hlw : last_weight_of (P ++ r) = last_weight_of r).
  { unfold last_weight_of. destruct r as [|y r'].
    - rewrite app_nil_r, HP. reflexivity.
    - rewrite last_item_app_nonempty by discriminate. reflexivity. }
  assert (Hrl : forall l, last_item r = Some l ->
                  last_item (P ++ r) = Some l /\
                  removelast (P ++ r) = P ++ removelast r).
  { intros l Hl. assert (r <> []) by (intro; subst; discriminate).
    split; [now rewrite last_item_app_nonempty|now apply removelast_app]. }
  unfold fmap.
  destruct x; simpl; fold (last_weight_of (P ++ r)); fold (last_weight_of r);
    try rewrite Hlw;
    try (destruct (last_weight_of r) as [[lw|]| |]; simpl; reflexivity).
  - (* Fragment *)
    destruct (last_weight_of r) as [[lw|]| |] eqn:E; simpl; try reflexivity.
    + destruct (PrimFloat.eqb lw weight); simpl.
      * unfold last_weight_of in E. destruct (last_item r) as [l|] eqn:El;
          [|discriminate].
        destruct (Hrl l eq_refl) as [H1 H2]. rewrite H1, H2.
        destruct (attr_text l); simpl; try reflexivity.
        now rewrite <- app_assoc.
      * now rewrite <- app_assoc.
    + now rewrite <- app_assoc.
  - (* substitute *)
    match goal with |- bind ?a _ = _ => destruct a; simpl; try reflexivity end.
    match goal with |- bind ?a _ = _ => destruct a; simpl; try reflexivity end.
    now rewrite <- app_assoc.
Qed.

Lemma for_each_fuse_prefix (p : list node) (o e : node) (ys r : list node) :
  for_each fuse_item ys ((p ++ [CrossAttentionControlSubstitute o e]) ++ r)
  = fmap (app (p ++ [CrossAttentionControlSubstitute o e])) (for_each fuse_item ys r).
Proof.
  revert r. induction ys as [|y ys IH]; intros r; simpl; [reflexivity|].
  rewrite fuse_item_prefix. unfold fmap.
  destruct (fuse_item y r); simpl; try reflexivity.
  apply IH.
Qed.

(** A substitute splits the buffer: what precedes it, the substitute with
    its two sides fused on their own, and what follows it, fused afresh. *)
Lemma fuse_fragments_split (xs ys original edited : list node) :
  fuse_fragments
    (xs ++ CrossAttentionControlSubstitute (PyList original) (PyList edited) :: ys)
  = (before <- fuse_fragments xs ;;
     original_fused <- fuse_fragments original ;;
     edited_fused <- fuse_fragments edited ;;
     after <- fuse_fragments ys ;;
     Return (before
             ++ [CrossAttentionControlSubstitute (PyList original_fused)
                                                 (PyList edited_fused)]
             ++ after)).
Proof.
  unfold fuse_fragments at 1. rewrite for_each_app.
  fold (fuse_fragments xs). destruct (fuse_fragments xs) as [before| |]; simpl;
    try reflexivity.
  fold (fuse_fragments original).
  destruct (fuse_fragments original) as [fo| |]; simpl; try reflexivity.
  fold (fuse_fragments edited).
  destruct (fuse_fragments edited) as [fe| |]; simpl; try reflexivity.
  rewrite <- (app_nil_r (before ++ _)).
  rewrite for_each_fuse_prefix. unfold fmap. fold (fuse_fragments ys).
  destruct (fuse_fragments ys); simpl; try reflexivity.
  now rewrite <- app_assoc.
Qed.

(** C3.  The fusion rule of one flattening buffer.  Each item is handled
    against the buffer built so far ([fuse_fragments_snoc] below, second
    part): a fragment that comes after a fragment of equal weight is merged
    into it, the text being the previous text, one space and the current
    text, under the previous weight, and is appended otherwise; a fragment
    that comes after a [CrossAttentionControlSubstitute] is appended, never
    merged; a substitute splits the buffer, the items before it, its two
    sides and the items after it being fused independently; and
    [parse('fire flames')] yields the single fragment ['fire flames'] of
    weight 1.0. *)
Theorem fusion_rule :
  (forall res last_text this_text last_weight this_weight,
      fuse_item (Fragment this_text this_weight)
                (res ++ [Fragment last_text last_weight])
      = Return (if PrimFloat.eqb last_weight this_weight
                then res ++ [Fragment (last_text ++ " " ++ this_text)
                                      last_weight]
                else res ++ [Fragment last_text last_weight;
                             Fragment this_text this_weight]))
  /\ (forall items x,
      fuse_fragments (items ++ [x])
      = bind (fuse_fragments items) (fuse_item x))
  /\ (forall res o e this_text this_weight,
      fuse_item (Fragment this_text this_weight)
                (res ++ [CrossAttentionControlSubstitute o e])
      = Return (res ++ [CrossAttentionControlSubstitute o e;
                        Fragment this_text this_weight]))
  /\ (forall xs ys original edited,
      fuse_fragments
        (xs ++ CrossAttentionControlSubstitute (PyList original)
                                               (PyList edited) :: ys)
      = (before <- fuse_fragments xs ;;
         original_fused <- fuse_fragments original ;;
         edited_fused <- fuse_fragments edited ;;
         after <- fuse_fragments ys ;;
         Return (before
                 ++ [CrossAttentionControlSubstitute (PyList original_fused)
                                                     (PyList edited_fused)]
                 ++ after)))
  /\ (forall pow,
      parse (default_parser pow) "fire flames"
      = Return (Conjunction [FlattenedPrompt [Fragment "fire flames" 1.0]]
                            [Num 1.0])).
Proof.
  split; [|split; [|split; [|split]]].
  - exact fuse_item_after_fragment.
  - exact fuse_fragments_snoc.
  - exact fuse_item_after_substitute.
  - exact fuse_fragments_split.
  - intros pow. vm_compute. reflexivity.
Qed.

(** ** Multiplicative attention weights (C2) *)

Lemma resolved_enter (w : float) (scale : float) (leaf : list float * string * float) :
  resolved scale (let '(path, text, weight) := leaf in (w :: path, text, weight))
  = resolved (scale * w)%float leaf.
Proof. destruct leaf as [[path text] weight]. reflexivity. Qed.

Lemma flatten_internal_attention_tree_items (n : node) :
  flattens_to_leaves n /\ Forall flattens_to_leaves (items_of n).
Proof.
  induction n using node_induction; simpl;
    try (split; [intros Ht; discriminate | try constructor]).
  - (* PyList *) eapply Forall_impl; [|exact H]. now intros a [Ha _].
  - (* PyTuple *) eapply Forall_impl; [|exact H]. now intros a [Ha _].
  - (* ParseResults *)
    assert (Hl : Forall flattens_to_leaves l).
    { eapply Forall_impl; [|exact H]. now intros a [Ha _]. }
    split; [|exact Hl].
    intros Ht ws results. simpl in *.
    rewrite (for_each_collect _ (fun c => map (resolved ws) (weighted_leaves c))).
    + now rewrite map_flat_map'.
    + rewrite Forall_forall in *. intros c Hc r. apply Hl; [exact Hc|].
      rewrite forallb_forall in Ht. now apply Ht.
  - (* Fragment *) split; [|constructor]. intros _ ws results. reflexivity.
  - (* Attention *)
    destruct IHn as [_ Hitems]. split; [|constructor].
    intros Ht ws results.
    assert (Hgen : forall l, Forall flattens_to_leaves l ->
             forallb attention_tree l = true ->
             for_each (fun c r => flatten_internal c (ws * w)%float r) l results
             = Return (results ++ map (resolved ws)
                         (map (fun leaf => let '(path, text, weight) := leaf in
                                           (w :: path, text, weight))
                              (flat_map weighted_leaves l)))).
    { intros l Hl Hall.
      rewrite (for_each_collect _ (fun c => map (resolved (ws * w)%float) (weighted_leaves c))).
      - f_equal. f_equal. rewrite map_map, !map_flat_map'.
        apply flat_map_ext. intros c. apply map_ext. intros leaf.
        now rewrite resolved_enter.
      - rewrite Forall_forall in *. intros c Hc r. apply Hl; [exact Hc|].
        rewrite forallb_forall in Hall. now apply Hall. }
    destruct n; try discriminate; simpl in *; now apply Hgen.
Qed.

Lemma flatten_internal_attention_tree (n : node) :
  attention_tree n = true ->
  forall weight_scale results,
    flatten_internal n weight_scale results
    = Return (results ++ map (resolved weight_scale) (weighted_leaves n)).
Proof. apply flatten_internal_attention_tree_items. Qed.

(** C2.  Attention weights compose multiplicatively with the enclosing
    scope.  For every tree of nested attentions, [flatten_internal] appends
    one fragment per leaf, in order, and the weight of each is the weight of
    the leaf times the scale multiplied by the weight of every enclosing
    [Attention], outermost first.  In particular
    [parse('fire 2.0(flames 1.5(trees))')] returns a conjunction whose one
    flattened prompt holds ['fire'] at 1.0, ['flames'] at 2.0 and ['trees']
    at 3.0. *)
Theorem attention_weights_multiply :
  (forall n,
      attention_tree n = true ->
      forall weight_scale results,
        flatten_internal n weight_scale results
        = Return (results ++ map (resolved weight_scale) (weighted_leaves n)))
  /\ (forall pow,
      parse (default_parser pow) "fire 2.0(flames 1.5(trees))"
      = Return (Conjunction
                  [FlattenedPrompt [Fragment "fire" 1.0; Fragment "flames" 2.0;
                                    Fragment "trees" 3.0]]
                  [Num 1.0])).
Proof.
  split.
  - exact flatten_internal_attention_tree.
  - intros pow. vm_compute. reflexivity.
Qed.

Lemma attention_weights_multiply_witness :
  flatten_internal
    (Attention 2.0 (ParseResults
       [Fragment "flames" 1.0;
        Attention 1.5 (ParseResults [Fragment "trees" 1.0])]))
    1.0 []
  = Return [Fragment "flames" (1.0 * (1.0 * 2.0))%float;
            Fragment "trees" (1.0 * ((1.0 * 2.0) * 1.5))%float].
Proof.
  exact (proj1 attention_weights_multiply
           (Attention 2.0 (ParseResults
              [Fragment "flames" 1.0;
               Attention 1.5 (ParseResults [Fragment "trees" 1.0])]))
           eq_refl 1.0%float []).
Defined.

(** ** Runs of signs (C5) and substitutions (C6) *)

Lemma length_run (c : ascii) (n : nat) : String.length (run c n) = n.
Proof. induction n; simpl; auto. Qed.

Lemma span_run (f : ascii -> bool) (c : ascii) (n : nat) (rest : string) :
  f c = true ->
  (forall c', starts_with c' rest = true -> f c' = false) ->
  span f (run c n ++ rest)%string = (run c n, rest).
Proof.
  intros Hc Hrest. induction n as [|n IH]; simpl.
  - destruct rest as [|c' rest']; simpl; [reflexivity|].
    rewrite (Hrest c'); [reflexivity|]. simpl. apply Ascii.eqb_refl.
  - now rewrite Hc, IH.
Qed.

Lemma is_char_eqb (n : nat) (c : ascii) : n < 256 -> is_char n c = Ascii.eqb c (ascii_of_nat n).
Proof.
  intros Hn. unfold is_char. destruct (Ascii.eqb_spec c (ascii_of_nat n)) as [->|Hne].
  - rewrite nat_ascii_embedding by assumption. apply Nat.eqb_refl.
  - apply Nat.eqb_neq. intros H. apply Hne. rewrite <- H. now rewrite ascii_nat_embedding.
Qed.

(** The head of an attention: a run of signs is one token. *)
Lemma Word_sign_run (sign : nat) (k : nat) (rest : string) (m : mode) :
  sign = 43 \/ sign = 45 ->
  starts_with (ascii_of_nat sign) rest = false ->
  Word (is_char sign) m (run (ascii_of_nat sign) (S k) ++ rest)%string
  = Return (rest, [Str (run (ascii_of_nat sign) (S k))]).
Proof.
  intros Hs Hrest. unfold Word.
  assert (Hpre : pre m (run (ascii_of_nat sign) (S k) ++ rest)%string
                 = (run (ascii_of_nat sign) (S k) ++ rest)%string).
  { unfold pre. destruct (leaveWhitespace m); [reflexivity|].
    destruct Hs as [-> | ->]; reflexivity. }
  rewrite Hpre, span_run.
  - reflexivity.
  - destruct Hs as [-> | ->]; reflexivity.
  - intros c' Hc'. rewrite is_char_eqb by (destruct Hs; subst; lia).
    destruct rest as [|c0 rest0]; [discriminate|]. simpl in *.
    apply Ascii.eqb_eq in Hc'. subst c0. exact Hrest.
Qed.

Lemma make_attention_sign (pow : float -> nat -> float) (plus minus : float)
  (c : ascii) (k : nat) (body : node) :
  make_attention pow plus minus (ParseResults [Str (run c (S k)); body])
  = Return (Attention (pow (if is_char 43 c then plus else minus) (S k)) body).
Proof.
  unfold make_attention. simpl. now rewrite length_run.
Qed.




Lemma swap_token (pow : float -> nat -> float) (plus minus : float)
  (m : mode) (s rest : string) (toks : list node) :
  doActions m = true ->
  cross_attention_substitute pow plus minus m s = Return (rest, toks) ->
  exists original edited,
    toks = [CrossAttentionControlSubstitute original edited].
Proof.
  intros Hm. unfold cross_attention_substitute, with_action.
  match goal with |- context [And ?l m s] => destruct (And l m s) as [[r t]| |] end;
    simpl; try discriminate.
  rewrite Hm. unfold make_cross_attention_substitute.
  destruct (py_getitem (ParseResults t) 0) as [x0| [] |]; simpl; try discriminate.
  destruct (py_getitem (ParseResults t) 1) as [x1| [] |]; simpl; try discriminate.
  intros H. inversion H. eauto.
Qed.

(** C6.  On the input [fire], then [flames] between double quotes, then
    [.swap(trees)], [parse] returns a conjunction of one flattened prompt
    whose children are the fragment ['fire'] at 1.0 and one
    [CrossAttentionControlSubstitute] from the list with the fragment
    ['flames'] at 1.0 to the list with the fragment ['trees'] at 1.0.  More
    generally the element [cross_attention_substitute] yields one
    [CrossAttentionControlSubstitute] token whenever it matches, and
    [flatten_internal] flattens the two sides of such a node apart, each
    from an empty list, and appends one substitute over the two results. *)
Theorem swap_builds_one_substitute :
  (forall pow,
      parse (default_parser pow)
            ("fire " ++ q ++ "flames" ++ q ++ ".swap(trees)")%string
      = Return (Conjunction
                  [FlattenedPrompt
                     [Fragment "fire" 1.0;
                      CrossAttentionControlSubstitute
                        (PyList [Fragment "flames" 1.0])
                        (PyList [Fragment "trees" 1.0])]]
                  [Num 1.0]))
  /\ (forall pow plus minus m s rest toks,
      doActions m = true ->
      cross_attention_substitute pow plus minus m s = Return (rest, toks) ->
      exists original edited,
        toks = [CrossAttentionControlSubstitute original edited])
  /\ (forall original edited weight_scale results,
      flatten_internal (CrossAttentionControlSubstitute original edited)
                       weight_scale results
      = (o <- flatten_internal original weight_scale [] ;;
         e <- flatten_internal edited weight_scale [] ;;
         Return (results ++ [CrossAttentionControlSubstitute (PyList o)
                                                             (PyList e)]))).
Proof.
  split; [|split].
  - intros pow. vm_compute. reflexivity.
  - exact swap_token.
  - reflexivity.
Qed.

Lemma swap_builds_one_substitute_witness :
  exists original edited,
    [CrossAttentionControlSubstitute (ParseResults [Fragment "flames" 1.0])
                                     (ParseResults [Fragment "trees" 1.0])]
    = [CrossAttentionControlSubstitute original edited].
Proof.
  destruct swap_builds_one_substitute as (_ & H & _).
  apply (H power 1.1%float 0.9%float
           {| doActions := true; leaveWhitespace := false |}
           "(flames).swap(trees) fire" " fire").
  - reflexivity.
  - vm_compute. reflexivity.
Defined.

(** ** Soundness of the parser elements *)

Lemma ok_result_weaken (a : bool) (b b' : bool) (Q Q' : list node -> Prop) m s r :
  ok_result a b Q m s r -> (b' = true -> b = true) ->
  (forall toks, Q toks -> Q' toks) -> ok_result a b' Q' m s r.
Proof.
  destruct r as [[rest toks]|e|]; simpl; auto.
  intros [Hl Hq] Hb HQ. split; [|auto].
  destruct b', b; try lia; discriminate (Hb eq_refl).
Qed.

Lemma sound_lt_weaken (a : bool) (n n' : nat) (b b' : bool) (Q Q' : list node -> Prop) e :
  sound_lt a n b Q e -> n' <= n -> (b' = true -> b = true) ->
  (forall toks, Q toks -> Q' toks) -> sound_lt a n' b' Q' e.
Proof.
  intros H Hn Hb HQ m s Hs. eapply ok_result_weaken; eauto. apply H. lia.
Qed.

Lemma length_preParse (s : string) : String.length (preParse s) <= String.length s.
Proof.
  induction s as [|c s IH]; simpl; [lia|].
  destruct (in_default_whitespace c); simpl; lia.
Qed.

Lemma length_pre (m : mode) (s : string) : String.length (pre m s) <= String.length s.
Proof. unfold pre. destruct (leaveWhitespace m); [lia|apply length_preParse]. Qed.

Lemma strip_prefix_length (p s rest : string) :
  strip_prefix p s = Some rest -> String.length s = String.length p + String.length rest.
Proof.
  revert s. induction p as [|a p IH]; intros s; simpl.
  - intros H. inversion H. reflexivity.
  - destruct s as [|b s]; [discriminate|].
    destruct (Ascii.eqb a b); [|discriminate]. intros H. simpl. f_equal. auto.
Qed.

Lemma span_length (f : ascii -> bool) (s a b : string) :
  span f s = (a, b) -> String.length s = String.length a + String.length b.
Proof.
  revert a b. induction s as [|c s IH]; intros a b; simpl.
  - intros H. inversion H. reflexivity.
  - destruct (f c).
    + destruct (span f s) as [a' b'] eqn:E. intros H. inversion H; subst.
      simpl. f_equal. now apply IH.
    + intros H. inversion H; subst. reflexivity.
Qed.

Lemma sound_Literal (a : bool) (lit : string) :
  lit <> "" -> sound a true one_str (Literal lit).
Proof.
  intros Hlit n m s _. unfold Literal.
  destruct (strip_prefix lit (pre m s)) as [rest|] eqn:E; simpl.
  - apply strip_prefix_length in E. pose proof (length_pre m s).
    split; [|intros _; now exists lit].
    destruct lit; [contradiction|]. simpl in E. lia.
  - now left.
Qed.

Lemma is_empty_false_length (w : string) : is_empty w = false -> 0 < String.length w.
Proof. destruct w; simpl; [discriminate|lia]. Qed.

Lemma sound_Word (a : bool) (f : ascii -> bool) : sound a true one_str (Word f).
Proof.
  intros n m s _. unfold Word.
  destruct (span f (pre m s)) as [w rest] eqn:E.
  destruct (is_empty w) eqn:Ew; simpl; [now left|].
  apply span_length in E. apply is_empty_false_length in Ew.
  pose proof (length_pre m s). split; [lia|intros _; now exists w].
Qed.

Lemma sound_CharsNotIn (a : bool) (f : ascii -> bool) : sound a true one_str (CharsNotIn f).
Proof.
  intros n m s _. unfold CharsNotIn.
  destruct (span (fun c => negb (f c)) s) as [w rest] eqn:E.
  destruct (is_empty w) eqn:Ew; simpl; [now left|].
  apply span_length in E. apply is_empty_false_length in Ew.
  split; [lia|intros _; now exists w].
Qed.

Lemma sound_StringEnd (a : bool) : sound a false no_tokens StringEnd.
Proof.
  intros n m s _. unfold StringEnd.
  destruct (is_empty (pre m s)); simpl; [|now left].
  split; [lia|reflexivity].
Qed.

Lemma sound_Regex (a : bool) (re : matcher) : consuming re -> sound a true one_str (Regex re).
Proof.
  intros Hre n m s _. unfold Regex.
  destruct (re (pre m s)) as [[matched rest]|] eqn:E; simpl; [|now left].
  apply Hre in E. pose proof (length_pre m s).
  split; [lia|intros _; now exists matched].
Qed.

Lemma sound_And_nil (a : bool) (n : nat) : sound_lt a n false no_tokens (And []).
Proof. intros m s _. simpl. split; [lia|reflexivity]. Qed.

Lemma sound_And_cons (a : bool) (n : nat) (b1 b2 : bool) (Q1 Q2 : list node -> Prop)
  (e : parser) (es : list parser) :
  sound_lt a n b1 Q1 e ->
  sound_lt a (if b1 then pred n else n) b2 Q2 (And es) ->
  sound_lt a n (b1 || b2) (both Q1 Q2) (And (e :: es)).
Proof.
  intros He Hes m s Hs. simpl.
  specialize (He m s Hs). destruct (e m s) as [[s1 toks1]|x|]; simpl in *; auto.
  destruct He as [Hl1 Hq1].
  assert (Hs1 : String.length s1 < (if b1 then pred n else n))
    by (destruct b1; lia).
  specialize (Hes m s1 Hs1).
  destruct (And es m s1) as [[s2 toks2]|x|]; simpl in *; auto.
  destruct Hes as [Hl2 Hq2]. split.
  - destruct b1, b2; simpl; lia.
  - intros Hm. exists toks1, toks2. auto.
Qed.

Lemma catches_expected (x : exn) : catches x = false -> expected x -> x = ParsingException.
Proof. intros Hc [->| ->]; [discriminate|reflexivity]. Qed.

Lemma sound_first_match (a : bool) (n : nat) (b : bool) (Q : list node -> Prop)
  (exprs : list parser) :
  Forall (sound_lt a n b Q) exprs -> sound_lt a n b Q (first_match exprs).
Proof.
  induction 1 as [|e es He _ IH]; intros m s Hs; simpl; [now left|].
  specialize (He m s Hs). destruct (e m s) as [[s1 toks1]|x|]; simpl in *; auto.
  destruct (catches x) eqn:Ec; [now apply IH|]. exact He.
Qed.

Lemma sound_MatchFirst (a : bool) (n : nat) (b : bool) (Q : list node -> Prop)
  (exprs : list parser) :
  Forall (sound_lt a n b Q) exprs -> sound_lt a n b Q (MatchFirst exprs).
Proof.
  intros H m s Hs. unfold MatchFirst. pose proof (length_pre m s) as Hp.
  assert (H' := sound_first_match a n b Q exprs H m (pre m s) ltac:(lia)).
  destruct (first_match exprs m (pre m s)) as [[s1 toks1]|x|]; simpl in *; auto.
  destruct H' as [Hl Hq]. split; [destruct b; lia|exact Hq].
Qed.

Lemma sound_Group (a : bool) (n : nat) (b : bool) (Q : list node -> Prop) (e : parser) :
  sound_lt a n b Q e ->
  sound_lt a n b (fun toks => exists l, toks = [ParseResults l] /\ Q l) (Group e).
Proof.
  intros He m s Hs. unfold Group. specialize (He m s Hs).
  destruct (e m s) as [[s1 toks1]|x|]; simpl in *; auto.
  destruct He as [Hl Hq]. split; [exact Hl|]. intros Hm. eauto.
Qed.

Lemma sound_Suppress (a : bool) (n : nat) (b : bool) (Q : list node -> Prop) (e : parser) :
  sound_lt a n b Q e -> sound_lt a n b no_tokens (Suppress e).
Proof.
  intros He m s Hs. unfold Suppress. specialize (He m s Hs).
  destruct (e m s) as [[s1 toks1]|x|]; simpl in *; auto.
  destruct He as [Hl Hq]. split; [exact Hl|]. reflexivity.
Qed.

Lemma sound_Optional (a : bool) (n : nat) (b : bool) (Q : list node -> Prop) (e : parser) :
  sound_lt a n b Q e ->
  sound_lt a n false (fun toks => Q toks \/ toks = []) (Optional e).
Proof.
  intros He m s Hs. unfold Optional. pose proof (length_pre m s) as Hp.
  specialize (He m (pre m s) ltac:(lia)).
  destruct (e m (pre m s)) as [[s1 toks1]|x|]; simpl in *; auto.
  - destruct He as [Hl Hq]. split; [destruct b; lia|auto].
  - destruct (catches x) eqn:Ec; simpl; [split; [lia|auto]|exact He].
Qed.

Lemma sound_many_loop (a : bool) (n : nat) (Q : list node -> Prop) (e : parser) :
  closed_under_app Q -> sound_lt a n true Q e ->
  forall fuel m s acc,
    String.length s < n -> String.length s < fuel ->
    (a = true \/ doActions m = true -> Q acc) ->
    ok_result a false Q m s (many_loop fuel e m s acc).
Proof.
  intros HQ He. induction fuel as [|fuel IH]; intros m s acc Hs Hf Hacc; [lia|].
  simpl. specialize (He m s Hs).
  destruct (e m s) as [[s1 toks1]|x|]; simpl in *; auto.
  - destruct He as [Hl Hq].
    apply Nat.ltb_lt in Hl as Hlb. rewrite Hlb.
    assert (H1 := IH m s1 (acc ++ toks1) ltac:(lia) ltac:(lia)
                     (fun Hm => HQ _ _ (Hacc Hm) (Hq Hm))).
    destruct (many_loop fuel e m s1 (acc ++ toks1)) as [[s2 toks2]|x|];
      simpl in *; auto.
    destruct H1 as [Hl2 Hq2]. split; [lia|exact Hq2].
  - destruct (catches x) eqn:Ec; simpl; [split; [lia|exact Hacc]|exact He].
Qed.

Arguments many_loop : simpl never.

Lemma sound_OneOrMore (a : bool) (n : nat) (Q : list node -> Prop) (e : parser) :
  closed_under_app Q -> sound_lt a n true Q e -> sound_lt a n true Q (OneOrMore e).
Proof.
  intros HQ He m s Hs. unfold OneOrMore. pose proof (length_pre m s) as Hp.
  assert (H0 := He m (pre m s) ltac:(lia)).
  destruct (e m (pre m s)) as [[s1 toks1]|x|]; simpl in *; auto.
  destruct H0 as [Hl Hq].
  assert (H1 := sound_many_loop a n Q e HQ He (S (String.length s1)) m s1 toks1
                  ltac:(lia) ltac:(lia) Hq).
  remember (S (String.length s1)) as fuel eqn:Ef. clear Ef.
  destruct (many_loop fuel e m s1 toks1) as [[s2 toks2]|x|];
    simpl in *; auto.
  destruct H1 as [Hl2 Hq2]. split; [lia|exact Hq2].
Qed.

Lemma sound_ZeroOrMore (a : bool) (n : nat) (Q : list node -> Prop) (e : parser) :
  closed_under_app Q -> Q [] -> sound_lt a n true Q e ->
  sound_lt a n false Q (ZeroOrMore e).
Proof.
  intros HQ Hnil He m s Hs. unfold ZeroOrMore.
  assert (H0 := sound_OneOrMore a n Q e HQ He m s Hs).
  destruct (OneOrMore e m s) as [[s1 toks1]|x|]; simpl in *; auto.
  - destruct H0 as [Hl Hq]. split; [lia|exact Hq].
  - destruct (catches x) eqn:Ec; simpl; [|exact H0].
    split; [apply length_pre|auto].
Qed.

Lemma as_string_strs (l : list node) :
  all_strs l ->
  exists w, as_string (ParseResults l) = Return w.
Proof.
  induction 1 as [|t l Ht _ IH]; simpl; [eauto|].
  simpl in Ht. destruct Ht as [w ->]. destruct IH as [w' IH].
  simpl in IH. rewrite IH. simpl. eauto.
Qed.

(** Under a [Combine] the inner tokens are strings whether the actions ran
    or not. *)
Lemma sound_Combine (a : bool) (n : nat) (b : bool) (e : parser) :
  sound_lt true n b all_strs e -> sound_lt a n b one_str (Combine e).
Proof.
  intros He m s Hs. unfold Combine. pose proof (length_pre m s) as Hp.
  specialize (He {| doActions := doActions m; leaveWhitespace := true |}
                 (pre m s) ltac:(lia)).
  destruct (e _ (pre m s)) as [[s1 toks1]|x|]; simpl in *; auto.
  destruct He as [Hl Hq].
  destruct (as_string_strs toks1 (Hq (or_introl eq_refl))) as [w Hw].
  simpl in Hw. rewrite Hw. simpl.
  split; [destruct b; lia|intros _; now exists w].
Qed.

Lemma sound_with_action (a : bool) (n : nat) (b : bool)
  (Q Q' : list node -> Prop) (fn : node -> result node) (e : parser) :
  sound_lt a n b Q e ->
  (forall toks, Q toks -> action_ok Q' (fn (ParseResults toks))) ->
  sound_lt false n b Q' (with_action fn e).
Proof.
  intros He Hfn m s Hs. unfold with_action. specialize (He m s Hs).
  destruct (e m s) as [[s1 toks1]|x|]; simpl in *; auto.
  destruct He as [Hl Hq].
  destruct (doActions m) eqn:Em; simpl;
    [|split; [exact Hl|intros [H|H]; congruence]].
  specialize (Hfn toks1 (Hq (or_intror eq_refl))).
  destruct (fn (ParseResults toks1)) as [r|x|]; simpl in *; auto.
  unfold expected in *.
  destruct Hfn as [[-> | ->]| ->]; simpl; unfold expected; auto.
Qed.

Lemma sound_guard (a : bool) (n : nat) (b : bool) (Q : list node -> Prop) (outer : string)
  (e : parser) :
  sound_lt a n b Q e -> n <= String.length outer -> sound_lt a n b Q (guard outer e).
Proof.
  intros He Hn m s Hs. unfold guard.
  assert (Hlt : String.length s < String.length outer) by lia.
  apply Nat.ltb_lt in Hlt. rewrite Hlt. now apply He.
Qed.

Lemma try_all_sound (a : bool) (n : nat) (b : bool) (Q : list node -> Prop)
  (exprs : list parser) (m : mode) (s : string) :
  Forall (sound_lt a n b Q) exprs -> String.length s < n ->
  match try_all exprs m s with
  | Return ms => Forall (fun x => sound_lt a n b Q (snd x)) ms
  | Raise x => expected x
  | Diverge => False
  end.
Proof.
  induction 1 as [|e es He _ IH]; intros Hs; simpl; [constructor|].
  pose proof (He {| doActions := false; leaveWhitespace := leaveWhitespace m |}
                 s Hs) as He'.
  destruct (e _ s) as [[s1 toks1]|x|]; simpl in *; auto; try contradiction.
  - specialize (IH Hs). destruct (try_all es m s); simpl; auto.
  - destruct (catches x); [now apply IH|exact He'].
Qed.

Lemma insert_match_sound (P : nat * parser -> Prop) x l :
  P x -> Forall P l -> Forall P (insert_match x l).
Proof.
  intros Hx. induction 1 as [|y l Hy Hl IH]; simpl; [auto|].
  destruct (fst x <=? fst y); auto.
Qed.

Lemma sort_matches_sound (P : nat * parser -> Prop) l :
  Forall P l -> Forall P (sort_matches l).
Proof.
  induction 1; simpl; [constructor|]. now apply insert_match_sound.
Qed.

Lemma retry_sound (a : bool) (n : nat) (b : bool) (Q : list node -> Prop)
  (m : mode) (s : string) (matches : list (nat * parser)) :
  String.length s < n ->
  Forall (fun x => sound_lt a n b Q (snd x)) matches ->
  forall longest,
    match longest with
    | Some r => ok_result a b Q m s (Return r)
    | None => True
    end ->
    ok_result a b Q m s (retry matches longest m s).
Proof.
  intros Hs. induction 1 as [|[left1 expr1] ms He _ IH]; intros longest Hl; simpl.
  - destruct longest; [exact Hl|now left].
  - match goal with |- context [if ?c then _ else _] => destruct c end.
    + destruct longest; [exact Hl|now left].
    + simpl in He. specialize (He m s Hs).
      destruct (expr1 m s) as [[s2 toks]|x|] eqn:E; simpl in *; auto.
      * destruct (String.length s2 <=? left1); [exact He|].
        apply IH.
        match goal with |- context [if ?c then _ else _] => destruct c end;
          [exact He|exact Hl].
      * destruct x; auto; apply IH; exact Hl.
Qed.

Lemma sound_Or (a : bool) (n : nat) (b : bool) (Q : list node -> Prop)
  (exprs : list parser) :
  Forall (sound_lt a n b Q) exprs -> sound_lt a n b Q (Or exprs).
Proof.
  intros H m s Hs. unfold Or. pose proof (length_pre m s) as Hp.
  assert (Hs' : String.length (pre m s) < n) by lia.
  pose proof (try_all_sound a n b Q exprs m (pre m s) H Hs') as Ht.
  destruct (try_all exprs m (pre m s)) as [ms|x|]; simpl in *; auto.
  apply (sort_matches_sound _ ms) in Ht.
  assert (Hgoal : forall r, ok_result a b Q m (pre m s) r -> ok_result a b Q m s r).
  { intros [[rest toks]|x|]; simpl; auto. intros [Hl Hq]. split; [|exact Hq].
    destruct b; lia. }
  apply Hgoal.
  destruct (sort_matches ms) as [|[left1 best] rest] eqn:E; [now left|].
  destruct (doActions m).
  - now apply (retry_sound a n).
  - inversion Ht as [|? ? Hb _]; subst. now apply Hb.
Qed.

(** ** Soundness of the grammar *)

Lemma every_app (P : node -> bool) : closed_under_app (every P).
Proof. intros x y Hx Hy. unfold every in *. now rewrite forallb_app, Hx, Hy. Qed.

Lemma one_every (P : node -> bool) (toks : list node) : one P toks -> every P toks.
Proof. intros (x & -> & H). unfold every. simpl. now rewrite H. Qed.

Lemma one_str_is_Str toks : one_str toks <-> one is_Str toks.
Proof.
  split.
  - intros [w ->]. now exists (Str w).
  - intros (x & -> & H). destruct x; try discriminate. now exists s.
Qed.

Lemma both_nil_l (Q : list node -> Prop) toks : both no_tokens Q toks -> Q toks.
Proof. intros (t1 & t2 & -> & -> & H). exact H. Qed.

Lemma both_nil_r (Q : list node -> Prop) toks : both Q no_tokens toks -> Q toks.
Proof. intros (t1 & t2 & -> & H & ->). now rewrite app_nil_r. Qed.

Lemma both_one_one (P1 P2 : node -> bool) toks :
  both (one P1) (one P2) toks ->
  exists x y, toks = [x; y] /\ P1 x = true /\ P2 y = true.
Proof.
  intros (t1 & t2 & -> & (x & -> & Hx) & (y & -> & Hy)).
  exists x, y. auto.
Qed.

Lemma sound_forall_lt a b Q e : sound a b Q e -> forall n, sound_lt a n b Q e.
Proof. auto. Qed.

Lemma consuming_match_unsigned_real (s matched rest : string) :
  match_unsigned_real s = Some (matched, rest) ->
  String.length rest < String.length s.
Proof.
  unfold match_unsigned_real.
  destruct (span in_nums s) as [d1 r1] eqn:E1. apply span_length in E1.
  destruct r1 as [|c r2]; [discriminate|].
  destruct (is_char 46 c); [|discriminate].
  destruct (span in_nums r2) as [d2 r3] eqn:E2. apply span_length in E2.
  destruct (is_empty d1 && is_empty d2); [discriminate|].
  intros H. inversion H; subst. simpl in *. lia.
Qed.

Lemma consuming_match_real : consuming match_real.
Proof.
  intros s matched rest. unfold match_real.
  destruct s as [|c s']; [discriminate|].
  destruct (is_char 43 c || is_char 45 c).
  - destruct (match_unsigned_real s') as [[t r]|] eqn:E; [|discriminate].
    apply consuming_match_unsigned_real in E.
    intros H. inversion H; subst. simpl. lia.
  - apply consuming_match_unsigned_real.
Qed.

Lemma scan_quoted_length_aux (k : nat) :
  forall s a b, String.length s <= k ->
    scan_quoted s = (a, b) -> String.length b <= String.length s.
Proof.
  induction k as [|k IHk]; intros s a b Hle.
  { destruct s; [|simpl in Hle; lia]. simpl. intros H. inversion H. simpl. lia. }
  assert (IH : forall y, String.length y < String.length s ->
                 forall a b, scan_quoted y = (a, b) ->
                             String.length b <= String.length y)
    by (intros y Hy a0 b0; apply IHk; lia).
  clear IHk. destruct s as [|c s']; simpl.
  - intros H. inversion H. simpl. lia.
  - destruct (is_char 92 c).
    + destruct s' as [|c2 s'']; [intros H; inversion H; simpl; lia|].
      destruct (is_char 10 c2); [intros H; inversion H; simpl; lia|].
      destruct (scan_quoted s'') as [a' b'] eqn:E.
      apply IH in E; [|simpl; lia]. intros H. inversion H; subst. simpl. lia.
    + destruct (is_char 34 c || is_char 10 c || is_char 13 c);
        [intros H; inversion H; simpl; lia|].
      destruct (scan_quoted s') as [a' b'] eqn:E.
      apply IH in E; [|simpl; lia]. intros H. inversion H; subst. simpl. lia.
Qed.

Lemma scan_quoted_length (s a b : string) :
  scan_quoted s = (a, b) -> String.length b <= String.length s.
Proof. now apply (scan_quoted_length_aux (String.length s)). Qed.

Lemma sound_QuotedString (a : bool) : sound a true one_str QuotedString.
Proof.
  intros n m s _. unfold QuotedString. pose proof (length_pre m s) as Hp.
  destruct (pre m s) as [|c s1]; simpl; [now left|].
  destruct (is_char 34 c); [|now left].
  destruct (scan_quoted s1) as [inner rest] eqn:E. apply scan_quoted_length in E.
  destruct rest as [|c' rest']; [now left|].
  destruct (is_char 34 c'); [|now left]. simpl in *.
  split; [lia|]. intros _. now eexists.
Qed.

Lemma scan_quoted_string_length_aux (q0 : ascii) (k : nat) :
  forall s a b, String.length s <= k ->
    scan_quoted_string q0 s = (a, b) -> String.length b <= String.length s.
Proof.
  induction k as [|k IHk]; intros s a b Hle.
  { destruct s; [|simpl in Hle; lia]. simpl. intros H. inversion H. simpl. lia. }
  assert (IH : forall y, String.length y < String.length s ->
                 forall a b, scan_quoted_string q0 y = (a, b) ->
                             String.length b <= String.length y)
    by (intros y Hy a0 b0; apply IHk; lia).
  clear IHk. destruct s as [|c s']; simpl.
  - intros H. inversion H. simpl. lia.
  - destruct (Ascii.eqb c q0).
    + destruct s' as [|c2 s'']; [intros H; inversion H; simpl; lia|].
      destruct (Ascii.eqb c2 q0); [|intros H; inversion H; simpl; lia].
      destruct (scan_quoted_string q0 s'') as [a' b'] eqn:E.
      apply IH in E; [|simpl; lia]. intros H. inversion H; subst. simpl. lia.
    + destruct (is_char 92 c).
      * destruct s' as [|c2 s'']; [intros H; inversion H; simpl; lia|].
        destruct (is_char 120 c2).
        -- destruct s'' as [|c3 s3]; [intros H; inversion H; simpl; lia|].
           destruct (is_hex c3); [|intros H; inversion H; simpl; lia].
           destruct (scan_quoted_string q0 s3) as [a' b'] eqn:E.
           apply IH in E; [|simpl; lia]. intros H. inversion H; subst. simpl. lia.
        -- destruct (scan_quoted_string q0 s'') as [a' b'] eqn:E.
           apply IH in E; [|simpl; lia]. intros H. inversion H; subst. simpl. lia.
      * destruct (is_char 10 c || is_char 13 c);
          [intros H; inversion H; simpl; lia|].
        destruct (scan_quoted_string q0 s') as [a' b'] eqn:E.
        apply IH in E; [|simpl; lia]. intros H. inversion H; subst. simpl. lia.
Qed.

Lemma scan_quoted_string_length (q0 : ascii) (s a b : string) :
  scan_quoted_string q0 s = (a, b) -> String.length b <= String.length s.
Proof. now apply (scan_quoted_string_length_aux q0 (String.length s)). Qed.

Lemma consuming_match_quoted_string (q0 : ascii) : consuming (match_quoted_string q0).
Proof.
  intros s matched rest. unfold match_quoted_string.
  destruct s as [|c s1]; [discriminate|].
  destruct (Ascii.eqb c q0); [|discriminate].
  destruct (scan_quoted_string q0 s1) as [a b] eqn:E.
  apply scan_quoted_string_length in E. intros H. inversion H; subst. simpl. lia.
Qed.

Lemma make_fragment_one_str (toks : list node) :
  one_str toks -> action_ok (one is_Fragment) (make_fragment (ParseResults toks)).
Proof. intros [w ->]. simpl. now exists (Fragment w 1). Qed.

Lemma sound_lt_shape (a : bool) (n : nat) (b b' : bool)
  (Q Q' : list node -> Prop) (e : parser) :
  sound_lt a n b Q e -> (b' = true -> b = true) ->
  (forall toks, Q toks -> Q' toks) -> sound_lt a n b' Q' e.
Proof. intros H Hb HQ. eapply sound_lt_weaken; eauto. Qed.

Lemma sound_And_strict (a : bool) (n : nat) (b2 : bool)
  (Q1 Q2 : list node -> Prop) (e : parser) (es : list parser) :
  sound_lt a n true Q1 e -> sound_lt a (pred n) b2 Q2 (And es) ->
  sound_lt a n true (both Q1 Q2) (And (e :: es)).
Proof. intros H1 H2. exact (sound_And_cons a n true b2 Q1 Q2 e es H1 H2). Qed.

Lemma sound_And_lax (a : bool) (n : nat) (b2 : bool)
  (Q1 Q2 : list node -> Prop) (e : parser) (es : list parser) :
  sound_lt a n false Q1 e -> sound_lt a n b2 Q2 (And es) ->
  sound_lt a n b2 (both Q1 Q2) (And (e :: es)).
Proof. intros H1 H2. exact (sound_And_cons a n false b2 Q1 Q2 e es H1 H2). Qed.

Lemma sound_lt_mono (a : bool) (n n' : nat) (b : bool)
  (Q : list node -> Prop) (e : parser) :
  sound_lt a n b Q e -> n' <= n -> sound_lt a n' b Q e.
Proof. intros H Hn. eapply sound_lt_weaken; eauto. Qed.

Section grammar_soundness.

Variable pow : float -> nat -> float.
Variables plus minus : float.

Lemma convert_to_float_one_str (toks : list node) :
  one_str toks -> action_ok (one is_Num) (convert_to_float (ParseResults toks)).
Proof. intros [w ->]. simpl. now eexists. Qed.

Lemma sound_number : sound false true (one is_Num) number.
Proof.
  intros n. unfold number. apply sound_MatchFirst.
  repeat constructor.
  - eapply sound_with_action;
      [apply (sound_Regex false), consuming_match_real
      |apply convert_to_float_one_str].
  - eapply sound_with_action;
      [apply (sound_Word false)|apply convert_to_float_one_str].
Qed.

Lemma one_weaken (P P' : node -> bool) toks :
  (forall x, P x = true -> P' x = true) -> one P toks -> one P' toks.
Proof. intros H (x & -> & Hx). exists x. auto. Qed.

Lemma sound_attention_head : sound false true (one head_tok) attention_head.
Proof.
  intros n. unfold attention_head. apply sound_MatchFirst.
  repeat constructor.
  - eapply sound_lt_shape; [apply sound_number|auto|].
    intros toks. apply one_weaken. intros x Hx. unfold head_tok. now rewrite Hx.
  - eapply sound_lt_shape; [apply (sound_Word false)|auto|].
    intros toks [w ->]. now exists (Str w).
  - eapply sound_lt_shape; [apply (sound_Word false)|auto|].
    intros toks [w ->]. now exists (Str w).
Qed.

Lemma sound_fragment_inside_attention :
  sound false true (one is_Fragment) fragment_inside_attention.
Proof.
  intros n. unfold fragment_inside_attention.
  eapply sound_with_action; [apply (sound_CharsNotIn false)|].
  apply make_fragment_one_str.
Qed.

Lemma sound_quoted_string (a : bool) : sound a true one_str quoted_string.
Proof.
  intros n. unfold quoted_string. apply sound_Combine.
  apply sound_MatchFirst. repeat constructor.
  - eapply sound_lt_shape;
      [eapply sound_And_strict;
         [apply sound_Regex, consuming_match_quoted_string
         |eapply sound_And_strict;
            [apply sound_Literal; discriminate|apply sound_And_nil]]
      |auto|].
    intros toks (t1 & t2 & -> & [w1 ->] & (t3 & t4 & -> & [w2 ->] & ->)).
    repeat constructor; eexists; reflexivity.
  - eapply sound_lt_shape;
      [eapply sound_And_strict;
         [apply sound_Regex, consuming_match_quoted_string
         |eapply sound_And_strict;
            [apply sound_Literal; discriminate|apply sound_And_nil]]
      |auto|].
    intros toks (t1 & t2 & -> & [w1 ->] & (t3 & t4 & -> & [w2 ->] & ->)).
    repeat constructor; eexists; reflexivity.
Qed.

Lemma sound_dbl_quoted_string (a : bool) : sound a true one_str dbl_quoted_string.
Proof.
  intros n. unfold dbl_quoted_string. apply sound_Combine.
  eapply sound_lt_shape;
    [eapply sound_And_strict;
       [apply sound_Regex, consuming_match_quoted_string
       |eapply sound_And_strict;
          [apply sound_Literal; discriminate|apply sound_And_nil]]
    |auto|].
  intros toks (t1 & t2 & -> & [w1 ->] & (t3 & t4 & -> & [w2 ->] & ->)).
  repeat constructor; eexists; reflexivity.
Qed.

Lemma sound_delimited_list (n : nat) (P : node -> bool) (expr : parser)
  (delim : string) :
  delim <> "" ->
  sound_lt false n true (every P) expr ->
  sound_lt false n true (every P) (delimited_list expr delim).
Proof.
  intros Hd He. unfold delimited_list.
  eapply sound_lt_shape;
    [eapply sound_And_strict;
       [exact He
       |eapply sound_And_lax;
          [apply (sound_ZeroOrMore false _ (every P));
             [apply every_app|reflexivity|]
          |apply sound_And_nil]]
    |auto|].
  - eapply sound_lt_shape;
      [eapply sound_And_strict;
         [eapply sound_Suppress, (sound_Literal false); exact Hd
         |eapply sound_And_strict; [|apply sound_And_nil]]
      |auto|].
    + eapply sound_lt_mono; [exact He|simpl; lia].
    + intros toks (t1 & t2 & -> & -> & (t3 & t4 & -> & H & ->)).
      simpl. now rewrite app_nil_r.
  - intros toks (t1 & t2 & -> & H1 & (t3 & t4 & -> & H3 & ->)).
    rewrite app_nil_r. now apply every_app.
Qed.

Lemma att_group_item (x : node) : att_group x = true -> att_item x = true.
Proof. destruct x; simpl; auto; discriminate. Qed.

Lemma nested_expr_fuel_S (fuel : nat) (content : parser) (m : mode) (s : string) :
  nested_expr_fuel (S fuel) content m s
  = Group (And [Suppress (Literal "(");
                ZeroOrMore (MatchFirst [quoted_string;
                                        guard s (nested_expr_fuel fuel content);
                                        content]);
                Suppress (Literal ")")]) m s.
Proof. reflexivity. Qed.

Lemma sound_nested_expr_fuel (n : nat) (content : parser) :
  sound_lt false n true (every att_item) content ->
  forall fuel,
    sound_lt false (Nat.min fuel n) true (one att_group)
             (nested_expr_fuel fuel content).
Proof.
  intros Hc. induction fuel as [|fuel IH]; intros m s Hs; [simpl in Hs; lia|].
  rewrite nested_expr_fuel_S.
  match goal with |- ok_result _ _ _ _ _ (?e m s) =>
    assert (He : sound_lt false (S (String.length s)) true (one att_group) e)
  end; [|apply He; lia].
  eapply sound_lt_shape; [apply sound_Group|auto|].
  - eapply sound_And_strict;
      [eapply sound_Suppress, (sound_Literal false); discriminate|].
    eapply sound_And_lax;
      [apply (sound_ZeroOrMore false _ (every att_item));
         [apply every_app|reflexivity|]
      |eapply sound_And_strict;
         [eapply sound_Suppress, (sound_Literal false); discriminate
         |apply sound_And_nil]].
    simpl pred. apply sound_MatchFirst. repeat constructor.
    + eapply sound_lt_shape; [apply (sound_quoted_string false)|auto|].
      intros toks [w ->]. reflexivity.
    + apply sound_guard; [|lia].
      eapply sound_lt_weaken; [apply IH|lia|auto|].
      intros toks Ht. apply one_every.
      eapply one_weaken; [|exact Ht]. apply att_group_item.
    + eapply sound_lt_mono; [exact Hc|lia].
  - intros toks (l & -> & Hl).
    destruct Hl as (t1 & t2 & -> & -> & (t3 & t4 & -> & H3 & (t5 & t6 & -> & -> & ->))).
    exists (ParseResults (t3 ++ [])). split; [reflexivity|].
    simpl. rewrite app_nil_r. exact H3.
Qed.

Lemma sound_nested_expr (n : nat) (content : parser) :
  sound_lt false n true (every att_item) content ->
  sound_lt false n true (one att_group) (nested_expr content).
Proof.
  intros Hc m s Hs. unfold nested_expr.
  apply (sound_nested_expr_fuel n content Hc (S (String.length s))). lia.
Qed.

Lemma make_attention_ok (toks : list node) :
  both (one head_tok) (both (one att_group) no_tokens) toks ->
  action_ok (one attention_node)
            (make_attention pow plus minus (ParseResults toks)).
Proof.
  intros (t1 & t2 & -> & (h & -> & Hh) & (t3 & t4 & -> & (g & -> & Hg) & ->)).
  unfold make_attention. simpl.
  destruct g; try discriminate. simpl in Hg.
  destruct h; try discriminate; simpl.
  - destruct s; simpl; [now right|].
    eexists. split; [reflexivity|]. exact Hg.
  - eexists. split; [reflexivity|]. exact Hg.
Qed.

Lemma attention_with_parens_fuel_S (fuel : nat) (m : mode) (s : string) :
  attention_with_parens_fuel pow plus minus (S fuel) m s
  = with_action (make_attention pow plus minus)
      (And [attention_head;
            nested_expr
              (delimited_list
                 (MatchFirst
                    [guard s (attention_with_parens_fuel pow plus minus fuel);
                     fragment_inside_attention])
                 SPACE_CHARS)]) m s.
Proof. reflexivity. Qed.

Lemma sound_attention_with_parens_fuel (fuel : nat) :
  sound_lt false fuel true (one attention_node)
           (attention_with_parens_fuel pow plus minus fuel).
Proof.
  induction fuel as [|fuel IH]; intros m s Hs; [lia|].
  rewrite attention_with_parens_fuel_S.
  match goal with |- ok_result _ _ _ _ _ (?e m s) =>
    assert (He : sound_lt false (S (String.length s)) true (one attention_node) e)
  end; [|apply He; lia].
  eapply sound_with_action; [|apply make_attention_ok].
  eapply sound_And_strict; [apply sound_attention_head|].
  eapply sound_And_strict; [|apply sound_And_nil].
  simpl pred. apply sound_nested_expr.
  apply sound_delimited_list; [discriminate|].
  apply sound_MatchFirst. repeat constructor.
  - apply sound_guard; [|lia].
    eapply sound_lt_weaken; [apply IH|lia|auto|].
    intros toks Ht. apply one_every. eapply one_weaken; [|exact Ht].
    intros x Hx. unfold attention_node in Hx. now apply andb_prop in Hx.
  - eapply sound_lt_shape; [apply sound_fragment_inside_attention|auto|].
    intros toks Ht. apply one_every. eapply one_weaken; [|exact Ht].
    intros x Hx. destruct x; try discriminate. reflexivity.
Qed.

Lemma sound_attention_with_parens :
  sound false true (one attention_node) (attention_with_parens pow plus minus).
Proof.
  intros n m s Hs. unfold attention_with_parens.
  apply sound_attention_with_parens_fuel. lia.
Qed.

Lemma attention_node_phrase (x : node) :
  attention_node x = true -> phrase_item x = true.
Proof.
  unfold attention_node, phrase_item. intros H. apply andb_prop in H as [H1 H2].
  now rewrite H1, H2.
Qed.

Lemma fragment_phrase (x : node) : is_Fragment x = true -> phrase_item x = true.
Proof. destruct x; try discriminate. reflexivity. Qed.

Lemma sound_attention_without_parens :
  sound false true (one attention_node)
        (attention_without_parens pow plus minus).
Proof.
  intros n. unfold attention_without_parens.
  eapply sound_with_action.
  - eapply sound_And_strict.
    + apply sound_MatchFirst. repeat constructor; apply (sound_Word false).
    + eapply sound_And_strict; [|apply sound_And_nil].
      eapply (sound_with_action false _ true one_str (one fragment_list));
        [apply (sound_CharsNotIn false)|].
      intros toks [w ->]. simpl. now eexists.
  - intros toks (t1 & t2 & -> & [w ->] & (t3 & t4 & -> & (g & -> & Hg) & ->)).
    unfold make_attention. simpl.
    destruct w; simpl; [now right|].
    destruct g; try discriminate. simpl in Hg.
    eexists. split; [reflexivity|]. unfold attention_node. simpl.
    rewrite forallb_forall in *. intros x Hx. specialize (Hg x Hx).
    destruct x; try discriminate. reflexivity.
Qed.

Lemma sound_attention :
  sound false true (one phrase_item) (attention pow plus minus).
Proof.
  intros n. unfold attention. apply sound_MatchFirst. repeat constructor.
  - eapply sound_lt_shape; [apply sound_attention_with_parens|auto|].
    intros toks. apply one_weaken, attention_node_phrase.
  - eapply sound_lt_shape; [apply sound_attention_without_parens|auto|].
    intros toks. apply one_weaken, attention_node_phrase.
Qed.

(** [parse_string] of a sound element. *)
Lemma parse_string_sound (b : bool) (Q : list node -> Prop) (e : parser)
  (s : string) :
  sound false b Q e ->
  match parse_string e s with
  | Return x => exists toks, x = ParseResults toks /\ Q toks
  | Raise x => expected x
  | Diverge => False
  end.
Proof.
  intros He. unfold parse_string.
  specialize (He (S (String.length (expandtabs s)))
                 {| doActions := true; leaveWhitespace := false |}
                 (expandtabs s) ltac:(lia)).
  destruct (e _ (expandtabs s)) as [[rest toks]|x|]; simpl in *; auto.
  destruct He as [_ Hq]. exists toks. split; [reflexivity|]. apply Hq. now right.
Qed.

Lemma sound_fragment_parser :
  sound false true (one side)
    (Group (OneOrMore
              (MatchFirst [attention pow plus minus;
                           with_action make_fragment (Word printable_word)]))).
Proof.
  intros n. eapply sound_lt_shape; [apply sound_Group|auto|].
  - apply (sound_OneOrMore false _ (every phrase_item)); [apply every_app|].
    apply sound_MatchFirst. repeat constructor.
    + eapply sound_lt_shape; [apply sound_attention|auto|]. apply one_every.
    + eapply sound_lt_shape;
        [eapply sound_with_action;
           [apply (sound_Word false)|apply make_fragment_one_str]
        |auto|].
      intros toks Ht. apply one_every. eapply one_weaken; [|exact Ht].
      apply fragment_phrase.
  - intros toks (l & -> & Hl). exists (ParseResults l). auto.
Qed.

Lemma parse_fragment_str_ok (toks : list node) :
  one_str toks ->
  action_ok (one side) (parse_fragment_str pow plus minus (ParseResults toks)).
Proof.
  intros [w ->]. unfold parse_fragment_str. simpl.
  destruct (String.length (strip w) =? 0); simpl; [now eexists|].
  pose proof (parse_string_sound true _ _ w sound_fragment_parser) as H.
  match goal with |- action_ok _ ?r => destruct r as [x|x|] end;
    simpl in *; auto.
  destruct H as (toks & -> & Ht). exact Ht.
Qed.

Lemma sound_quoted_fragment :
  sound false true (one side) (quoted_fragment pow plus minus).
Proof.
  intros n. unfold quoted_fragment.
  eapply sound_with_action;
    [apply (sound_QuotedString false)|apply parse_fragment_str_ok].
Qed.

Lemma all_strs_app : closed_under_app all_strs.
Proof. intros x y Hx Hy. apply Forall_app. now split. Qed.

Lemma one_str_all_strs toks : one_str toks -> all_strs toks.
Proof. intros [w ->]. repeat constructor. now eexists. Qed.

Lemma sound_unquoted_fragment :
  sound false true (one is_Fragment) unquoted_fragment.
Proof.
  intros n. unfold unquoted_fragment.
  eapply sound_with_action; [|apply make_fragment_one_str].
  apply (sound_Combine false).
  apply (sound_OneOrMore true _ all_strs); [apply all_strs_app|].
  apply sound_MatchFirst.
  repeat constructor;
    (eapply sound_lt_shape;
     [first [apply sound_Literal; discriminate|apply sound_Word]
     |auto|apply one_str_all_strs]).
Qed.

Lemma fragment_side (x : node) : is_Fragment x = true -> side x = true.
Proof. destruct x; try discriminate. reflexivity. Qed.

Lemma sound_lparen (a : bool) : sound a true no_tokens lparen.
Proof. intros n. eapply sound_Suppress, sound_Literal. discriminate. Qed.

Lemma sound_rparen (a : bool) : sound a true no_tokens rparen.
Proof. intros n. eapply sound_Suppress, sound_Literal. discriminate. Qed.

Lemma sound_parenthesized_fragment :
  sound false true (one side) (parenthesized_fragment pow plus minus).
Proof.
  intros n. unfold parenthesized_fragment. apply sound_Or.
  repeat constructor.
  - eapply sound_lt_shape;
      [eapply sound_And_strict;
         [apply sound_lparen
         |eapply sound_And_strict;
            [apply sound_quoted_fragment
            |eapply sound_And_strict; [apply sound_rparen|apply sound_And_nil]]]
      |auto|].
    intros toks (t1 & t2 & -> & -> & (t3 & t4 & -> & H & (t5 & t6 & -> & -> & ->))).
    simpl. now rewrite app_nil_r.
  - eapply sound_with_action.
    + eapply sound_And_strict;
        [apply (sound_lparen false)
        |eapply sound_And_strict; [apply sound_rparen|apply sound_And_nil]].
    + intros toks _. simpl. now eexists.
  - eapply sound_lt_shape;
      [eapply sound_And_strict;
         [apply sound_lparen
         |eapply sound_And_strict;
            [eapply sound_with_action; [|apply parse_fragment_str_ok]
            |eapply sound_And_strict; [apply sound_rparen|apply sound_And_nil]]]
      |auto|].
    + apply (sound_Combine false).
      apply (sound_OneOrMore true _ all_strs); [apply all_strs_app|].
      apply sound_MatchFirst.
      repeat constructor;
        (eapply sound_lt_shape;
         [first [apply sound_Literal; discriminate|apply sound_Word]
         |auto|apply one_str_all_strs]).
    + intros toks (t1 & t2 & -> & -> & (t3 & t4 & -> & H & (t5 & t6 & -> & -> & ->))).
      simpl. now rewrite app_nil_r.
Qed.

Lemma sound_empty_string :
  sound false true (one side) empty_string.
Proof.
  intros n. unfold empty_string.
  eapply sound_with_action.
  - apply sound_MatchFirst. repeat constructor.
    + eapply sound_lt_shape;
        [eapply sound_And_strict;
           [apply (sound_lparen false)
           |eapply sound_And_strict; [apply sound_rparen|apply sound_And_nil]]
        |auto|intros toks _; exact I].
    + eapply sound_lt_shape;
        [eapply sound_Suppress, (sound_Literal false); discriminate
        |auto|intros toks _; exact I].
    + eapply sound_lt_shape;
        [eapply sound_And_strict;
           [apply (sound_lparen false)
           |eapply sound_And_strict;
              [eapply sound_Suppress, (sound_Literal false); discriminate
              |eapply sound_And_strict; [apply sound_rparen|apply sound_And_nil]]]
        |auto|intros toks _; exact I].
  - intros toks _. simpl. now eexists.
Qed.

Lemma sound_original_fragment :
  sound false true (one side) (original_fragment pow plus minus).
Proof.
  intros n. unfold original_fragment. apply sound_MatchFirst.
  repeat constructor.
  - apply sound_empty_string.
  - apply sound_quoted_fragment.
  - apply sound_parenthesized_fragment.
  - eapply sound_lt_shape; [apply sound_unquoted_fragment|auto|].
    intros toks. apply one_weaken, fragment_side.
Qed.

Lemma sound_cross_attention_substitute :
  sound false true (one substitute_node)
        (cross_attention_substitute pow plus minus).
Proof.
  intros n. unfold cross_attention_substitute, edited_fragment.
  eapply sound_with_action.
  - eapply sound_And_strict; [apply sound_original_fragment|].
    eapply sound_And_strict;
      [eapply sound_Suppress, (sound_Literal false); discriminate|].
    eapply sound_And_strict;
      [apply sound_parenthesized_fragment|apply sound_And_nil].
  - intros toks (t1 & t2 & -> & (o & -> & Ho)
                 & (t3 & t4 & -> & -> & (t5 & t6 & -> & (e & -> & He) & ->))).
    simpl. eexists. split; [reflexivity|]. simpl. now rewrite Ho, He.
Qed.

Lemma sound_prompt_part :
  sound false true (one part) (prompt_part pow plus minus).
Proof.
  intros n. unfold prompt_part. apply sound_MatchFirst. repeat constructor.
  - eapply sound_lt_shape; [apply sound_cross_attention_substitute|auto|].
    intros toks. apply one_weaken. intros x Hx. unfold part.
    destruct x; try discriminate. simpl in *. now rewrite Hx.
  - eapply sound_lt_shape; [apply sound_attention|auto|].
    intros toks. apply one_weaken. intros x Hx. unfold part, phrase_item in *.
    destruct x; try discriminate; simpl in *; try reflexivity. now rewrite Hx.
  - eapply sound_lt_shape; [apply sound_quoted_fragment|auto|].
    intros toks. apply one_weaken. intros x Hx. unfold part. rewrite Hx.
    apply orb_true_r.
  - eapply sound_lt_shape; [apply sound_unquoted_fragment|auto|].
    intros toks. apply one_weaken. intros x Hx. unfold part.
    destruct x; try discriminate. reflexivity.
Qed.

Lemma sound_empty : sound false true (every part_or_str) empty.
Proof.
  intros n. unfold empty, quotes.
  assert (Hws : forall k, sound_lt false k false (every part_or_str)
                  (ZeroOrMore (Word in_string_whitespace))).
  { intros k. apply sound_ZeroOrMore; [apply every_app|reflexivity|].
    eapply sound_lt_shape; [apply (sound_Word false)|auto|].
    intros toks [w ->]. reflexivity. }
  apply sound_MatchFirst. repeat constructor.
  - eapply sound_lt_shape;
      [eapply sound_And_strict;
         [apply (sound_lparen false)
         |eapply sound_And_lax;
            [apply Hws
            |eapply sound_And_strict; [apply sound_rparen|apply sound_And_nil]]]
      |auto|].
    intros toks (t1 & t2 & -> & -> & (t3 & t4 & -> & H & (t5 & t6 & -> & -> & ->))).
    simpl. now rewrite app_nil_r.
  - eapply sound_lt_shape;
      [eapply sound_And_strict;
         [eapply sound_Suppress, (sound_Literal false); discriminate
         |eapply sound_And_lax;
            [apply Hws
            |eapply sound_And_strict;
               [eapply sound_Suppress, (sound_Literal false); discriminate
               |apply sound_And_nil]]]
      |auto|].
    intros toks (t1 & t2 & -> & -> & (t3 & t4 & -> & H & (t5 & t6 & -> & -> & ->))).
    simpl. now rewrite app_nil_r.
Qed.

Lemma raw_child_of_part (l : list node) :
  forallb part_or_str l = true -> forallb prompt_item l = true ->
  forallb raw_child l = true.
Proof.
  rewrite !forallb_forall. intros Hp Hi x Hx.
  specialize (Hp x Hx). specialize (Hi x Hx).
  unfold part_or_str, part, prompt_item in *.
  destruct x; simpl in *; rewrite ?orb_false_r in Hp; try discriminate; auto.
Qed.

Lemma prompt_action_ok (toks : list node) :
  both (one (fun g => match g with
                      | ParseResults l => forallb part_or_str l
                      | _ => false
                      end)) (both no_tokens no_tokens) toks ->
  action_ok (one raw_prompt)
            (x0 <- py_getitem (ParseResults toks) 0 ;; Prompt_init x0).
Proof.
  intros (t1 & t2 & -> & (g & -> & Hg) & (t3 & t4 & -> & -> & ->)). simpl.
  destruct g; try discriminate.
  rewrite (Prompt_init_spec (ParseResults toklist) toklist eq_refl).
  destruct (forallb prompt_item toklist) eqn:E; simpl; [|left; now right].
  eexists. split; [reflexivity|]. simpl. now apply raw_child_of_part.
Qed.

Lemma sound_prompt : sound false true (one raw_prompt) (prompt pow plus minus).
Proof.
  intros n. unfold prompt.
  eapply sound_with_action; [|apply prompt_action_ok].
  eapply sound_And_strict;
    [|eapply sound_And_lax; [apply sound_StringEnd|apply sound_And_nil]].
  eapply sound_lt_shape; [apply sound_Group|auto|].
  - apply sound_MatchFirst. repeat constructor.
    + apply (sound_OneOrMore false _ (every part_or_str)); [apply every_app|].
      eapply sound_lt_shape; [apply sound_prompt_part|auto|].
      intros toks Ht. apply one_every. eapply one_weaken; [|exact Ht].
      intros x Hx. unfold part_or_str. now rewrite Hx.
    + apply sound_empty.
  - intros toks (l & -> & Hl). eexists. split; [reflexivity|]. exact Hl.
Qed.

Lemma make_prompt_from_quoted_string_ok (toks : list node) :
  one_str toks ->
  action_ok (one raw_prompt)
            (make_prompt_from_quoted_string pow plus minus (ParseResults toks)).
Proof.
  intros [w ->]. unfold make_prompt_from_quoted_string. simpl.
  destruct (String.length (strip (drop_ends w)) =? 0);
    [eexists; split; reflexivity|].
  pose proof (parse_string_sound true _ _ (drop_ends w) sound_prompt) as H.
  match goal with |- action_ok _ (bind ?r _) => destruct r as [x|x|] end;
    simpl in *; auto.
  destruct H as (toks & -> & (p & -> & Hp)). simpl.
  destruct p; try discriminate. now eexists.
Qed.

Lemma sound_quoted_prompt :
  sound false true (one raw_prompt) (quoted_prompt pow plus minus).
Proof.
  intros n. unfold quoted_prompt.
  eapply sound_with_action;
    [apply (sound_dbl_quoted_string false)
    |apply make_prompt_from_quoted_string_ok].
Qed.

Lemma sound_blend_terms :
  sound false true (every raw_prompt) (blend_terms pow plus minus).
Proof.
  intros n. unfold blend_terms. apply sound_delimited_list; [discriminate|].
  eapply sound_lt_shape; [apply sound_quoted_prompt|auto|apply one_every].
Qed.

Lemma sound_blend_weights : sound false true (every is_Num) blend_weights.
Proof.
  intros n. unfold blend_weights. apply sound_delimited_list; [discriminate|].
  eapply sound_lt_shape; [apply sound_number|auto|apply one_every].
Qed.

Lemma sound_Group_of (n : nat) (b : bool) (P : node -> bool) (e : parser) :
  sound_lt false n b (every P) e ->
  sound_lt false n b (one (group_of P)) (Group e).
Proof.
  intros He. eapply sound_lt_shape; [apply sound_Group, He|auto|].
  intros toks (l & -> & Hl). eexists. split; [reflexivity|]. exact Hl.
Qed.

Lemma sound_blend : sound false true (one raw_blend) (blend pow plus minus).
Proof.
  intros n. unfold blend.
  eapply (sound_with_action false _ true
            (one (fun g => match g with
                           | ParseResults [a; b] =>
                               group_of raw_prompt a && group_of is_Num b
                           | _ => false
                           end))).
  - eapply sound_lt_shape; [apply sound_Group|auto|].
    + eapply sound_And_strict; [apply (sound_lparen false)|].
      eapply sound_And_strict; [apply sound_Group_of, sound_blend_terms|].
      eapply sound_And_strict; [apply sound_rparen|].
      eapply sound_And_strict;
        [eapply sound_Suppress, (sound_Literal false); discriminate|].
      eapply sound_And_strict; [apply sound_lparen|].
      eapply sound_And_strict; [apply sound_Group_of, sound_blend_weights|].
      eapply sound_And_strict; [apply sound_rparen|apply sound_And_nil].
    + intros toks (l & -> & Hl).
      destruct Hl as (t1 & t2 & -> & -> & (t3 & t4 & -> & (a & -> & Ha)
                      & (t5 & t6 & -> & -> & (t7 & t8 & -> & ->
                      & (t9 & t10 & -> & -> & (t11 & t12 & -> & (b & -> & Hb)
                      & (t13 & t14 & -> & -> & ->))))))).
      eexists. split; [reflexivity|]. simpl. now rewrite Ha, Hb.
  - intros toks (g & -> & Hg). simpl.
    destruct g as [| | | |[|a [|b [|]]]| | | | | | | |]; try discriminate.
    apply andb_prop in Hg as [Ha Hb]. simpl.
    destruct a as [| | | |ps| | | | | | | |]; try discriminate.
    destruct b as [| | | |ws| | | | | | | |]; try discriminate.
    simpl in Ha, Hb.
    rewrite (Blend_init_spec (ParseResults ps) (ParseResults ws) true ps
               (List.length ws) eq_refl eq_refl).
    destruct (negb (List.length ps =? List.length ws)); simpl; [left; now right|].
    destruct (forallb blend_item ps); simpl; [|left; now right].
    eexists. split; [reflexivity|]. simpl. now rewrite Ha, Hb.
Qed.

Lemma raw_branch_prompt_like (x : node) : raw_branch x = true -> prompt_like x = true.
Proof. destruct x; try discriminate; reflexivity. Qed.

Lemma coerce_loop_prompt_like (items acc : list node) :
  forallb prompt_like items = true -> coerce_loop items acc = Return (acc ++ items).
Proof.
  revert acc. induction items as [|x l IH]; intros acc H.
  - simpl. now rewrite app_nil_r.
  - simpl in H. apply andb_prop in H as [Hx Hl].
    unfold coerce_loop in *. simpl. unfold prompt_like in Hx. rewrite Hx. simpl.
    rewrite (IH _ Hl). now rewrite <- app_assoc.
Qed.

Lemma Conjunction_init_prompt_like (prompts : node) (weights : option node)
  (items : list node) :
  py_iter prompts = Return items ->
  forallb prompt_like items = true ->
  Conjunction_init prompts weights
  = (ws <- match weights with
           | None => Return (repeat (Num 1.0) (List.length items))
           | Some w => py_iter w
           end ;;
     if negb (List.length ws =? List.length items) then Raise ParsingException
     else Return (Conjunction items ws)).
Proof.
  intros Hi Hp. unfold Conjunction_init. rewrite Hi. simpl.
  pose proof (coerce_loop_prompt_like items [] Hp) as Hc. unfold coerce_loop in Hc.
  rewrite Hc. reflexivity.
Qed.

Lemma Conjunction_init_branches (prompts : node) (weights : option node)
  (items : list node) :
  py_iter prompts = Return items ->
  forallb raw_branch items = true ->
  Conjunction_init prompts weights
  = (ws <- match weights with
           | None => Return (repeat (Num 1.0) (List.length items))
           | Some w => py_iter w
           end ;;
     if negb (List.length ws =? List.length items) then Raise ParsingException
     else Return (Conjunction items ws)).
Proof.
  intros Hi H. apply Conjunction_init_prompt_like; [exact Hi|].
  rewrite forallb_forall in *. intros x Hx. apply raw_branch_prompt_like. auto.
Qed.

Lemma forallb_repeat (P : node -> bool) (x : node) (k : nat) :
  P x = true -> forallb P (repeat x k) = true.
Proof. intros H. induction k; simpl; [reflexivity|now rewrite H]. Qed.

Lemma forallb_weaken (P P' : node -> bool) (l : list node) :
  (forall x, P x = true -> P' x = true) ->
  forallb P l = true -> forallb P' l = true.
Proof. rewrite !forallb_forall. auto. Qed.

Lemma raw_prompt_branch (x : node) : raw_prompt x = true -> raw_branch x = true.
Proof. intros H. unfold raw_branch. now rewrite H. Qed.

Lemma raw_blend_branch (x : node) : raw_blend x = true -> raw_branch x = true.
Proof. intros H. unfold raw_branch. rewrite H. apply orb_true_r. Qed.

Lemma sound_implicit_conjunction :
  sound false true (one raw_conjunction) (implicit_conjunction pow plus minus).
Proof.
  intros n. unfold implicit_conjunction.
  eapply (sound_with_action false _ true (every raw_branch)).
  - apply sound_OneOrMore; [apply every_app|].
    apply sound_MatchFirst. repeat constructor.
    + eapply sound_lt_shape; [apply sound_blend|auto|].
      intros toks Ht. apply one_every. eapply one_weaken; [|exact Ht].
      apply raw_blend_branch.
    + eapply sound_lt_shape; [apply sound_prompt|auto|].
      intros toks Ht. apply one_every. eapply one_weaken; [|exact Ht].
      apply raw_prompt_branch.
  - intros toks Ht.
    rewrite (Conjunction_init_branches (ParseResults toks) None toks eq_refl Ht).
    simpl. rewrite repeat_length, Nat.eqb_refl. simpl.
    eexists. split; [reflexivity|]. simpl. unfold every in Ht. rewrite Ht.
    now apply forallb_repeat.
Qed.

Lemma make_conjunction_ok (toks : list node) :
  one (fun g => match g with
                | ParseResults (ParseResults ps :: rest) =>
                    forallb raw_prompt ps
                    && match rest with
                       | [] => true
                       | [ParseResults ws] => forallb is_Num ws
                       | _ => false
                       end
                | _ => false
                end) toks ->
  action_ok (one raw_conjunction) (make_conjunction (ParseResults toks)).
Proof.
  intros (g & -> & Hg). unfold make_conjunction. simpl.
  destruct g as [| | | |[|a rest]| | | | | | | |]; try discriminate.
  destruct a as [| | | |ps| | | | | | | |]; try discriminate.
  apply andb_prop in Hg as [Hps Hrest].
  assert (Hb : forallb raw_branch ps = true)
    by (eapply forallb_weaken; [apply raw_prompt_branch|exact Hps]).
  destruct rest as [|w rest].
  - simpl.
    rewrite (Conjunction_init_branches (PyList ps) _ ps eq_refl Hb).
    simpl. rewrite repeat_length, Nat.eqb_refl. simpl.
    eexists. split; [reflexivity|]. simpl. rewrite Hb.
    now apply forallb_repeat.
  - destruct w as [| | | |ws| | | | | | | |]; try discriminate.
    destruct rest; try discriminate. simpl.
    rewrite (Conjunction_init_branches (PyList ps) _ ps eq_refl Hb).
    simpl. destruct (List.length ws =? List.length ps); simpl; [|left; now right].
    eexists. split; [reflexivity|]. simpl. now rewrite Hb, Hrest.
Qed.

Lemma sound_conjunction_with_parens_and_quotes :
  sound false true (one raw_conjunction)
        (conjunction_with_parens_and_quotes pow plus minus).
Proof.
  intros n. unfold conjunction_with_parens_and_quotes.
  eapply sound_with_action; [|apply make_conjunction_ok].
  eapply sound_lt_shape; [apply sound_Group|auto|].
  - eapply sound_And_strict; [apply (sound_lparen false)|].
    eapply sound_And_strict; [apply sound_Group_of, sound_blend_terms|].
    eapply sound_And_strict; [apply sound_rparen|].
    eapply sound_And_strict;
      [eapply sound_Suppress, (sound_Literal false); discriminate|].
    eapply sound_And_strict; [apply sound_lparen|].
    eapply sound_And_lax;
      [apply (sound_Optional false _ true), sound_Group_of, sound_blend_weights|].
    eapply sound_And_strict; [apply sound_rparen|apply sound_And_nil].
  - intros toks (l & -> & Hl).
    destruct Hl as (t1 & t2 & -> & -> & (t3 & t4 & -> & (a & -> & Ha)
                    & (t5 & t6 & -> & -> & (t7 & t8 & -> & ->
                    & (t9 & t10 & -> & -> & (t11 & t12 & -> & Hw
                    & (t13 & t14 & -> & -> & ->))))))).
    eexists. split; [reflexivity|]. simpl.
    destruct a as [| | | |ps| | | | | | | |]; try discriminate.
    simpl in Ha. rewrite Ha. simpl.
    destruct Hw as [(b & -> & Hb)| ->]; [|reflexivity].
    simpl. destruct b; try discriminate. exact Hb.
Qed.

Lemma sound_conjunction :
  sound false true (one raw_conjunction) (conjunction pow plus minus).
Proof.
  intros n. unfold conjunction. apply sound_MatchFirst. repeat constructor.
  - apply sound_conjunction_with_parens_and_quotes.
  - apply sound_implicit_conjunction.
Qed.

End grammar_soundness.

(** ** The flattening engine on the raw tree *)

Lemma appends_weaken (P P' : node -> bool) (acc : list node)
  (r : result (list node)) :
  (forall x, P x = true -> P' x = true) -> appends P acc r -> appends P' acc r.
Proof.
  intros HP. destruct r as [out|e|]; simpl; auto.
  intros (new & -> & Hn). exists new. split; [reflexivity|].
  eapply forallb_weaken; eauto.
Qed.

Lemma for_each_appends (P : node -> bool)
  (f : node -> list node -> result (list node)) (l : list node) :
  Forall (fun c => forall acc, appends P acc (f c acc)) l ->
  forall acc, appends P acc (for_each f l acc).
Proof.
  induction 1 as [|c l Hc _ IH]; intros acc; simpl.
  - exists []. now rewrite app_nil_r.
  - specialize (Hc acc). destruct (f c acc) as [out|e|]; simpl in *; auto.
    destruct Hc as (new & -> & Hn). specialize (IH (acc ++ new)).
    destruct (for_each f l (acc ++ new)) as [out|e|]; simpl in *; auto.
    destruct IH as (new' & -> & Hn'). exists (new ++ new').
    now rewrite app_assoc, forallb_app, Hn, Hn'.
Qed.

Lemma for_each_flattens_att (l : list node) (ws : float) :
  Forall flattens_att l -> forallb att_item l = true ->
  forall acc,
    appends is_Fragment acc (for_each (fun c r => flatten_internal c ws r) l acc).
Proof.
  intros Hl Hall. apply for_each_appends.
  rewrite Forall_forall in *. rewrite forallb_forall in Hall.
  intros c Hc acc. apply Hl; auto.
Qed.

Lemma flatten_internal_att_items (n : node) :
  flattens_att n /\ Forall flattens_att (items_of n).
Proof.
  induction n using node_induction; simpl;
    try (split; [intros Ht; discriminate | try constructor]).
  - (* Str *) split; [|constructor]. intros _ ws acc. reflexivity.
  - (* PyList *) eapply Forall_impl; [|exact H]. now intros a [Ha _].
  - (* PyTuple *) eapply Forall_impl; [|exact H]. now intros a [Ha _].
  - (* ParseResults *)
    assert (Hl : Forall flattens_att l).
    { eapply Forall_impl; [|exact H]. now intros a [Ha _]. }
    split; [|exact Hl]. intros Ht ws acc. simpl in *.
    now apply for_each_flattens_att.
  - (* Fragment *)
    split; [|constructor]. intros _ ws acc. simpl. now eexists [_].
  - (* Attention *)
    destruct IHn as [_ Hitems]. split; [|constructor]. intros Ht ws acc.
    destruct n; try discriminate; simpl in *; now apply for_each_flattens_att.
Qed.

Lemma flatten_internal_att (n : node) (ws : float) (acc : list node) :
  att_item n = true -> appends is_Fragment acc (flatten_internal n ws acc).
Proof. intros H. now apply flatten_internal_att_items. Qed.

Lemma phrase_item_att_item (x : node) : phrase_item x = true -> att_item x = true.
Proof. unfold phrase_item. intros H. now apply andb_prop in H as [_ H]. Qed.

Lemma side_att_item (x : node) : side x = true -> att_item x = true.
Proof.
  destruct x; try discriminate; simpl; [|reflexivity].
  apply forallb_weaken, phrase_item_att_item.
Qed.

Lemma is_Fragment_flat_item (x : node) : is_Fragment x = true -> flat_item x = true.
Proof. now destruct x. Qed.

Lemma flatten_internal_raw_child (x : node) (ws : float) (acc : list node) :
  raw_child x = true -> appends flat_item acc (flatten_internal x ws acc).
Proof.
  intros H. destruct x; try discriminate.
  - simpl. now eexists [_].
  - eapply appends_weaken; [apply is_Fragment_flat_item|].
    now apply flatten_internal_att.
  - simpl in H. apply andb_prop in H as [Ho He].
    pose proof (flatten_internal_att x1 ws [] (side_att_item _ Ho)) as H1.
    pose proof (flatten_internal_att x2 ws [] (side_att_item _ He)) as H2.
    simpl.
    destruct (flatten_internal x1 ws []) as [o|e|]; simpl in *; auto.
    destruct (flatten_internal x2 ws []) as [e|e|]; simpl in *; auto.
    destruct H1 as (no & -> & Hno), H2 as (ne & -> & Hne). simpl.
    eexists [_]. split; [reflexivity|]. simpl. now rewrite Hno, Hne.
Qed.

Lemma fuse_item_fragment (t : string) (w : float) (res : list node) :
  forallb flat_item res = true ->
  exists out, fuse_item (Fragment t w) res = Return out
              /\ forallb flat_item out = true
              /\ (forallb is_Fragment res = true -> forallb is_Fragment out = true).
Proof.
  intros H. destruct res as [|y res _] using rev_ind.
  - exists [Fragment t w]. now rewrite fuse_item_first.
  - rewrite forallb_app in H. apply andb_prop in H as [Hres Hy].
    simpl in Hy. rewrite andb_true_r in Hy.
    destruct y; try discriminate.
    + rewrite fuse_item_after_fragment. eexists. split; [reflexivity|].
      destruct (PrimFloat.eqb weight w);
        rewrite !forallb_app, Hres; simpl; (split; [reflexivity|]);
        intros Hf; apply andb_prop in Hf as [-> _]; reflexivity.
    + rewrite fuse_item_after_substitute. eexists. split; [reflexivity|].
      rewrite !forallb_app, Hres. cbn [forallb]. rewrite Hy.
      split; [reflexivity|].
      intros Hf. apply andb_prop in Hf as [_ Hf]. discriminate.
Qed.

Lemma for_each_fuse_fragments (l res : list node) :
  forallb is_Fragment l = true -> forallb flat_item res = true ->
  exists out, for_each fuse_item l res = Return out
              /\ forallb flat_item out = true
              /\ (forallb is_Fragment res = true -> forallb is_Fragment out = true).
Proof.
  revert res. induction l as [|x l IH]; intros res Hl Hres.
  - exists res. auto.
  - simpl in Hl. apply andb_prop in Hl as [Hx Hl].
    destruct x; try discriminate.
    destruct (fuse_item_fragment text weight res Hres) as (out & Ho & Hf & Hff).
    destruct (IH out Hl Hf) as (out' & Ho' & Hf' & Hff').
    exists out'. change (for_each fuse_item (Fragment text weight :: l) res)
      with (bind (fuse_item (Fragment text weight) res) (for_each fuse_item l)).
    rewrite Ho. simpl. auto.
Qed.

Lemma fuse_fragments_fragments (l : list node) :
  forallb is_Fragment l = true ->
  exists out, fuse_fragments l = Return out /\ forallb is_Fragment out = true.
Proof.
  intros H. destruct (for_each_fuse_fragments l [] H eq_refl) as (out & Ho & _ & Hf).
  exists out. auto.
Qed.

Lemma fuse_item_flat (x : node) (res : list node) :
  flat_item x = true -> forallb flat_item res = true ->
  exists out, fuse_item x res = Return out /\ forallb flat_item out = true.
Proof.
  intros Hx Hres. destruct x; try discriminate.
  - destruct (fuse_item_fragment text weight res Hres) as (out & Ho & Hf & _).
    eauto.
  - destruct x1; try discriminate. destruct x2; try discriminate.
    simpl in Hx. apply andb_prop in Hx as [Ho He].
    destruct (fuse_fragments_fragments _ Ho) as (o' & Ho' & Hfo).
    destruct (fuse_fragments_fragments _ He) as (e' & He' & Hfe).
    rewrite fuse_item_substitute, Ho', He'. simpl.
    eexists. split; [reflexivity|].
    rewrite forallb_app, Hres. simpl. now rewrite Hfo, Hfe.
Qed.

Lemma for_each_fuse_flat (l res : list node) :
  forallb flat_item l = true -> forallb flat_item res = true ->
  exists out, for_each fuse_item l res = Return out /\ forallb flat_item out = true.
Proof.
  revert res. induction l as [|x l IH]; intros res Hl Hres.
  - exists res. auto.
  - simpl in Hl. apply andb_prop in Hl as [Hx Hl].
    destruct (fuse_item_flat x res Hx Hres) as (out & Ho & Hf).
    destruct (IH out Hl Hf) as (out' & Ho' & Hf').
    exists out'. change (for_each fuse_item (x :: l) res)
      with (bind (fuse_item x res) (for_each fuse_item l)).
    rewrite Ho. simpl. auto.
Qed.

Lemma FlattenedPrompt_init_flat (l : list node) :
  forallb flat_item l = true ->
  FlattenedPrompt_init l = Return (FlattenedPrompt l).
Proof.
  intros H. unfold FlattenedPrompt_init.
  match goal with |- bind (for_each ?f l []) _ = _ =>
    assert (Hl : forall acc, for_each f l acc = Return (acc ++ l)) end.
  { induction l as [|x l IH]; intros acc; simpl.
    - now rewrite app_nil_r.
    - simpl in H. apply andb_prop in H as [Hx Hl].
      assert (Hb : is_BaseFragment x = true) by (destruct x; try discriminate; reflexivity).
      rewrite Hb. simpl. rewrite (IH Hl). now rewrite <- app_assoc. }
  rewrite Hl. reflexivity.
Qed.

Lemma flatten_internal_raw_prompt (x : node) (ws : float) (acc : list node) :
  raw_prompt x = true -> appends flat_prompt acc (flatten_internal x ws acc).
Proof.
  intros H. destruct x; try discriminate. simpl in H.
  assert (Hgen : forall l, forallb raw_child l = true ->
            appends flat_prompt acc
              (flattened_prompt <-
                 for_each (fun c r => flatten_internal c ws r) l [] ;;
               fused <- fuse_fragments flattened_prompt ;;
               p <- FlattenedPrompt_init fused ;;
               Return (acc ++ [p]))).
  { intros l Hl.
    assert (Hf : appends flat_item []
                   (for_each (fun c r => flatten_internal c ws r) l [])).
    { apply for_each_appends. rewrite Forall_forall.
      rewrite forallb_forall in Hl. intros c Hc r.
      apply flatten_internal_raw_child. auto. }
    destruct (for_each _ l []) as [out|e|]; simpl in *; auto.
    destruct Hf as (new & -> & Hnew). simpl.
    destruct (for_each_fuse_flat new [] Hnew eq_refl) as (fused & Hfu & Hff).
    unfold fuse_fragments. rewrite Hfu. simpl.
    rewrite (FlattenedPrompt_init_flat _ Hff). simpl.
    eexists [_]. split; [reflexivity|]. simpl. now rewrite Hff. }
  destruct x; try discriminate; simpl; now apply Hgen.
Qed.

Lemma flat_prompt_blend_item (x : node) : flat_prompt x = true -> blend_item x = true.
Proof. now destruct x. Qed.

Lemma flatten_internal_raw_blend (x : node) (ws : float) (acc : list node) :
  raw_blend x = true -> appends flat_blend acc (flatten_internal x ws acc).
Proof.
  intros H. destruct x; try discriminate.
  destruct x1; try discriminate. destruct x2; try discriminate.
  simpl in H. apply andb_prop in H as [Hps Hws]. simpl.
  assert (Hf : appends flat_prompt []
                 (for_each (fun c r => flatten_internal c ws r) toklist [])).
  { apply for_each_appends. rewrite Forall_forall.
    rewrite forallb_forall in Hps. intros c Hc r.
    apply flatten_internal_raw_prompt. auto. }
  destruct (for_each _ toklist []) as [out|e|]; simpl in *; auto.
  destruct Hf as (new & -> & Hnew). simpl.
  rewrite (Blend_init_spec (PyList new) (ParseResults toklist0) true new
             (List.length toklist0) eq_refl eq_refl).
  destruct (List.length new =? List.length toklist0) eqn:El; simpl; [|reflexivity].
  rewrite (forallb_weaken _ _ _ flat_prompt_blend_item Hnew). simpl.
  eexists [_]. split; [reflexivity|]. simpl. now rewrite Hnew, Hws, El.
Qed.

Lemma flatten_internal_raw_branch (x : node) (ws : float) (acc : list node) :
  raw_branch x = true -> appends flat_branch acc (flatten_internal x ws acc).
Proof.
  unfold raw_branch. intros H. apply orb_prop in H as [H|H].
  - eapply appends_weaken; [|now apply flatten_internal_raw_prompt].
    intros y Hy. unfold flat_branch. now rewrite Hy.
  - eapply appends_weaken; [|now apply flatten_internal_raw_blend].
    intros y Hy. unfold flat_branch. rewrite Hy. apply orb_true_r.
Qed.

Lemma flat_branch_prompt_like (x : node) : flat_branch x = true -> prompt_like x = true.
Proof. destruct x; try discriminate; reflexivity. Qed.

Lemma flatten_raw_conjunction (c : node) :
  raw_conjunction c = true ->
  match flatten c with
  | Return c' => flat_conjunction c' = true
  | Raise e => e = ParsingException
  | Diverge => False
  end.
Proof.
  intros H. destruct c; try discriminate. simpl in H.
  apply andb_prop in H as [Hps Hws]. unfold flatten.
  match goal with |- match bind (for_each ?f prompts []) _ with _ => _ end =>
    assert (Hf : appends flat_branch [] (for_each f prompts [])) end.
  { apply for_each_appends. rewrite Forall_forall.
    rewrite forallb_forall in Hps. intros x Hx acc.
    pose proof (flatten_internal_raw_branch x 1 [] (Hps x Hx)) as Hb.
    destruct (flatten_internal x 1 []) as [out|e|]; simpl in *; auto.
    destruct Hb as (new & -> & Hnew). now exists new. }
  destruct (for_each _ prompts []) as [out|e|]; simpl in *; auto.
  destruct Hf as (new & -> & Hnew). simpl.
  rewrite (Conjunction_init_prompt_like (PyList new) _ new eq_refl
             (forallb_weaken _ _ _ flat_branch_prompt_like Hnew)).
  simpl. destruct (List.length weights =? List.length new) eqn:El; simpl;
    [|reflexivity].
  rewrite Hnew, Hws. simpl. now rewrite Nat.eqb_sym.
Qed.

(** Every call of [parse] returns a flat conjunction or raises one of two
    exceptions. *)
Lemma parse_outcome (pow : float -> nat -> float) (plus minus : float) (s : string) :
  flat_outcome (parse (PromptParser_init pow plus minus) s).
Proof.
  unfold parse. destruct (String.length (strip s) =? 0); [reflexivity|].
  simpl root.
  pose proof (parse_string_sound true _ _ s (sound_conjunction pow plus minus)) as H.
  unfold build_parser_logic.
  destruct (parse_string (conjunction pow plus minus) s) as [x|e|]; simpl in *.
  - destruct H as (toks & -> & (c & -> & Hc)). simpl.
    pose proof (flatten_raw_conjunction c Hc) as Hf.
    destruct (flatten c); simpl in *; auto.
  - destruct H; auto.
  - exact H.
Qed.

(** ** The answers of [parse] (C4, C1) *)

Lemma is_Fragment_no_attention (x : node) : is_Fragment x = true -> no_attention x = true.
Proof. now destruct x. Qed.

Lemma is_Num_no_attention (x : node) : is_Num x = true -> no_attention x = true.
Proof. now destruct x. Qed.

Lemma flat_item_no_attention (x : node) : flat_item x = true -> no_attention x = true.
Proof.
  destruct x; try discriminate; [reflexivity|].
  destruct x1; try discriminate. destruct x2; try discriminate. simpl.
  intros H. apply andb_prop in H as [Ho He].
  now rewrite (forallb_weaken _ _ _ is_Fragment_no_attention Ho),
              (forallb_weaken _ _ _ is_Fragment_no_attention He).
Qed.

Lemma flat_prompt_no_attention (x : node) : flat_prompt x = true -> no_attention x = true.
Proof.
  destruct x; try discriminate. simpl.
  apply forallb_weaken, flat_item_no_attention.
Qed.

Lemma flat_branch_no_attention (x : node) : flat_branch x = true -> no_attention x = true.
Proof.
  unfold flat_branch. intros H. apply orb_prop in H as [H|H].
  - now apply flat_prompt_no_attention.
  - destruct x; try discriminate. destruct x1; try discriminate.
    destruct x2; try discriminate. simpl in *.
    apply andb_prop in H as [H _]. apply andb_prop in H as [Hp Hw].
    now rewrite (forallb_weaken _ _ _ flat_prompt_no_attention Hp),
                (forallb_weaken _ _ _ is_Num_no_attention Hw).
Qed.

Lemma flat_branch_is_branch (x : node) : flat_branch x = true -> is_branch x = true.
Proof. destruct x; try discriminate; reflexivity. Qed.

Lemma flat_conjunction_no_attention (c : node) :
  flat_conjunction c = true -> no_attention c = true.
Proof.
  destruct c; try discriminate. simpl. intros H.
  apply andb_prop in H as [H _]. apply andb_prop in H as [Hp Hw].
  now rewrite (forallb_weaken _ _ _ flat_branch_no_attention Hp),
              (forallb_weaken _ _ _ is_Num_no_attention Hw).
Qed.

(** C4.  Every tree that [parse] returns is a [Conjunction] whose branches
    are [FlattenedPrompt] and [Blend] nodes only.  The children of every
    [FlattenedPrompt], in a branch or inside a [Blend], are [Fragment] and
    [CrossAttentionControlSubstitute] nodes, a substitute holding two lists
    of fragments (this is [flat_conjunction]), and no [Attention] occurs
    anywhere in the tree. *)
Theorem parse_returns_flat_tree (pow : float -> nat -> float) (s : string) (c : node) :
  parse (default_parser pow) s = Return c ->
  (exists prompts weights,
      c = Conjunction prompts weights /\ forallb is_branch prompts = true)
  /\ flat_conjunction c = true
  /\ no_attention c = true.
Proof.
  intros H. pose proof (parse_outcome pow 1.1 0.9 s) as Ho.
  unfold default_parser in H. rewrite H in Ho. simpl in Ho.
  split; [|split; [exact Ho|now apply flat_conjunction_no_attention]].
  destruct c; try discriminate. exists prompts, weights. split; [reflexivity|].
  simpl in Ho. apply andb_prop in Ho as [Ho _]. apply andb_prop in Ho as [Hp _].
  exact (forallb_weaken _ _ _ flat_branch_is_branch Hp).
Qed.

Lemma parse_returns_flat_tree_witness :
  (exists prompts weights,
      Conjunction [FlattenedPrompt [Fragment "fire" 1.0; Fragment "flames" 2.0;
                                    Fragment "trees" 3.0]] [Num 1.0]
      = Conjunction prompts weights /\ forallb is_branch prompts = true)
  /\ flat_conjunction
       (Conjunction [FlattenedPrompt [Fragment "fire" 1.0; Fragment "flames" 2.0;
                                      Fragment "trees" 3.0]] [Num 1.0]) = true
  /\ no_attention
       (Conjunction [FlattenedPrompt [Fragment "fire" 1.0; Fragment "flames" 2.0;
                                      Fragment "trees" 3.0]] [Num 1.0]) = true.
Proof.
  apply (parse_returns_flat_tree power "fire 2.0(flames 1.5(trees))").
  vm_compute. reflexivity.
Defined.



(** ** Flattening what is flat already (C9) *)
















(** ** Equality (C10) *)

Lemma SFeqb_sym (x y : SpecFloat.spec_float) :
  SpecFloat.SFeqb x y = SpecFloat.SFeqb y x.
Proof.
  unfold SpecFloat.SFeqb, SpecFloat.SFcompare.
  destruct x as [[]|[]| |[] m1 e1], y as [[]|[]| |[] m2 e2]; try reflexivity.
  - rewrite (Z.compare_antisym e1 e2). destruct (e1 ?= e2)%Z; simpl; try reflexivity.
    rewrite !Pos.compare_cont_spec. simpl.
    rewrite (Pos.compare_antisym m1 m2). now destruct (m1 ?= m2)%positive.
  - rewrite (Z.compare_antisym e1 e2). destruct (e1 ?= e2)%Z; simpl; try reflexivity.
    rewrite !Pos.compare_cont_spec. simpl.
    rewrite (Pos.compare_antisym m1 m2). now destruct (m1 ?= m2)%positive.
Qed.

Lemma float_eqb_sym (x y : float) : PrimFloat.eqb x y = PrimFloat.eqb y x.
Proof. rewrite !eqb_spec. apply SFeqb_sym. Qed.

Section equality_is_structural.

Variable repr_float : float -> string.
Variable repr_str : string -> string.

Lemma all2_length (f : node -> node -> bool) (l l' : list node) :
  List.length l <> List.length l' -> all2 f l l' = false.
Proof.
  revert l'. induction l as [|x l IH]; intros [|y l'] H; simpl in *;
    try reflexivity; try congruence.
  rewrite IH by congruence. apply andb_false_r.
Qed.

Lemma list_eq_structural (f : node -> node -> result bool) (l l' : list node) :
  Forall (fun x => forall y, plain y = true -> f x y = Return (same x y)) l ->
  forallb plain l' = true ->
  list_eq f l l' = Return (all2 same l l').
Proof.
  intros Hl Hl'. unfold list_eq.
  destruct (List.length l =? List.length l') eqn:E; simpl.
  - revert l' E Hl'. induction l as [|x l IH]; intros [|y l'] E Hl';
      simpl; try reflexivity; try discriminate E.
    simpl in Hl', E. apply andb_prop in Hl' as [Hy Hl'].
    inversion Hl as [|x0 l0 Hx Hl0]; subst.
    rewrite (Hx y Hy). simpl. destruct (same x y); simpl; [|reflexivity].
    now apply IH.
  - apply Nat.eqb_neq in E. now rewrite all2_length.
Qed.

Lemma structural_all (a : node) : structural repr_float repr_str a.
Proof.
  induction a using node_induction; intros Ha; try discriminate; intros b Hb.
  - (* Str *)
    destruct b; try discriminate; simpl; auto. now rewrite String.eqb_sym.
  - (* Num *)
    destruct b; try discriminate; simpl; auto. now rewrite float_eqb_sym.
  - (* PyList *)
    simpl in Ha.
    assert (H1 : Forall (fun x => forall y, plain y = true ->
                           py_eq repr_float repr_str x y = Return (same x y)) l).
    { rewrite Forall_forall in *. rewrite forallb_forall in Ha.
      intros x Hx y Hy. now apply H; auto. }
    assert (H2 : Forall (fun x => forall y, plain y = true ->
                           py_eq_rev repr_float repr_str x y = Return (same x y)) l).
    { rewrite Forall_forall in *. rewrite forallb_forall in Ha.
      intros x Hx y Hy. now apply H; auto. }
    destruct b; try discriminate; simpl; auto. simpl in Hb.
    split; now apply list_eq_structural.
  - (* Fragment *)
    destruct b; try discriminate; simpl; auto.
    split; [|reflexivity]. now rewrite String.eqb_sym, float_eqb_sym.
  - (* CrossAttentionControlSubstitute *)
    simpl in Ha. apply andb_prop in Ha as [Ho He].
    destruct b; try discriminate; simpl; auto.
    simpl in Hb. apply andb_prop in Hb as [Ho' He'].
    destruct (IHa1 Ho b1 Ho') as [E1 R1], (IHa2 He b2 He') as [E2 R2].
    rewrite E1, R1. simpl. destruct (same a1 b1); simpl; auto.
  - (* CrossAttentionControlAppend *)
    simpl in Ha. destruct b; try discriminate; simpl; auto.
    simpl in Hb. destruct (IHa Ha b Hb). auto.
  - (* Prompt *)
    simpl in Ha. destruct b; try discriminate; simpl; auto.
    simpl in Hb. destruct (IHa Ha b Hb). auto.
  - (* FlattenedPrompt *)
    simpl in Ha.
    assert (H1 : Forall (fun x => forall y, plain y = true ->
                           py_eq repr_float repr_str x y = Return (same x y)) l).
    { rewrite Forall_forall in *. rewrite forallb_forall in Ha.
      intros x Hx y Hy. now apply H; auto. }
    assert (H2 : Forall (fun x => forall y, plain y = true ->
                           py_eq_rev repr_float repr_str x y = Return (same x y)) l).
    { rewrite Forall_forall in *. rewrite forallb_forall in Ha.
      intros x Hx y Hy. now apply H; auto. }
    destruct b; try discriminate; simpl; auto. simpl in Hb.
    split; now apply list_eq_structural.
  - (* Conjunction *)
    simpl in Ha. apply andb_prop in Ha as [Hp Hw].
    assert (A : forall l, Forall (structural repr_float repr_str) l -> forallb plain l = true ->
              Forall (fun x => forall y, plain y = true ->
                        py_eq repr_float repr_str x y = Return (same x y)) l
              /\ Forall (fun x => forall y, plain y = true ->
                           py_eq_rev repr_float repr_str x y = Return (same x y)) l).
    { intros l Hl Hpl. rewrite !Forall_forall in *. rewrite forallb_forall in Hpl.
      split; intros x Hx y Hy; now apply Hl; auto. }
    destruct (A p H Hp) as [P1 P2], (A w H0 Hw) as [W1 W2].
    destruct b; try discriminate; simpl; auto.
    simpl in Hb. apply andb_prop in Hb as [Hp' Hw'].
    rewrite !(list_eq_structural _ p prompts), !(list_eq_structural _ w weights)
      by assumption.
    simpl. destruct (all2 same p prompts); auto.
Qed.

End equality_is_structural.




(** ** The flattening engine: what it appends *)





Lemma Blend_init_inv (prompts weights : node) (nw : bool) (b : node) :
  Blend_init prompts weights nw = Return b ->
  b = Blend prompts weights nw
  /\ exists items, py_iter prompts = Return items
                   /\ forallb blend_item items = true
                   /\ py_len weights = Return (List.length items).
Proof.
  intros H.
  destruct (py_iter prompts) as [items|e|] eqn:Hi.
  2,3: unfold Blend_init in H; destruct prompts; simpl in *; discriminate.
  destruct (py_len weights) as [m|e|] eqn:Hm.
  2,3: unfold Blend_init in H; rewrite (py_len_iter _ _ Hi), Hm in H;
       simpl in H; discriminate.
  rewrite (Blend_init_spec _ _ _ _ _ Hi Hm) in H.
  destruct (List.length items =? m) eqn:El; simpl in H; [|discriminate].
  destruct (forallb blend_item items) eqn:Hb; [|discriminate].
  inversion H. split; [reflexivity|]. exists items.
  apply Nat.eqb_eq in El. subst m. auto.
Qed.

(** X2.  The blend that [flatten_internal] makes of a blend: its prompts are
    a fresh list of [Prompt] and [FlattenedPrompt] nodes, its weights are
    the weights of the blend it comes from, as many as the prompts, and
    [normalize_weights] is on, whatever it was. *)
Theorem flatten_internal_blend (prompts weights : node) (normalize_weights : bool)
  (weight_scale : float) (results out : list node) :
  flatten_internal (Blend prompts weights normalize_weights) weight_scale results
  = Return out ->
  exists flattened,
    out = results ++ [Blend (PyList flattened) weights true]
    /\ forallb blend_item flattened = true
    /\ py_len weights = Return (List.length flattened).
Proof.
  simpl.
  match goal with |- bind ?r _ = _ -> _ => destruct r as [fl|e|] end;
    simpl; try discriminate.
  destruct (Blend_init (PyList fl) weights true) as [b|e|] eqn:Hb;
    simpl; try discriminate.
  intros H. inversion H. subst out.
  apply Blend_init_inv in Hb as (-> & items & Hi & Hitems & Hlen).
  simpl in Hi. inversion Hi. subst items. eauto.
Qed.

Lemma flatten_internal_blend_witness :
  exists flattened,
    [Blend (PyList [FlattenedPrompt [Fragment "fire" 2.0]]) (PyList [Num 0.5]) true]
    = [] ++ [Blend (PyList flattened) (PyList [Num 0.5]) true]
    /\ forallb blend_item flattened = true
    /\ py_len (PyList [Num 0.5]) = Return (List.length flattened).
Proof.
  apply (flatten_internal_blend (PyList [Prompt (PyList [Fragment "fire" 1.0])])
           (PyList [Num 0.5]) false 2.0 []).
  reflexivity.
Defined.

Lemma Conjunction_init_inv (prompts weights : node) (c : node) :
  Conjunction_init prompts (Some weights) = Return c ->
  exists ps ws, c = Conjunction ps ws
                /\ py_iter weights = Return ws
                /\ List.length ps = List.length ws.
Proof.
  unfold Conjunction_init.
  destruct (py_iter prompts) as [items|e|]; simpl; try discriminate.
  match goal with |- bind ?r _ = _ -> _ => destruct r as [ps|e|] end;
    simpl; try discriminate.
  destruct (py_iter weights) as [ws|e|]; simpl; try discriminate.
  destruct (List.length ws =? List.length ps) eqn:El; simpl; try discriminate.
  intros H. inversion H. apply Nat.eqb_eq in El. eauto.
Qed.

Lemma flatten_internal_one (x : node) (ws : float) (r : list node) :
  is_raw_branch x = true ->
  flatten_internal x ws [] = Return r -> exists y, r = [y] /\ prompt_like y = true.
Proof.
  intros Hx. destruct x; try discriminate; simpl.
  - match goal with |- bind ?r _ = _ -> _ => destruct r end; simpl; try discriminate.
    match goal with |- bind ?r _ = _ -> _ => destruct r end; simpl; try discriminate.
    unfold FlattenedPrompt_init.
    match goal with |- bind (bind ?r _) _ = _ -> _ => destruct r end;
      simpl; try discriminate.
    intros H. inversion H. eauto.
  - match goal with |- bind ?r _ = _ -> _ => destruct r end; simpl; try discriminate.
    match goal with |- bind ?r _ = _ -> _ => destruct r as [b|e|] eqn:Hb end;
      simpl; try discriminate.
    intros H. inversion H. apply Blend_init_inv in Hb as [-> _]. eauto.
Qed.

Lemma flatten_loop_branches (prompts acc out : list node) :
  forallb is_raw_branch prompts = true ->
  for_each (fun part acc => r <- flatten_internal part 1 [] ;; Return (acc ++ r))
           prompts acc = Return out ->
  exists new, out = acc ++ new
              /\ Forall2 (fun p p' => flatten_internal p 1 [] = Return [p'])
                         prompts new
              /\ forallb prompt_like new = true.
Proof.
  revert acc. induction prompts as [|x l IH]; intros acc Hl; simpl.
  - intros H. inversion H. exists []. rewrite app_nil_r. auto.
  - simpl in Hl. apply andb_prop in Hl as [Hx Hl].
    destruct (flatten_internal x 1 []) as [r|e|] eqn:Hr; simpl; try discriminate.
    destruct (flatten_internal_one x 1 r Hx Hr) as (y & -> & Hy).
    intros H. destruct (IH _ Hl H) as (new & -> & HF & Hn).
    exists (y :: new). rewrite <- app_assoc. simpl. rewrite Hy. auto.
Qed.

(** X3.  [flatten] keeps the weights of the conjunction and flattens its
    branches one by one: over prompts and blends, the result holds as many
    branches as the conjunction, each being what [flatten_internal] makes of
    the branch at its place at the scale 1.0, under the same list of
    weights, which counts as many entries as there are branches. *)
Theorem flatten_branchwise (prompts weights : list node) (c : node) :
  forallb is_raw_branch prompts = true ->
  flatten (Conjunction prompts weights) = Return c ->
  exists flattened,
    c = Conjunction flattened weights
    /\ Forall2 (fun p p' => flatten_internal p 1 [] = Return [p'])
               prompts flattened
    /\ List.length weights = List.length prompts.
Proof.
  intros Hp. unfold flatten.
  match goal with |- bind ?r _ = _ -> _ => destruct r as [parts|e|] eqn:Hl end;
    simpl; try discriminate.
  destruct (flatten_loop_branches _ _ _ Hp Hl) as (new & -> & HF & Hn).
  simpl. intros H.
  rewrite (Conjunction_init_prompt_like (PyList new) _ new eq_refl Hn) in H.
  simpl in H.
  destruct (List.length weights =? List.length new) eqn:El; simpl in H;
    [|discriminate].
  inversion H. exists new. split; [reflexivity|]. split; [exact HF|].
  apply Nat.eqb_eq in El. rewrite El. symmetry. eapply Forall2_length; eauto.
Qed.

Lemma flatten_branchwise_witness :
  exists flattened,
    Conjunction [FlattenedPrompt [Fragment "fire flames" 1.0]] [Num 1.0]
    = Conjunction flattened [Num 1.0]
    /\ Forall2 (fun p p' => flatten_internal p 1 [] = Return [p'])
               [Prompt (PyList [Fragment "fire" 1.0; Fragment "flames" 1.0])]
               flattened
    /\ List.length [Num 1.0]
       = List.length [Prompt (PyList [Fragment "fire" 1.0; Fragment "flames" 1.0])].
Proof.
  apply (flatten_branchwise
           [Prompt (PyList [Fragment "fire" 1.0; Fragment "flames" 1.0])]
           [Num 1.0]); reflexivity.
Defined.

(** ** Fusion: what it returns *)

Lemma separated_snoc (l : list node) (x : node) :
  separated (l ++ [x]) = separated l && may_follow (last_item l) x.
Proof.
  induction l as [|y l IH]; simpl.
  - now destruct x.
  - rewrite IH. destruct l as [|z l'].
    + simpl. unfold last_item. simpl. destruct y, x; simpl; try reflexivity.
      now rewrite !andb_true_r.
    + assert (E : last_item (y :: z :: l') = last_item (z :: l')).
      { change (y :: z :: l') with ([y] ++ (z :: l')).
        now rewrite last_item_app_nonempty. }
      rewrite E. simpl. now rewrite andb_assoc.
Qed.

Lemma forallb_snoc (P : node -> bool) (l : list node) (x : node) :
  forallb P (l ++ [x]) = forallb P l && P x.
Proof. rewrite forallb_app. simpl. now rewrite andb_true_r. Qed.

Lemma fuse_item_fragment_separated (t : string) (w : float) (res : list node) :
  forallb flat_item res = true -> separated res = true ->
  forallb sides_separated res = true ->
  exists out, fuse_item (Fragment t w) res = Return out
              /\ separated out = true /\ forallb sides_separated out = true.
Proof.
  intros Hf Hs Hss. destruct res as [|y res _] using rev_ind.
  - exists [Fragment t w]. now rewrite fuse_item_first.
  - rewrite forallb_snoc in Hf, Hss. rewrite separated_snoc in Hs.
    apply andb_prop in Hf as [Hf Hy]. apply andb_prop in Hs as [Hs Hm].
    apply andb_prop in Hss as [Hss Hys].
    destruct y; try discriminate.
    + rewrite fuse_item_after_fragment.
      destruct (PrimFloat.eqb weight w) eqn:E; eexists; (split; [reflexivity|]).
      * rewrite separated_snoc, forallb_snoc, Hs, Hss.
        split; [|reflexivity]. simpl.
        destruct (last_item res) as [[]|]; simpl in *; auto.
      * change [Fragment text weight; Fragment t w]
          with ([Fragment text weight] ++ [Fragment t w]).
        rewrite app_assoc, separated_snoc, separated_snoc, !forallb_snoc.
        rewrite Hs, Hm, Hss, last_item_snoc. simpl. now rewrite E.
    + rewrite fuse_item_after_substitute. eexists. split; [reflexivity|].
      change [CrossAttentionControlSubstitute y1 y2; Fragment t w]
        with ([CrossAttentionControlSubstitute y1 y2] ++ [Fragment t w]).
      rewrite app_assoc, separated_snoc, separated_snoc, !forallb_snoc.
      rewrite Hs, Hss, Hys, last_item_snoc. simpl.
      now destruct (last_item res) as [[]|].
Qed.

Lemma for_each_fuse_fragments_separated (l res : list node) :
  forallb is_Fragment l = true ->
  forallb flat_item res = true -> separated res = true ->
  forallb sides_separated res = true ->
  exists out, for_each fuse_item l res = Return out
              /\ separated out = true /\ forallb sides_separated out = true.
Proof.
  revert res. induction l as [|x l IH]; intros res Hl Hf Hs Hss.
  - exists res. auto.
  - simpl in Hl. apply andb_prop in Hl as [Hx Hl]. destruct x; try discriminate.
    destruct (fuse_item_fragment text weight res Hf) as (mid & Hm & Hfm & _).
    destruct (fuse_item_fragment_separated text weight res Hf Hs Hss)
      as (mid' & Hm' & Hsm & Hssm).
    rewrite Hm in Hm'. inversion Hm'. subst mid'.
    destruct (IH mid Hl Hfm Hsm Hssm) as (out & Ho & H1 & H2).
    exists out. change (for_each fuse_item (Fragment text weight :: l) res)
      with (bind (fuse_item (Fragment text weight) res) (for_each fuse_item l)).
    rewrite Hm. simpl. auto.
Qed.

Lemma fuse_item_separated (x : node) (res : list node) :
  flat_item x = true ->
  forallb flat_item res = true -> separated res = true ->
  forallb sides_separated res = true ->
  exists out, fuse_item x res = Return out
              /\ separated out = true /\ forallb sides_separated out = true.
Proof.
  intros Hx Hf Hs Hss. destruct x; try discriminate.
  - now apply fuse_item_fragment_separated.
  - destruct x1 as [| |o| | | | | | | | | |]; try discriminate.
    destruct x2 as [| |e| | | | | | | | | |]; try discriminate.
    simpl in Hx. apply andb_prop in Hx as [Ho He].
    destruct (for_each_fuse_fragments_separated o [] Ho eq_refl eq_refl eq_refl)
      as (o' & Ho' & Hso & _).
    destruct (for_each_fuse_fragments_separated e [] He eq_refl eq_refl eq_refl)
      as (e' & He' & Hse & _).
    rewrite fuse_item_substitute. unfold fuse_fragments. rewrite Ho', He'. simpl.
    eexists. split; [reflexivity|].
    rewrite separated_snoc, forallb_snoc, Hs, Hss. simpl. rewrite Hso, Hse.
    now destruct (last_item res) as [[]|].
Qed.

Lemma fuse_fragments_separated (l out : list node) :
  forallb flat_item l = true ->
  fuse_fragments l = Return out ->
  separated out = true /\ forallb sides_separated out = true.
Proof.
  intros Hl. unfold fuse_fragments.
  assert (G : forall l res, forallb flat_item l = true ->
            forallb flat_item res = true -> separated res = true ->
            forallb sides_separated res = true ->
            exists out, for_each fuse_item l res = Return out
              /\ separated out = true /\ forallb sides_separated out = true).
  { clear. induction l as [|x l IH]; intros res Hl Hf Hs Hss.
    - exists res. auto.
    - simpl in Hl. apply andb_prop in Hl as [Hx Hl].
      destruct (fuse_item_flat x res Hx Hf) as (mid & Hm & Hfm).
      destruct (fuse_item_separated x res Hx Hf Hs Hss) as (mid' & Hm' & Hsm & Hssm).
      rewrite Hm in Hm'. inversion Hm'. subst mid'.
      destruct (IH mid Hl Hfm Hsm Hssm) as (out & Ho & H1 & H2).
      exists out. change (for_each fuse_item (x :: l) res)
        with (bind (fuse_item x res) (for_each fuse_item l)).
      rewrite Hm. simpl. auto. }
  destruct (G l [] Hl eq_refl eq_refl eq_refl) as (out' & Ho & H1 & H2).
  rewrite Ho. intros H. inversion H. subst out'. auto.
Qed.

(** X4.  What [fuse_fragments] returns on fragments and substitutes between
    lists of fragments: no fragment follows a fragment of equal weight, in
    the list or in a side of a substitute. *)
Theorem fuse_fragments_separates (l out : list node) :
  forallb flat_item l = true ->
  fuse_fragments l = Return out ->
  separated out = true /\ forallb sides_separated out = true.
Proof. apply fuse_fragments_separated. Qed.

Lemma fuse_fragments_separates_witness :
  separated [Fragment "a b" 1.0; Fragment "c" 2.0] = true
  /\ forallb sides_separated [Fragment "a b" 1.0; Fragment "c" 2.0] = true.
Proof.
  apply (fuse_fragments_separates
           [Fragment "a" 1.0; Fragment "b" 1.0; Fragment "c" 2.0]);
    reflexivity.
Defined.

Lemma append_assoc (a b c : string) : ((a ++ b) ++ c = a ++ (b ++ c))%string.
Proof. induction a as [|x a IH]; simpl; [reflexivity|now rewrite IH]. Qed.

Lemma join_cons (sep x : string) (rest : list string) :
  rest <> [] -> join sep (x :: rest) = (x ++ sep ++ join sep rest)%string.
Proof. destruct rest; [congruence|reflexivity]. Qed.

Lemma join_merge (xs l : list string) (a b : string) :
  join " " (xs ++ [(a ++ " " ++ b)%string] ++ l) = join " " (xs ++ [a; b] ++ l).
Proof.
  induction xs as [|x xs IH].
  - simpl app. destruct l as [|y l].
    + reflexivity.
    + rewrite !join_cons by discriminate. now rewrite !append_assoc.
  - change ((x :: xs) ++ ?r) with (x :: (xs ++ r)).
    rewrite !join_cons by (destruct xs; discriminate). now rewrite IH.
Qed.

Lemma fuse_item_text (t : string) (w : float) (res l mid : list node) :
  forallb is_Fragment res = true ->
  fuse_item (Fragment t w) res = Return mid ->
  join " " (map text_of (mid ++ l))
  = join " " (map text_of (res ++ Fragment t w :: l)).
Proof.
  intros Hf. destruct res as [|y res _] using rev_ind.
  - rewrite fuse_item_first. intros H. inversion H. reflexivity.
  - rewrite forallb_snoc in Hf. apply andb_prop in Hf as [Hf Hy].
    destruct y; try discriminate. rewrite fuse_item_after_fragment.
    destruct (PrimFloat.eqb weight w); intros H; inversion H.
    + rewrite <- !app_assoc, !map_app. simpl map.
      apply (join_merge (map text_of res) (map text_of l) text t).
    + now rewrite <- !app_assoc.
Qed.

Lemma fuse_item_length (t : string) (w : float) (res mid : list node) :
  forallb is_Fragment res = true ->
  fuse_item (Fragment t w) res = Return mid ->
  List.length mid <= S (List.length res).
Proof.
  intros Hf Hm. destruct res as [|y res _] using rev_ind.
  - rewrite fuse_item_first in Hm. inversion Hm. simpl. lia.
  - rewrite forallb_snoc in Hf. apply andb_prop in Hf as [_ Hy].
    destruct y; try discriminate. rewrite fuse_item_after_fragment in Hm.
    destruct (PrimFloat.eqb weight w); inversion Hm;
      rewrite !length_app; simpl; lia.
Qed.

Lemma for_each_fuse_text (l res out : list node) :
  forallb is_Fragment l = true -> forallb is_Fragment res = true ->
  for_each fuse_item l res = Return out ->
  join " " (map text_of out) = join " " (map text_of (res ++ l))
  /\ List.length out <= List.length res + List.length l.
Proof.
  revert res. induction l as [|x l IH]; intros res Hl Hf.
  - intros H. inversion H. rewrite app_nil_r. split; [reflexivity|simpl; lia].
  - simpl in Hl. apply andb_prop in Hl as [Hx Hl]. destruct x; try discriminate.
    assert (Hflat : forallb flat_item res = true)
      by (eapply forallb_weaken; [apply is_Fragment_flat_item|exact Hf]).
    destruct (fuse_item_fragment text weight res Hflat) as (mid & Hm & _ & Hfm).
    change (for_each fuse_item (Fragment text weight :: l) res)
      with (bind (fuse_item (Fragment text weight) res) (for_each fuse_item l)).
    rewrite Hm. simpl. intros H.
    destruct (IH mid Hl (Hfm Hf) H) as [E Hlen]. split.
    + rewrite E. exact (fuse_item_text text weight res l mid Hf Hm).
    + pose proof (fuse_item_length text weight res mid Hf Hm).
      simpl. lia.
Qed.

(** X5.  Fusing a list of fragments loses no text: the texts of the result,
    joined by single spaces, are the texts of the list joined by single
    spaces, and the result is not longer than the list. *)
Theorem fuse_fragments_keeps_text (l out : list node) :
  forallb is_Fragment l = true ->
  fuse_fragments l = Return out ->
  join " " (map text_of out) = join " " (map text_of l)
  /\ List.length out <= List.length l.
Proof.
  intros Hl H. exact (for_each_fuse_text l [] out Hl eq_refl H).
Qed.

Lemma fuse_fragments_keeps_text_witness :
  join " " (map text_of [Fragment "a b" 1.0; Fragment "c" 2.0])
  = join " " (map text_of [Fragment "a" 1.0; Fragment "b" 1.0; Fragment "c" 2.0])
  /\ List.length [Fragment "a b" 1.0; Fragment "c" 2.0]
     <= List.length [Fragment "a" 1.0; Fragment "b" 1.0; Fragment "c" 2.0].
Proof.
  apply (fuse_fragments_keeps_text
           [Fragment "a" 1.0; Fragment "b" 1.0; Fragment "c" 2.0]);
    reflexivity.
Defined.

(** ** Fusion: its fixed points *)

Lemma separated_app_l (a b : list node) :
  separated (a ++ b) = true -> separated a = true.
Proof.
  induction a as [|x a IH]; [reflexivity|]. simpl. intros H.
  apply andb_prop in H as [Hx Ha]. rewrite (IH Ha), andb_true_r.
  destruct a as [|y a']; [now destruct x|exact Hx].
Qed.

Lemma fuse_item_keeps (x : node) (res : list node) :
  is_Fragment x = true -> forallb flat_item res = true ->
  may_follow (last_item res) x = true ->
  fuse_item x res = Return (res ++ [x]).
Proof.
  intros Hx Hf Hm. destruct x; try discriminate.
  destruct res as [|y res _] using rev_ind; [reflexivity|].
  rewrite forallb_snoc in Hf. apply andb_prop in Hf as [_ Hy].
  rewrite last_item_snoc in Hm. destruct y; try discriminate.
  - rewrite fuse_item_after_fragment. simpl in Hm.
    apply negb_true_iff in Hm. rewrite Hm. now rewrite <- app_assoc.
  - rewrite fuse_item_after_substitute. now rewrite <- app_assoc.
Qed.

Lemma for_each_fuse_keeps_fragments (l res : list node) :
  forallb is_Fragment l = true -> forallb is_Fragment res = true ->
  separated (res ++ l) = true ->
  for_each fuse_item l res = Return (res ++ l).
Proof.
  revert res. induction l as [|x l IH]; intros res Hl Hr Hs.
  - now rewrite app_nil_r.
  - simpl in Hl. apply andb_prop in Hl as [Hx Hl].
    change (for_each fuse_item (x :: l) res)
      with (bind (fuse_item x res) (for_each fuse_item l)).
    replace (res ++ x :: l) with ((res ++ [x]) ++ l) in *
      by now rewrite <- app_assoc.
    pose proof (separated_app_l _ _ Hs) as Hsx. rewrite separated_snoc in Hsx.
    apply andb_prop in Hsx as [_ Hm].
    rewrite (fuse_item_keeps x res Hx
               (forallb_weaken _ _ _ is_Fragment_flat_item Hr) Hm).
    cbn [bind]. apply IH; [exact Hl| |exact Hs].
    now rewrite forallb_snoc, Hr, Hx.
Qed.

Lemma for_each_fuse_keeps (l res : list node) :
  forallb flat_item l = true -> forallb flat_item res = true ->
  separated (res ++ l) = true -> forallb sides_separated l = true ->
  for_each fuse_item l res = Return (res ++ l).
Proof.
  revert res. induction l as [|x l IH]; intros res Hl Hr Hs Hss.
  - now rewrite app_nil_r.
  - simpl in Hl, Hss. apply andb_prop in Hl as [Hx Hl].
    apply andb_prop in Hss as [Hsx Hss].
    change (for_each fuse_item (x :: l) res)
      with (bind (fuse_item x res) (for_each fuse_item l)).
    replace (res ++ x :: l) with ((res ++ [x]) ++ l) in *
      by now rewrite <- app_assoc.
    assert (E : fuse_item x res = Return (res ++ [x])).
    { destruct x; try discriminate.
      - pose proof (separated_app_l _ _ Hs) as H. rewrite separated_snoc in H.
        apply andb_prop in H as [_ Hm].
        now apply fuse_item_keeps.
      - destruct x1 as [| |o| | | | | | | | | |]; try discriminate.
        destruct x2 as [| |e| | | | | | | | | |]; try discriminate.
        simpl in Hx, Hsx. apply andb_prop in Hx as [Ho He].
        apply andb_prop in Hsx as [Hso Hse].
        rewrite fuse_item_substitute. unfold fuse_fragments.
        rewrite (for_each_fuse_keeps_fragments o [] Ho eq_refl Hso).
        rewrite (for_each_fuse_keeps_fragments e [] He eq_refl Hse).
        reflexivity. }
    rewrite E. cbn [bind]. apply IH; [exact Hl| |exact Hs|exact Hss].
    now rewrite forallb_snoc, Hr, Hx.
Qed.

(** X6.  The lists that [fuse_fragments] returns unchanged are the lists in
    which no fragment follows a fragment of equal weight, at the top and
    within the sides of the substitutes. *)
Theorem fuse_fragments_fixed_points (l : list node) :
  forallb flat_item l = true ->
  (fuse_fragments l = Return l
   <-> separated l = true /\ forallb sides_separated l = true).
Proof.
  intros Hl. split.
  - intros H. exact (fuse_fragments_separated l l Hl H).
  - intros [Hs Hss]. exact (for_each_fuse_keeps l [] Hl eq_refl Hs Hss).
Qed.

Lemma fuse_fragments_fixed_points_witness :
  fuse_fragments [Fragment "a" 1.0; Fragment "b" 2.0]
  = Return [Fragment "a" 1.0; Fragment "b" 2.0]
  <-> separated [Fragment "a" 1.0; Fragment "b" 2.0] = true
      /\ forallb sides_separated [Fragment "a" 1.0; Fragment "b" 2.0] = true.
Proof.
  apply (fuse_fragments_fixed_points [Fragment "a" 1.0; Fragment "b" 2.0]).
  reflexivity.
Defined.

(** ** Equality: symmetry, reflexivity, attentions *)

Lemma all2_sym (f : node -> node -> bool) (l l' : list node) :
  Forall (fun x => forall y, f x y = f y x) l -> all2 f l l' = all2 f l' l.
Proof.
  intros H. revert l'. induction H as [|x l Hx _ IH]; intros [|y l']; simpl;
    try reflexivity.
  now rewrite Hx, IH.
Qed.

Lemma same_sym (a b : node) : same a b = same b a.
Proof.
  revert b. induction a using node_induction; intros other; destruct other;
    simpl; try reflexivity.
  - apply String.eqb_sym.
  - apply float_eqb_sym.
  - now apply all2_sym.
  - now rewrite String.eqb_sym, float_eqb_sym.
  - now rewrite IHa1, IHa2.
  - apply IHa.
  - apply IHa.
  - now apply all2_sym.
  - now rewrite (all2_sym same p prompts H), (all2_sym same w weights H0).
Qed.

Lemma all2_refl (f : node -> node -> bool) (P : node -> bool) (l : list node) :
  Forall (fun x => P x = true -> f x x = true) l ->
  forallb P l = true -> all2 f l l = true.
Proof.
  induction 1 as [|x l Hx _ IH]; simpl; [reflexivity|].
  intros H. apply andb_prop in H as [H1 H2]. now rewrite Hx, IH.
Qed.

Lemma same_refl (a : node) :
  plain a = true -> reflexive_floats a = true -> same a a = true.
Proof.
  induction a using node_induction; simpl; intros Hp Hr; try discriminate.
  - apply String.eqb_refl.
  - exact Hr.
  - apply (all2_refl same (fun x => plain x && reflexive_floats x)).
    + eapply Forall_impl; [|exact H]. intros x Hx E.
      apply andb_prop in E as [E1 E2]. auto.
    + rewrite forallb_forall in *. intros x Hx. now rewrite Hp, Hr.
  - now rewrite String.eqb_refl, Hr.
  - apply andb_prop in Hp as [Hp1 Hp2]. apply andb_prop in Hr as [Hr1 Hr2].
    now rewrite IHa1, IHa2.
  - auto.
  - auto.
  - apply (all2_refl same (fun x => plain x && reflexive_floats x)).
    + eapply Forall_impl; [|exact H]. intros x Hx E.
      apply andb_prop in E as [E1 E2]. auto.
    + rewrite forallb_forall in *. intros x Hx. now rewrite Hp, Hr.
  - apply andb_prop in Hp as [Hp1 Hp2]. apply andb_prop in Hr as [Hr1 Hr2].
    rewrite (all2_refl same (fun x => plain x && reflexive_floats x) p),
            (all2_refl same (fun x => plain x && reflexive_floats x) w);
      try reflexivity.
    + eapply Forall_impl; [|exact H0]. intros x Hx E.
      apply andb_prop in E as [E1 E2]. auto.
    + rewrite forallb_forall in *. intros x Hx. now rewrite Hp2, Hr2.
    + eapply Forall_impl; [|exact H]. intros x Hx E.
      apply andb_prop in E as [E1 E2]. auto.
    + rewrite forallb_forall in *. intros x Hx. now rewrite Hp1, Hr1.
Qed.

(** X7.  On the trees where [==] is structural it is symmetric, and a tree
    without a NaN weight equals every copy of itself. *)
Theorem equality_symmetric_reflexive :
  (forall repr_float repr_str a b,
      plain a = true -> plain b = true ->
      py_eq repr_float repr_str a b = py_eq repr_float repr_str b a)
  /\ (forall repr_float repr_str a,
      plain a = true -> reflexive_floats a = true ->
      py_eq repr_float repr_str a a = Return true).
Proof.
  split.
  - intros rf rs a b Ha Hb.
    destruct (structural_all rf rs a Ha b Hb) as [E _].
    destruct (structural_all rf rs b Hb a Ha) as [E' _].
    now rewrite E, E', same_sym.
  - intros rf rs a Ha Hr.
    destruct (structural_all rf rs a Ha a Ha) as [E _].
    now rewrite E, same_refl.
Qed.

Lemma equality_symmetric_reflexive_witness :
  py_eq (fun _ => "1.0") (fun s => s)
        (Prompt (PyList [Fragment "fire" 1.0])) (Prompt (PyList []))
  = py_eq (fun _ => "1.0") (fun s => s)
          (Prompt (PyList [])) (Prompt (PyList [Fragment "fire" 1.0]))
  /\ py_eq (fun _ => "1.0") (fun s => s)
           (Prompt (PyList [Fragment "fire" 1.0]))
           (Prompt (PyList [Fragment "fire" 1.0]))
     = Return true.
Proof.
  destruct equality_symmetric_reflexive as [H1 H2]. split.
  - exact (H1 _ _ (Prompt (PyList [Fragment "fire" 1.0])) (Prompt (PyList []))
              eq_refl eq_refl).
  - exact (H2 _ _ (Prompt (PyList [Fragment "fire" 1.0])) eq_refl eq_refl).
Defined.



(** ** Printing *)

Section printing.

Variable repr_float : float -> string.
Variable repr_str : string -> string.

Lemma show_items_prints (inside : bool) (l : list node) :
  Forall (prints repr_float repr_str) l ->
  if existsb has_append l
  then show_items repr_float repr_str inside l = Raise TypeError
  else exists ss, show_items repr_float repr_str inside l = Return ss.
Proof.
  induction 1 as [|x l Hx _ IH]; simpl; [eauto|].
  specialize (Hx (inside && is_ParseResults x)).
  destruct (has_append x); simpl.
  - now rewrite Hx.
  - destruct Hx as (s & ->). simpl.
    destruct (existsb has_append l).
    + now rewrite IH.
    + destruct IH as (ss & ->). simpl. eauto.
Qed.

Lemma py_show_PyList (as_str : bool) (l : list node) :
  py_show repr_float repr_str as_str (PyList l)
  = (items <- show_items repr_float repr_str false l ;; Return ("[" ++ join ", " items ++ "]")%string).
Proof. reflexivity. Qed.

Lemma py_show_PyTuple (as_str : bool) (l : list node) :
  py_show repr_float repr_str as_str (PyTuple l)
  = (items <- show_items repr_float repr_str false l ;;
     Return (match items with
             | [one] => "(" ++ one ++ ",)"
             | _ => "(" ++ join ", " items ++ ")"
             end)%string).
Proof. reflexivity. Qed.

Lemma py_show_ParseResults (as_str : bool) (l : list node) :
  py_show repr_float repr_str as_str (ParseResults l)
  = if as_str then
      (items <- show_items repr_float repr_str true l ;; Return ("[" ++ join ", " items ++ "]")%string)
    else
      (inner <- (items <- show_items repr_float repr_str false l ;;
                 Return ("[" ++ join ", " items ++ "]")%string) ;;
       Return ("ParseResults(" ++ inner ++ ", {})")%string).
Proof. reflexivity. Qed.

Lemma py_show_FlattenedPrompt (as_str : bool) (l : list node) :
  py_show repr_float repr_str as_str (FlattenedPrompt l)
  = (c <- (items <- show_items repr_float repr_str false l ;;
           Return ("[" ++ join ", " items ++ "]")%string) ;;
     Return ("FlattenedPrompt:" ++ c)%string).
Proof. reflexivity. Qed.

Lemma py_show_Conjunction (as_str : bool) (p w : list node) :
  py_show repr_float repr_str as_str (Conjunction p w)
  = (sp <- (items <- show_items repr_float repr_str false p ;;
            Return ("[" ++ join ", " items ++ "]")%string) ;;
     sw <- (items <- show_items repr_float repr_str false w ;;
            Return ("[" ++ join ", " items ++ "]")%string) ;;
     Return ("Conjunction:" ++ sp ++ " | weights " ++ sw)%string).
Proof. reflexivity. Qed.

Ltac show_seq H inside l :=
  let Hl := fresh "Hl" in
  pose proof (show_items_prints inside l H) as Hl;
  destruct (existsb has_append l);
  [rewrite Hl; reflexivity
  |let ss := fresh "ss" in destruct Hl as (ss & ->); cbn [bind]; eauto].

Lemma prints_all (x : node) : prints repr_float repr_str x.
Proof.
  induction x using node_induction; intros as_str.
  - simpl. eauto.
  - simpl. eauto.
  - rewrite py_show_PyList. cbn [has_append]. show_seq H false l.
  - rewrite py_show_PyTuple. cbn [has_append]. show_seq H false l.
  - rewrite py_show_ParseResults. cbn [has_append]. destruct as_str.
    + show_seq H true l.
    + show_seq H false l.
  - simpl. eauto.
  - simpl. specialize (IHx true). destruct (has_append x).
    + now rewrite IHx.
    + destruct IHx as (s & ->). simpl. eauto.
  - simpl. specialize (IHx1 true). specialize (IHx2 true).
    destruct (has_append x1); simpl.
    + now rewrite IHx1.
    + destruct IHx1 as (s1 & ->). simpl. destruct (has_append x2).
      * now rewrite IHx2.
      * destruct IHx2 as (s2 & ->). simpl. eauto.
  - reflexivity.
  - simpl. specialize (IHx true). destruct (has_append x).
    + now rewrite IHx.
    + destruct IHx as (s & ->). simpl. eauto.
  - rewrite py_show_FlattenedPrompt. cbn [has_append]. show_seq H false l.
  - simpl. specialize (IHx1 true). specialize (IHx2 true).
    destruct (has_append x1); simpl.
    + now rewrite IHx1.
    + destruct IHx1 as (s1 & ->). simpl. destruct (has_append x2).
      * now rewrite IHx2.
      * destruct IHx2 as (s2 & ->). simpl. eauto.
  - rewrite py_show_Conjunction. cbn [has_append].
    pose proof (show_items_prints false p H) as Hp.
    pose proof (show_items_prints false w H0) as Hw.
    destruct (existsb has_append p); simpl.
    + now rewrite Hp.
    + destruct Hp as (sp & ->). cbn [bind]. destruct (existsb has_append w).
      * now rewrite Hw.
      * destruct Hw as (sw & ->). cbn [bind]. eauto.
Qed.

End printing.

(** X9.  [repr] of a tree raises [TypeError] exactly when a
    [CrossAttentionControlAppend] occurs in it, whose [__repr__] returns a
    tuple; it returns a string otherwise.  The comparison of a [Blend] with
    an object that is not itself a [CrossAttentionControlAppend] prints
    both, and so raises [TypeError] when one of them holds a
    [CrossAttentionControlAppend]. *)
Theorem repr_fails_on_append :
  (forall repr_float repr_str x,
      has_append x = true -> py_repr repr_float repr_str x = Raise TypeError)
  /\ (forall repr_float repr_str x,
      has_append x = false -> exists s, py_repr repr_float repr_str x = Return s)
  /\ (forall repr_float repr_str prompts weights normalize_weights b,
      (forall fragment, b <> CrossAttentionControlAppend fragment) ->
      has_append (Blend prompts weights normalize_weights) || has_append b = true ->
      py_eq repr_float repr_str (Blend prompts weights normalize_weights) b
      = Raise TypeError).
Proof.
  split; [|split].
  - intros rf rs x H. pose proof (prints_all rf rs x false) as P.
    rewrite H in P. exact P.
  - intros rf rs x H. pose proof (prints_all rf rs x false) as P.
    rewrite H in P. exact P.
  - intros rf rs p w n b _ H.
    pose proof (prints_all rf rs b false) as Pb.
    pose proof (prints_all rf rs (Blend p w n) false) as Pa.
    change (py_eq rf rs (Blend p w n) b)
      with (rb <- py_repr rf rs b ;; ra <- py_repr rf rs (Blend p w n) ;;
            Return (String.eqb rb ra)).
    unfold py_repr. destruct (has_append b).
    + now rewrite Pb.
    + destruct Pb as (sb & ->). rewrite orb_false_r in H. cbn [bind].
      rewrite H in Pa. now rewrite Pa.
Qed.

Lemma repr_fails_on_append_witness :
  py_repr (fun _ => "1.0") (fun s => s)
          (FlattenedPrompt [Fragment "fire" 1.0;
                            CrossAttentionControlAppend (Fragment "flames" 1.0)])
  = Raise TypeError
  /\ (exists s, py_repr (fun _ => "1.0") (fun s => s)
                        (FlattenedPrompt [Fragment "fire" 1.0]) = Return s)
  /\ py_eq (fun _ => "1.0") (fun s => s)
           (Blend (PyList [FlattenedPrompt [Fragment "fire" 1.0]])
                  (PyList [Num 1.0]) true)
           (FlattenedPrompt [CrossAttentionControlAppend (Fragment "flames" 1.0)])
     = Raise TypeError.
Proof.
  destruct repr_fails_on_append as (H1 & H2 & H3). split; [|split].
  - exact (H1 _ _ (FlattenedPrompt
                     [Fragment "fire" 1.0;
                      CrossAttentionControlAppend (Fragment "flames" 1.0)])
              eq_refl).
  - exact (H2 _ _ (FlattenedPrompt [Fragment "fire" 1.0]) eq_refl).
  - apply H3; [discriminate|reflexivity].
Defined.

(** ** The constructors, again *)

Lemma FlattenedPrompt_loop_inv (parts acc out : list node) :
  for_each (fun part parts_converted =>
      if is_BaseFragment part then Return (parts_converted ++ [part])
      else match part with
           | PyTuple items =>
               p0 <- py_getitem part 0 ;;
               match p0 with
               | Str text =>
                   p1 <- py_getitem part 1 ;;
                   match p1 with
                   | Num weight =>
                       Return (parts_converted ++ [Fragment text weight])
                   | _ => Raise ParsingException
                   end
               | _ => Raise ParsingException
               end
           | _ => Raise ParsingException
           end) parts acc = Return out ->
  exists children, out = acc ++ children /\ Forall2 upgraded parts children.
Proof.
  revert acc. induction parts as [|x l IH]; intros acc; simpl.
  - intros H. inversion H. exists []. now rewrite app_nil_r.
  - destruct (is_BaseFragment x) eqn:Hx; simpl.
    + intros H. destruct (IH _ H) as (ch & -> & HF).
      exists (x :: ch). rewrite <- app_assoc. split; [reflexivity|].
      constructor; [left; auto|exact HF].
    + destruct x as [| | |items| | | | | | | | |]; simpl; try discriminate.
      destruct items as [|p0 [|p1 more]]; simpl; try discriminate.
      * destruct p0; simpl; discriminate.
      * destruct p0 as [text| | | | | | | | | | | |]; simpl; try discriminate.
        destruct p1 as [|weight| | | | | | | | | | |]; simpl; try discriminate.
        intros H. destruct (IH _ H) as (ch & -> & HF).
        exists (Fragment text weight :: ch). rewrite <- app_assoc.
        split; [reflexivity|]. constructor; [|exact HF].
        right. eauto.
Qed.

Lemma upgraded_BaseFragment (part child : node) :
  upgraded part child -> is_BaseFragment child = true.
Proof.
  intros [[H ->]|(t & w & m & _ & ->)]; auto.
Qed.

Lemma upgraded_all_BaseFragment (parts children : list node) :
  Forall2 upgraded parts children -> forallb is_BaseFragment children = true.
Proof.
  induction 1 as [|a b la lb Hab _ IH]; simpl; [reflexivity|].
  now rewrite (upgraded_BaseFragment _ _ Hab), IH.
Qed.

Lemma FlattenedPrompt_init_children (l : list node) :
  forallb is_BaseFragment l = true ->
  FlattenedPrompt_init l = Return (FlattenedPrompt l).
Proof.
  intros H. unfold FlattenedPrompt_init.
  match goal with |- bind (for_each ?f l []) _ = _ =>
    assert (Hl : forall acc, for_each f l acc = Return (acc ++ l)) end.
  { induction l as [|x l IH]; intros acc; simpl.
    - now rewrite app_nil_r.
    - simpl in H. apply andb_prop in H as [Hx Hl].
      rewrite Hx. simpl. rewrite (IH Hl). now rewrite <- app_assoc. }
  rewrite Hl. reflexivity.
Qed.

(** X10.  [FlattenedPrompt.__init__] keeps the fragments among its parts and
    turns every pair of a string and a float into a [Fragment], in order and
    one for one; so the children of a flattened prompt are fragments of some
    kind, and building a flattened prompt from the children of another gives
    these children back. *)
Theorem FlattenedPrompt_children (parts : list node) (p : node) :
  FlattenedPrompt_init parts = Return p ->
  exists children,
    p = FlattenedPrompt children
    /\ Forall2 upgraded parts children
    /\ forallb is_BaseFragment children = true
    /\ FlattenedPrompt_init children = Return (FlattenedPrompt children).
Proof.
  unfold FlattenedPrompt_init.
  match goal with |- bind ?r _ = _ -> _ => destruct r as [out|e|] eqn:Hl end;
    simpl; try discriminate.
  intros H. inversion H. subst p.
  destruct (FlattenedPrompt_loop_inv _ _ _ Hl) as (ch & -> & HF).
  simpl. exists ch. split; [reflexivity|]. split; [exact HF|].
  pose proof (upgraded_all_BaseFragment _ _ HF) as Hb.
  split; [exact Hb|]. now apply FlattenedPrompt_init_children.
Qed.

Lemma FlattenedPrompt_children_witness :
  exists children,
    FlattenedPrompt [Fragment "fire" 1.0; Fragment "" 0.5]
    = FlattenedPrompt children
    /\ Forall2 upgraded [Fragment "fire" 1.0; PyTuple [Str ""; Num 0.5]] children
    /\ forallb is_BaseFragment children = true
    /\ FlattenedPrompt_init children = Return (FlattenedPrompt children).
Proof.
  apply (FlattenedPrompt_children [Fragment "fire" 1.0; PyTuple [Str ""; Num 0.5]]).
  reflexivity.
Defined.

Lemma coerce_loop_inv (items acc out : list node) :
  coerce_loop items acc = Return out ->
  exists ps, out = acc ++ ps
             /\ Forall2 (fun x p => p = coerced x /\ valid_entry x = true) items ps.
Proof.
  unfold coerce_loop. revert acc. induction items as [|x l IH]; intros acc; simpl.
  - intros H. inversion H. exists []. now rewrite app_nil_r.
  - destruct (is_Prompt x || is_Blend x || is_FlattenedPrompt x) eqn:Hx; simpl.
    + intros H. destruct (IH _ H) as (ps & -> & HF).
      exists (x :: ps). rewrite <- app_assoc. split; [reflexivity|].
      constructor; [|exact HF]. unfold coerced, valid_entry, prompt_like.
      now rewrite Hx.
    + destruct (Prompt_init x) as [p|e|] eqn:Hp; simpl; try discriminate.
      intros H. destruct (IH _ H) as (ps & -> & HF).
      exists (p :: ps). rewrite <- app_assoc. split; [reflexivity|].
      constructor; [|exact HF]. unfold coerced, valid_entry, prompt_like.
      rewrite Hx. simpl.
      destruct (py_iter x) as [its|e|] eqn:Hi.
      2,3: unfold Prompt_init in Hp; rewrite Hi in Hp; discriminate.
      rewrite (Prompt_init_spec x its Hi) in Hp.
      destruct (forallb prompt_item its) eqn:Hits; [|discriminate].
      inversion Hp. split; [reflexivity|].
      destruct x; simpl in Hi; try discriminate; inversion Hi; subst its;
        simpl; try exact Hits.
      destruct s; [reflexivity|]. simpl in Hits. discriminate.
Qed.

Lemma coerced_prompt_like (x : node) : prompt_like (coerced x) = true.
Proof. unfold coerced. destruct (prompt_like x) eqn:E; [exact E|reflexivity]. Qed.

(** X11.  What [Conjunction.__init__] builds: each entry that is a [Prompt], a
    [Blend] or a [FlattenedPrompt] as it is and [Prompt(entry)] for each
    other entry, in order, so that every prompt of a conjunction is of one
    of the three classes; and as many weights as prompts, each 1.0 when no
    weights were given. *)
Theorem Conjunction_prompts (prompts : node) (weights : option node) (c : node) :
  Conjunction_init prompts weights = Return c ->
  exists items ps ws,
    py_iter prompts = Return items
    /\ c = Conjunction ps ws
    /\ ps = map coerced items
    /\ forallb prompt_like ps = true
    /\ List.length ws = List.length ps
    /\ match weights with
       | None => ws = repeat (Num 1.0) (List.length items)
       | Some w => py_iter w = Return ws
       end.
Proof.
  unfold Conjunction_init.
  destruct (py_iter prompts) as [items|e|]; simpl; try discriminate.
  fold (coerce_loop items []).
  destruct (coerce_loop items []) as [ps|e|] eqn:Hc; simpl; try discriminate.
  destruct (coerce_loop_inv _ _ _ Hc) as (ps' & E & HF). simpl in E. subst ps'.
  assert (Hps : ps = map coerced items).
  { clear - HF. induction HF as [|x p l lp [-> _] _ IH]; simpl; congruence. }
  assert (Hlike : forallb prompt_like ps = true).
  { subst ps. apply forallb_forall. intros p Hp. apply in_map_iff in Hp as (x & <- & _).
    apply coerced_prompt_like. }
  destruct weights as [w|]; simpl.
  - destruct (py_iter w) as [ws|e|]; simpl; try discriminate.
    destruct (List.length ws =? List.length ps) eqn:El; simpl; try discriminate.
    intros H. inversion H. apply Nat.eqb_eq in El.
    exists items, ps, ws. auto 10.
  - rewrite repeat_length, Nat.eqb_refl. simpl. intros H. inversion H.
    exists items, ps, (repeat (Num 1.0) (List.length ps)).
    rewrite repeat_length. repeat split; auto.
    subst ps. now rewrite length_map.
Qed.

Lemma Conjunction_prompts_witness :
  exists items ps ws,
    py_iter (PyList [Prompt (PyList []); PyList [Fragment "fire" 1]])
    = Return items
    /\ Conjunction [Prompt (PyList []); Prompt (PyList [Fragment "fire" 1])]
                   [Num 1; Num 1]
       = Conjunction ps ws
    /\ ps = map coerced items
    /\ forallb prompt_like ps = true
    /\ List.length ws = List.length ps
    /\ ws = repeat (Num 1.0) (List.length items).
Proof.
  apply (Conjunction_prompts
           (PyList [Prompt (PyList []); PyList [Fragment "fire" 1]]) None).
  reflexivity.
Defined.

(** ** The constructor of [Prompt] *)

Lemma chars_no_prompt_item (s : string) :
  forallb prompt_item (chars s) = match s with EmptyString => true | _ => false end.
Proof. destruct s; reflexivity. Qed.

(** X12.  [Prompt.__init__] accepts the sequences whose items are all
    [Attention] nodes or fragments of some kind, and keeps the sequence as
    it is; any other item makes it raise [ParsingException].  Of the strings
    it accepts the empty one only, and what cannot be iterated over raises
    [TypeError]. *)
Theorem Prompt_checks_children :
  (forall parts items,
      py_iter parts = Return items ->
      Prompt_init parts
      = if forallb prompt_item items then Return (Prompt parts)
        else Raise ParsingException)
  /\ (forall s,
      Prompt_init (Str s)
      = if String.length s =? 0 then Return (Prompt (Str s))
        else Raise ParsingException)
  /\ (forall parts,
      is_sequence parts = false -> Prompt_init parts = Raise TypeError).
Proof.
  split; [|split].
  - exact Prompt_init_spec.
  - intros s. rewrite (Prompt_init_spec (Str s) (chars s) eq_refl).
    rewrite chars_no_prompt_item. now destruct s.
  - intros parts H. destruct parts; try discriminate; reflexivity.
Qed.

Lemma Prompt_checks_children_witness :
  Prompt_init (PyList [Fragment "fire" 1.0; Str "flames"]) = Raise ParsingException
  /\ Prompt_init (Num 1.0) = Raise TypeError.
Proof.
  destruct Prompt_checks_children as (H1 & _ & H3). split.
  - exact (H1 (PyList [Fragment "fire" 1.0; Str "flames"]) _ eq_refl).
  - exact (H3 (Num 1.0) eq_refl).
Defined.

(** ** The grammar as a whole *)




(** ** Prompts of words and weighted groups *)

Lemma fails_true {A : Type} (r : result A) :
  fails r = true -> r = Raise ParseException.
Proof. destruct r as [x|[]|]; simpl; congruence. Qed.

Lemma ascii_forall (A B : ascii -> bool) :
  forallb (fun c => if A c then B c else true) all_ascii = true ->
  forall c, A c = true -> B c = true.
Proof.
  intros H c Hc. rewrite forallb_forall in H.
  assert (Hin : In c all_ascii).
  { unfold all_ascii. rewrite <- (ascii_nat_embedding c). apply in_map.
    apply in_seq. pose proof (nat_ascii_bounded c). lia. }
  specialize (H c Hin). rewrite Hc in H. exact H.
Qed.

Ltac by_char c H :=
  revert c H; apply ascii_forall; vm_compute; reflexivity.

Ltac fails_by_char c H := apply fails_true; by_char c H.

Ltac false_by_char c H := apply negb_true_iff; by_char c H.

Lemma letter_starter (c : ascii) : is_letter c = true -> starter c = true.
Proof. intros H. unfold starter. now rewrite H. Qed.

Lemma letter_unquoted_word (c : ascii) : is_letter c = true -> unquoted_word c = true.
Proof. intros H. by_char c H. Qed.

Lemma letter_bare_char (c : ascii) : is_letter c = true -> bare_char c = true.
Proof. intros H. by_char c H. Qed.

Lemma digit_starter (c : ascii) : in_nums c = true -> starter c = true.
Proof. intros H. by_char c H. Qed.

Lemma digit_unquoted_word (c : ascii) : in_nums c = true -> unquoted_word c = true.
Proof. intros H. by_char c H. Qed.

Lemma letter_after_head (c : ascii) : is_letter c = true -> after_head c = true.
Proof. intros H. unfold after_head. now rewrite H. Qed.

Lemma after_head_not_plus (c : ascii) :
  after_head c = true -> Ascii.eqb c (ascii_of_nat 43) = false.
Proof. intros H. false_by_char c H. Qed.

Lemma after_head_not_minus (c : ascii) :
  after_head c = true -> Ascii.eqb c (ascii_of_nat 45) = false.
Proof. intros H. false_by_char c H. Qed.

Lemma in_nums_not_whitespace (c : ascii) :
  in_nums c = true -> in_default_whitespace c = false.
Proof. intros H. false_by_char c H. Qed.

Lemma in_nums_not_sign (c : ascii) :
  in_nums c = true -> is_char 43 c || is_char 45 c = false.
Proof. intros H. false_by_char c H. Qed.

Lemma not_whitespace_not_blank (c : ascii) :
  negb (in_default_whitespace c) = true -> Ascii.eqb (ascii_of_nat 32) c = false.
Proof. intros H. false_by_char c H. Qed.

Lemma starter_not_whitespace (c : ascii) :
  starter c = true -> in_default_whitespace c = false.
Proof. intros H. false_by_char c H. Qed.

Lemma starter_not_isspace (c : ascii) : starter c = true -> isspace c = false.
Proof. intros H. false_by_char c H. Qed.

Lemma starter_word_or_blank (c : ascii) :
  starter c = true -> word_or_blank c = true.
Proof. intros H. by_char c H. Qed.

Lemma unquoted_word_not_whitespace (c : ascii) :
  unquoted_word c = true -> in_default_whitespace c = false.
Proof. intros H. false_by_char c H. Qed.

Lemma unquoted_word_not_isspace (c : ascii) :
  unquoted_word c = true -> isspace c = false.
Proof. intros H. false_by_char c H. Qed.

Lemma unquoted_word_not_tab (c : ascii) :
  unquoted_word c = true ->
  (nat_of_ascii c =? 9) = false
  /\ ((nat_of_ascii c =? 10) || (nat_of_ascii c =? 13)) = false.
Proof.
  intros H.
  assert (E : negb (nat_of_ascii c =? 9)
              && negb ((nat_of_ascii c =? 10) || (nat_of_ascii c =? 13)) = true).
  { revert c H. apply ascii_forall. vm_compute. reflexivity. }
  apply andb_prop in E as [E1 E2]. now rewrite negb_true_iff in E1, E2.
Qed.

Lemma append_nil_r (s : string) : (s ++ "")%string = s.
Proof. induction s as [|c s IH]; simpl; [reflexivity|now rewrite IH]. Qed.

Lemma length_append (a b : string) :
  String.length (a ++ b)%string = String.length a + String.length b.
Proof. induction a as [|c a IH]; simpl; [reflexivity|now rewrite IH]. Qed.

Lemma forallb_chars_append (f : ascii -> bool) (a b : string) :
  forallb f (list_ascii_of_string (a ++ b))
  = forallb f (list_ascii_of_string a) && forallb f (list_ascii_of_string b).
Proof.
  induction a as [|c a IH]; simpl; [reflexivity|].
  now rewrite IH, andb_assoc.
Qed.

Lemma forallb_chars_run (f : ascii -> bool) (c : ascii) (n : nat) :
  f c = true -> forallb f (list_ascii_of_string (run c n)) = true.
Proof. intros H. induction n as [|n IH]; simpl; [reflexivity|now rewrite H]. Qed.

Lemma forallb_chars_weaken (f g : ascii -> bool) (s : string) :
  (forall c, f c = true -> g c = true) ->
  forallb f (list_ascii_of_string s) = true ->
  forallb g (list_ascii_of_string s) = true.
Proof.
  intros Hfg. induction s as [|c s IH]; [reflexivity|].
  cbn [list_ascii_of_string forallb]. intros H. apply andb_prop in H as [Hc Hs].
  now rewrite (Hfg c Hc), IH.
Qed.

Lemma span_all (f : ascii -> bool) (w t : string) :
  forallb f (list_ascii_of_string w) = true ->
  match t with String c _ => f c = false | EmptyString => True end ->
  span f (w ++ t)%string = (w, t).
Proof.
  intros Hw Ht. induction w as [|c w IH]; simpl in *.
  - destruct t as [|c r]; [reflexivity|]. simpl. now rewrite Ht.
  - apply andb_prop in Hw as [Hc Hw]. now rewrite Hc, IH.
Qed.

Lemma preParse_blanks (k : nat) (u : string) :
  preParse (run " " k ++ u) = preParse u.
Proof. induction k as [|k IH]; [reflexivity|exact IH]. Qed.

Lemma pre_blanks (k : nat) : pre top (run " " k) = "".
Proof.
  unfold pre. cbn [leaveWhitespace top].
  rewrite <- (append_nil_r (run " " k)). now rewrite preParse_blanks.
Qed.

(** A token: a non-empty run of the characters of [unquoted_fragment]. *)
Lemma pre_token (m : mode) (u t : string) :
  u <> "" -> token_chars u = true -> pre m (u ++ t)%string = (u ++ t)%string.
Proof.
  destruct u as [|c u']; [congruence|]. intros _ H. unfold token_chars in H.
  simpl in H. apply andb_prop in H as [Hc _]. unfold pre.
  destruct (leaveWhitespace m); [reflexivity|]. simpl.
  now rewrite (unquoted_word_not_whitespace c Hc).
Qed.

Lemma pre_blanks_token (k : nat) (u t : string) :
  u <> "" -> token_chars u = true ->
  pre top (run " " k ++ u ++ t) = (u ++ t)%string.
Proof.
  intros Hn Hu. pose proof (pre_token top u t Hn Hu) as H.
  unfold pre in *. cbn [leaveWhitespace top] in *.
  now rewrite preParse_blanks.
Qed.

Lemma plain_word_token (w : string) :
  plain_word w = true -> w <> "" /\ token_chars w = true.
Proof.
  destruct w as [|c w']; [discriminate|]. simpl. intros H.
  apply andb_prop in H as [Hc Hw]. split; [discriminate|].
  unfold token_chars in *. simpl. now rewrite (letter_unquoted_word c Hc).
Qed.

Lemma bare_word_plain (w : string) : bare_word w = true -> plain_word w = true.
Proof.
  destruct w as [|c w']; [discriminate|]. simpl. intros H.
  apply andb_prop in H as [Hc Hw]. rewrite Hc. simpl. unfold token_chars.
  rewrite forallb_forall in *. intros x Hx. specialize (Hw x Hx).
  unfold bare_char in Hw. now apply andb_prop in Hw as [Hw _].
Qed.

Lemma word_text_token (sign : option (bool * nat)) (w : string) :
  valid_item (one_word sign w) = true ->
  (sign_text sign ++ w)%string <> ""
  /\ token_chars (sign_text sign ++ w) = true.
Proof.
  destruct sign as [[p n]|]; cbn [valid_item sign_text]; intros H.
  - apply bare_word_plain, plain_word_token in H as [_ H].
    split; [discriminate|].
    unfold token_chars in *.
    rewrite forallb_chars_append, forallb_chars_run, H by (now destruct p).
    reflexivity.
  - now apply plain_word_token.
Qed.

Lemma numeral_first (d : numeral) :
  is_numeral d = true ->
  exists c r, numeral_text d = String c r /\ in_nums c = true.
Proof.
  destruct d as [i f]. unfold is_numeral, numeral_text. cbn [fst snd].
  intros H. apply andb_prop in H as [H _]. apply andb_prop in H as [Hn Hi].
  destruct i as [|c i']; [discriminate|].
  cbn [list_ascii_of_string forallb] in Hi. apply andb_prop in Hi as [Hc _].
  destruct f as [f|]; exists c; eexists; (split; [reflexivity|exact Hc]).
Qed.

Lemma numeral_token (d : numeral) :
  is_numeral d = true -> token_chars (numeral_text d) = true.
Proof.
  destruct d as [i f]. unfold is_numeral, numeral_text, token_chars.
  cbn [fst snd]. intros H. apply andb_prop in H as [H Hf].
  apply andb_prop in H as [_ Hi].
  pose proof (forallb_chars_weaken _ _ _ digit_unquoted_word Hi) as Hi'.
  destruct f as [f|]; [|exact Hi'].
  rewrite forallb_chars_append, Hi'. cbn [list_ascii_of_string forallb].
  now rewrite (forallb_chars_weaken _ _ _ digit_unquoted_word Hf).
Qed.

Lemma head_text_first (h : head) :
  valid_head h = true ->
  exists c r, head_text h = String c r /\ starter c = true.
Proof.
  destruct h as [p n|d]; cbn [valid_head head_text]; intros H.
  - exists (sign_char p). eexists. split; [reflexivity|]. now destruct p.
  - destruct (numeral_first d H) as (c & r & E & Hc).
    exists c, r. split; [exact E|]. now apply digit_starter.
Qed.

Lemma head_text_token (h : head) :
  valid_head h = true -> token_chars (head_text h) = true.
Proof.
  destruct h as [p n|d]; cbn [valid_head head_text]; intros H.
  - unfold token_chars. apply forallb_chars_run. now destruct p.
  - now apply numeral_token.
Qed.

Lemma item_text_first (it : item) :
  valid_item it = true ->
  exists c r, item_text it = String c r /\ starter c = true.
Proof.
  destruct it as [[[p n]|] w|h w ws]; cbn [valid_item item_text sign_text];
    intros H.
  - exists (sign_char p). eexists. split; [reflexivity|]. now destruct p.
  - destruct w as [|c w']; [discriminate|]. simpl in H.
    apply andb_prop in H as [Hc _]. exists c. eexists. split; [reflexivity|].
    now apply letter_starter.
  - apply andb_prop in H as [H _]. apply andb_prop in H as [Hh _].
    destruct (head_text_first h Hh) as (c & r & -> & Hc).
    exists c. eexists. split; [reflexivity|exact Hc].
Qed.

Lemma item_text_starter (it : item) (t : string) :
  valid_item it = true ->
  exists c r, (item_text it ++ t)%string = String c r /\ starter c = true.
Proof.
  intros H. destruct (item_text_first it H) as (c & r & -> & Hc).
  exists c. eexists. split; [reflexivity|exact Hc].
Qed.

Lemma pre_item (it : item) (t : string) :
  valid_item it = true ->
  pre top (item_text it ++ t) = (item_text it ++ t)%string.
Proof.
  intros H. destruct (item_text_first it H) as (c & r & -> & Hc).
  cbn [append]. unfold pre. cbn [leaveWhitespace top preParse].
  now rewrite (starter_not_whitespace c Hc).
Qed.

Lemma pre_blanks_item (k : nat) (it : item) (t : string) :
  valid_item it = true ->
  pre top (run " " k ++ item_text it ++ t) = (item_text it ++ t)%string.
Proof.
  intros H. pose proof (pre_item it t H) as E.
  unfold pre in *. cbn [leaveWhitespace top] in *.
  now rewrite preParse_blanks.
Qed.

Lemma tail_tail_of (trail : nat) (its : list (nat * item)) :
  all_valid its = true -> tail (tail_of trail its).
Proof.
  destruct its as [|[k it] its]; simpl; intros H.
  - split.
    + destruct trail; [now left|right; now eexists].
    + left. apply pre_blanks.
  - apply andb_prop in H as [Hit _]. simpl in Hit. split.
    + right. now eexists.
    + right.
      change (String " " (run " " k ++ item_text it ++ tail_of trail its))
        with (run " " (S k) ++ item_text it ++ tail_of trail its)%string.
      rewrite (pre_blanks_item _ _ _ Hit).
      now apply item_text_starter.
Qed.

Lemma many_loop_S (fuel : nat) (e : parser) (m : mode) (s : string)
  (acc : list node) :
  many_loop (S fuel) e m s acc
  = match e m s with
    | Return (rest, toks) =>
        if String.length rest <? String.length s
        then many_loop fuel e m rest (acc ++ toks)
        else Diverge
    | Raise x => if catches x then Return (s, acc) else Raise x
    | Diverge => Diverge
    end.
Proof. reflexivity. Qed.

Lemma And_cons (e : parser) (rest : list parser) (m : mode) (s : string) :
  And (e :: rest) m s
  = ('(s1, toks1) <- e m s ;;
     '(s2, toks2) <- And rest m s1 ;;
     Return (s2, toks1 ++ toks2)).
Proof. reflexivity. Qed.

Lemma pre_blanks_char (k : nat) (c : ascii) (r : string) :
  in_default_whitespace c = false ->
  pre top (run " " k ++ String c r) = String c r.
Proof.
  intros H. unfold pre. cbn [leaveWhitespace top]. rewrite preParse_blanks.
  cbn [preParse]. now rewrite H.
Qed.

Lemma preParse_twice (s : string) : preParse (preParse s) = preParse s.
Proof.
  induction s as [|c s IH]; [reflexivity|]. cbn [preParse].
  destruct (in_default_whitespace c) eqn:E; [exact IH|].
  cbn [preParse]. now rewrite E.
Qed.

Lemma strip_prefix_spaces (s : string) :
  strip_prefix SPACE_CHARS (preParse s) = None.
Proof.
  induction s as [|c s IH]; [reflexivity|]. cbn [preParse].
  destruct (in_default_whitespace c) eqn:E; [exact IH|].
  apply negb_true_iff in E. unfold SPACE_CHARS. cbn [strip_prefix].
  now rewrite (not_whitespace_not_blank c E).
Qed.

Lemma no_delimiter (e : parser) (s : string) :
  ZeroOrMore (And [Suppress (Literal SPACE_CHARS); e]) top s
  = Return (pre top s, []).
Proof.
  unfold ZeroOrMore, OneOrMore. rewrite And_cons. unfold Suppress at 1, Literal.
  unfold pre. cbn [leaveWhitespace top]. rewrite preParse_twice.
  now rewrite strip_prefix_spaces.
Qed.

Lemma span_token (u t : string) :
  token_chars u = true -> tail t -> span unquoted_word (u ++ t)%string = (u, t).
Proof.
  intros Hu [Ht _]. apply span_all; [exact Hu|].
  destruct Ht as [-> | (r & ->)]; [exact I|reflexivity].
Qed.

Lemma unquoted_loop_stops (t : string) (acc : list node) (fuel : nat) :
  tail t ->
  many_loop (S fuel)
    (MatchFirst [Literal (String backslash (String dquote ""));
                 Literal (String backslash "");
                 Word unquoted_word])
    {| doActions := true; leaveWhitespace := true |} t acc
  = Return (t, acc).
Proof.
  intros [[-> | (r & ->)] _]; reflexivity.
Qed.

Lemma Literal_backslash_token (m : mode) (lit : string) (c : ascii) (r : string) :
  unquoted_word c = true ->
  Literal (String backslash lit) m (String c r) = Raise ParseException.
Proof. intros H. destruct m as [[] []]; fails_by_char c H. Qed.

Lemma unquoted_first (u t : string) :
  u <> "" -> token_chars u = true -> tail t ->
  first_match [Literal (String backslash (String dquote ""));
               Literal (String backslash "");
               Word unquoted_word]
              {| doActions := true; leaveWhitespace := true |} (u ++ t)%string
  = Return (t, [Str u]).
Proof.
  intros Hn Hu Ht. pose proof (span_token u t Hu Ht) as Hs.
  destruct u as [|c u']; [congruence|].
  pose proof Hu as Hc. unfold token_chars in Hc. simpl in Hc.
  apply andb_prop in Hc as [Hc _].
  change (String c u' ++ t)%string with (String c (u' ++ t)) in *.
  cbn [first_match]. rewrite !Literal_backslash_token by exact Hc.
  cbn [catches]. unfold Word. cbn [pre leaveWhitespace]. rewrite Hs. reflexivity.
Qed.

Lemma unquoted_fragment_token (u t : string) :
  u <> "" -> token_chars u = true -> tail t ->
  unquoted_fragment top (u ++ t)%string = Return (t, [Fragment u 1]).
Proof.
  intros Hn Hu Ht. unfold unquoted_fragment, with_action, Combine, OneOrMore.
  rewrite (pre_token top u t Hn Hu).
  rewrite (pre_token {| doActions := doActions top; leaveWhitespace := true |}
             u t Hn Hu).
  unfold MatchFirst at 1.
  rewrite (pre_token {| doActions := doActions top; leaveWhitespace := true |}
             u t Hn Hu).
  cbn [doActions top]. rewrite (unquoted_first u t Hn Hu Ht). cbn [bind].
  rewrite (unquoted_loop_stops t [Str u] _ Ht). cbn [bind].
  simpl. now rewrite append_nil_r.
Qed.

Lemma swap_fails_at_tail (t : string) :
  tail t -> Suppress (Literal ".swap") top t = Raise ParseException.
Proof.
  intros [_ Ht]. unfold Suppress, Literal.
  destruct Ht as [-> | (c & r & -> & H)]; [reflexivity|]. fails_by_char c H.
Qed.

Lemma ends_number_not_digit (t : string) :
  ends_number t = true ->
  match t with String c _ => in_nums c = false | EmptyString => True end.
Proof.
  destruct t as [|c r]; [exact (fun _ => I)|]. cbn [ends_number]. intros H.
  apply negb_true_iff, orb_false_elim in H. tauto.
Qed.

Lemma number_numeral (k : nat) (d : numeral) (t : string) :
  is_numeral d = true -> ends_number t = true ->
  number top (run " " k ++ numeral_text d ++ t)%string
  = Return (t, [Num (PyFloat.of_string (numeral_text d))]).
Proof.
  intros Hd Ht. destruct d as [i f]. unfold is_numeral in Hd. cbn [fst snd] in Hd.
  apply andb_prop in Hd as [Hd Hf]. apply andb_prop in Hd as [Hn Hi].
  destruct i as [|c i']; [discriminate|]. clear Hn.
  pose proof Hi as Hc. cbn [list_ascii_of_string forallb] in Hc.
  apply andb_prop in Hc as [Hc _].
  pose proof (in_nums_not_whitespace c Hc) as Hw.
  pose proof (in_nums_not_sign c Hc) as Hs.
  assert (Hpre : forall u, pre top (String c u) = String c u).
  { intros u. unfold pre. cbn [leaveWhitespace top preParse]. now rewrite Hw. }
  unfold number, MatchFirst.
  destruct f as [f|]; unfold numeral_text; cbn [fst snd].
  - (* digits, a point, digits *)
    rewrite append_assoc. cbn [append].
    rewrite (pre_blanks_char k c _ Hw).
    cbn [first_match]. unfold with_action at 1. unfold Regex. rewrite Hpre.
    assert (Hreal : match_real (String c (i' ++ String "." (f ++ t)))
                    = Some ((String c i' ++ String "." f)%string, t)).
    { cbn [match_real]. rewrite Hs. unfold match_unsigned_real.
      change (String c (i' ++ String "." (f ++ t)))
        with (String c i' ++ String "." (f ++ t))%string.
      rewrite (span_all in_nums (String c i') (String "." (f ++ t)) Hi eq_refl).
      change (is_char 46 ".") with true. cbv iota.
      rewrite (span_all in_nums f t Hf (ends_number_not_digit t Ht)).
      reflexivity. }
    rewrite Hreal. cbn [bind doActions top]. reflexivity.
  - (* digits *)
    assert (Hspan : span in_nums (String c i' ++ t) = (String c i', t)).
    { apply span_all; [exact Hi|exact (ends_number_not_digit t Ht)]. }
    cbn [append]. rewrite (pre_blanks_char k c _ Hw).
    change (String c (i' ++ t)) with (String c i' ++ t)%string.
    cbn [first_match]. unfold with_action at 1. unfold Regex.
    change (String c i' ++ t)%string with (String c (i' ++ t)) at 1.
    rewrite Hpre.
    assert (Hreal : match_real (String c i' ++ t)%string = None).
    { cbn [append match_real]. rewrite Hs.
      change (String c (i' ++ t)) with (String c i' ++ t)%string.
      unfold match_unsigned_real. rewrite Hspan.
      destruct t as [|c2 r2]; [reflexivity|]. cbn [ends_number] in Ht.
      apply negb_true_iff, orb_false_elim in Ht as [_ Hp]. now rewrite Hp. }
    change (String c (i' ++ t)) with (String c i' ++ t)%string.
    rewrite Hreal. cbn [bind catches].
    unfold with_action, Word.
    change (String c i' ++ t)%string with (String c (i' ++ t)) at 1.
    rewrite Hpre.
    change (String c (i' ++ t)) with (String c i' ++ t)%string.
    rewrite Hspan. cbn [is_empty bind doActions top].
    reflexivity.
Qed.

Section words.

Variable pow : float -> nat -> float.
Variables plus minus : float.

Lemma starter_quoted_fragment (c : ascii) (r : string) :
  starter c = true ->
  quoted_fragment pow plus minus top (String c r) = Raise ParseException.
Proof. intros H. fails_by_char c H. Qed.

Lemma starter_empty_string (c : ascii) (r : string) :
  starter c = true -> empty_string top (String c r) = Raise ParseException.
Proof. intros H. fails_by_char c H. Qed.

Lemma starter_parenthesized_fragment (c : ascii) (r : string) :
  starter c = true ->
  parenthesized_fragment pow plus minus top (String c r) = Raise ParseException.
Proof. intros H. fails_by_char c H. Qed.

Lemma starter_blend (c : ascii) (r : string) :
  starter c = true ->
  blend pow plus minus top (String c r) = Raise ParseException.
Proof. intros H. fails_by_char c H. Qed.

Lemma starter_conjunction_with_parens (c : ascii) (r : string) :
  starter c = true ->
  conjunction_with_parens_and_quotes pow plus minus top (String c r)
  = Raise ParseException.
Proof. intros H. fails_by_char c H. Qed.

Lemma letter_attention (c : ascii) (r : string) :
  is_letter c = true ->
  attention pow plus minus top (String c r) = Raise ParseException.
Proof. intros H. fails_by_char c H. Qed.

Lemma original_fragment_token (u t : string) :
  u <> "" -> token_chars u = true -> tail t ->
  (exists c r, (u ++ t)%string = String c r /\ starter c = true) ->
  original_fragment pow plus minus top (u ++ t)%string
  = Return (t, [Fragment u 1]).
Proof.
  intros Hn Hu Ht (c & r & E & Hc). unfold original_fragment, MatchFirst.
  rewrite (pre_token top u t Hn Hu).
  pose proof (unquoted_fragment_token u t Hn Hu Ht) as Hf.
  rewrite E in *. cbn [first_match].
  rewrite (starter_empty_string c _ Hc). cbn [catches].
  rewrite (starter_quoted_fragment c _ Hc). cbn [catches].
  rewrite (starter_parenthesized_fragment c _ Hc). cbn [catches].
  now rewrite Hf.
Qed.

Lemma cross_attention_substitute_token (u t : string) :
  u <> "" -> token_chars u = true -> tail t ->
  (exists c r, (u ++ t)%string = String c r /\ starter c = true) ->
  cross_attention_substitute pow plus minus top (u ++ t)%string
  = Raise ParseException.
Proof.
  intros Hn Hu Ht Hs. unfold cross_attention_substitute, with_action.
  cbn [And]. rewrite (original_fragment_token u t Hn Hu Ht Hs). cbn [bind].
  now rewrite (swap_fails_at_tail t Ht).
Qed.

Lemma prompt_part_plain (w t : string) :
  plain_word w = true -> tail t ->
  first_match [cross_attention_substitute pow plus minus;
               attention pow plus minus;
               quoted_fragment pow plus minus;
               unquoted_fragment] top (w ++ t)%string
  = Return (t, [Fragment w 1]).
Proof.
  intros Hw Ht. destruct (plain_word_token w Hw) as [Hn Hu].
  pose proof (unquoted_fragment_token w t Hn Hu Ht) as Hf.
  assert (Hs : exists c r, (w ++ t)%string = String c r /\ starter c = true)
    by exact (item_text_starter (one_word None w) t Hw).
  pose proof (cross_attention_substitute_token w t Hn Hu Ht Hs) as Hx.
  destruct w as [|c w']; [discriminate|].
  pose proof Hw as Hc. simpl in Hc. apply andb_prop in Hc as [Hc _].
  change (String c w' ++ t)%string with (String c (w' ++ t)) in *.
  cbn [first_match]. rewrite Hx. cbn [catches].
  rewrite (letter_attention c _ Hc). cbn [catches].
  rewrite (starter_quoted_fragment c _ (letter_starter c Hc)). cbn [catches].
  now rewrite Hf.
Qed.

Lemma number_at_sign (p : bool) (c : ascii) (r : string) :
  c = sign_char p \/ after_head c = true ->
  number top (String (sign_char p) (String c r)) = Raise ParseException.
Proof.
  intros [-> | H]; destruct p;
    [vm_compute; reflexivity | vm_compute; reflexivity
    | fails_by_char c H | fails_by_char c H].
Qed.

Lemma nested_expr_letter (content : parser) (c : ascii) (r : string) :
  is_letter c = true ->
  nested_expr content top (String c r) = Raise ParseException.
Proof. intros H. fails_by_char c H. Qed.

Lemma sign_run_next (p : bool) (n : nat) (c : ascii) (r : string) :
  after_head c = true ->
  exists c' r', (run (sign_char p) n ++ String c r)%string = String c' r'
                /\ (c' = sign_char p \/ after_head c' = true).
Proof.
  intros Hc. destruct n as [|n]; simpl.
  - exists c, r. auto.
  - exists (sign_char p). eexists. split; [reflexivity|auto].
Qed.

Lemma sign_head_at (p : bool) (n : nat) (c : ascii) (r : string) :
  after_head c = true ->
  first_match [Word (is_char 43); Word (is_char 45)] top
              (run (sign_char p) (S n) ++ String c r)%string
  = Return (String c r, [Str (run (sign_char p) (S n))]).
Proof.
  intros Hc. cbn [first_match]. destruct p.
  - change (sign_char true) with (ascii_of_nat 43).
    rewrite (Word_sign_run 43 n (String c r) top (or_introl eq_refl));
      [reflexivity|].
    cbn [starts_with]. now apply after_head_not_plus.
  - change (Word (is_char 43) top (run (sign_char false) (S n) ++ String c r)%string)
      with (@Raise (string * list node) ParseException).
    cbn [catches]. change (sign_char false) with (ascii_of_nat 45).
    rewrite (Word_sign_run 45 n (String c r) top (or_intror eq_refl));
      [reflexivity|].
    cbn [starts_with]. now apply after_head_not_minus.
Qed.

Lemma attention_head_at (p : bool) (n : nat) (c : ascii) (r : string) :
  after_head c = true ->
  attention_head top (run (sign_char p) (S n) ++ String c r)%string
  = Return (String c r, [Str (run (sign_char p) (S n))]).
Proof.
  intros Hc. unfold attention_head, MatchFirst.
  assert (Hpre : pre top (run (sign_char p) (S n) ++ String c r)
                 = (run (sign_char p) (S n) ++ String c r)%string)
    by now destruct p.
  rewrite Hpre. cbn [first_match].
  destruct (sign_run_next p n c r Hc) as (c' & r' & E & Hc').
  assert (Hn : number top (run (sign_char p) (S n) ++ String c r)%string
               = Raise ParseException).
  { change (run (sign_char p) (S n) ++ String c r)%string
      with (String (sign_char p) (run (sign_char p) n ++ String c r)).
    rewrite E. exact (number_at_sign p c' r' Hc'). }
  rewrite Hn. cbn [catches]. exact (sign_head_at p n c r Hc).
Qed.

Lemma plain_word_first (w t : string) :
  plain_word w = true ->
  exists c r, (w ++ t)%string = String c r /\ is_letter c = true.
Proof.
  destruct w as [|c w']; [discriminate|]. simpl. intros H.
  apply andb_prop in H as [Hc _]. exists c. eexists. split; [reflexivity|exact Hc].
Qed.

Lemma sign_head (p : bool) (n : nat) (w t : string) :
  plain_word w = true ->
  first_match [Word (is_char 43); Word (is_char 45)] top
              (run (sign_char p) (S n) ++ w ++ t)%string
  = Return ((w ++ t)%string, [Str (run (sign_char p) (S n))]).
Proof.
  intros Hw. destruct (plain_word_first w t Hw) as (c & r & -> & Hc).
  exact (sign_head_at p n c r (letter_after_head c Hc)).
Qed.

Lemma attention_head_sign (p : bool) (n : nat) (w t : string) :
  plain_word w = true ->
  attention_head top (run (sign_char p) (S n) ++ w ++ t)%string
  = Return ((w ++ t)%string, [Str (run (sign_char p) (S n))]).
Proof.
  intros Hw. destruct (plain_word_first w t Hw) as (c & r & -> & Hc).
  exact (attention_head_at p n c r (letter_after_head c Hc)).
Qed.

Lemma attention_with_parens_sign (p : bool) (n : nat) (w t : string) :
  plain_word w = true ->
  attention_with_parens pow plus minus top
    (run (sign_char p) (S n) ++ w ++ t)%string
  = Raise ParseException.
Proof.
  intros Hw. unfold attention_with_parens.
  rewrite attention_with_parens_fuel_S. unfold with_action. cbn [And].
  rewrite (attention_head_sign p n w t Hw). cbn [bind].
  destruct w as [|c w']; [discriminate|].
  pose proof Hw as Hc. simpl in Hc. apply andb_prop in Hc as [Hc _].
  change (String c w' ++ t)%string with (String c (w' ++ t)).
  now rewrite (nested_expr_letter _ c _ Hc).
Qed.

Lemma bare_word_chars (w : string) :
  bare_word w = true ->
  forallb (fun c => negb (inside_attention_excluded c)) (list_ascii_of_string w)
  = true.
Proof.
  destruct w as [|c w']; [discriminate|]. simpl. intros H.
  apply andb_prop in H as [Hc Hw].
  pose proof (letter_bare_char c Hc) as Hb. unfold bare_char in Hb.
  apply andb_prop in Hb as [_ ->]. simpl.
  rewrite forallb_forall in *. intros x Hx. specialize (Hw x Hx).
  unfold bare_char in Hw. now apply andb_prop in Hw as [_ Hw].
Qed.

Lemma CharsNotIn_bare_at (w t : string) :
  bare_word w = true -> ends_word t = true ->
  CharsNotIn inside_attention_excluded top (w ++ t)%string
  = Return (t, [Str w]).
Proof.
  intros Hw Ht. unfold CharsNotIn.
  rewrite (span_all _ w t (bare_word_chars w Hw)).
  - destruct w; [discriminate|reflexivity].
  - destruct t as [|c r]; [exact I|]. cbn [ends_word] in Ht. now rewrite Ht.
Qed.

Lemma tail_ends_word (t : string) : tail t -> ends_word t = true.
Proof. intros [[-> | (r & ->)] _]; reflexivity. Qed.

Lemma CharsNotIn_bare (w t : string) :
  bare_word w = true -> tail t ->
  CharsNotIn inside_attention_excluded top (w ++ t)%string
  = Return (t, [Str w]).
Proof. intros Hw Ht. exact (CharsNotIn_bare_at w t Hw (tail_ends_word t Ht)). Qed.

Lemma attention_without_parens_sign (p : bool) (n : nat) (w t : string) :
  bare_word w = true -> tail t ->
  attention_without_parens pow plus minus top
    (run (sign_char p) (S n) ++ w ++ t)%string
  = Return (t, [item_token pow plus minus (one_word (Some (p, n)) w)]).
Proof.
  intros Hw Ht. pose proof (bare_word_plain w Hw) as Hp.
  unfold attention_without_parens, with_action. cbn [And].
  unfold MatchFirst at 1.
  assert (Hpre : pre top (run (sign_char p) (S n) ++ w ++ t)
                 = (run (sign_char p) (S n) ++ w ++ t)%string)
    by now destruct p.
  rewrite Hpre, (sign_head p n w t Hp). cbn [bind].
  rewrite (CharsNotIn_bare w t Hw Ht). cbn [bind doActions top].
  cbn [make_fragment all_strings for_each bind app join tokens_of].
  rewrite (make_attention_sign pow plus minus (sign_char p) n).
  unfold item_token, sign_weight. cbn [tokens_of].
  now destruct p.
Qed.

Lemma prompt_part_signed (p : bool) (n : nat) (w t : string) :
  bare_word w = true -> tail t ->
  first_match [cross_attention_substitute pow plus minus;
               attention pow plus minus;
               quoted_fragment pow plus minus;
               unquoted_fragment] top
              (run (sign_char p) (S n) ++ w ++ t)%string
  = Return (t, [item_token pow plus minus (one_word (Some (p, n)) w)]).
Proof.
  intros Hw Ht.
  destruct (word_text_token (Some (p, n)) w Hw) as [Hn Hu].
  pose proof (item_text_starter (one_word (Some (p, n)) w) t Hw) as Hs.
  cbn [item_text] in Hs.
  pose proof (cross_attention_substitute_token _ t Hn Hu Ht Hs) as Hx.
  cbn [sign_text] in Hx. rewrite append_assoc in Hx.
  cbn [first_match]. rewrite Hx. cbn [catches].
  unfold attention, MatchFirst.
  assert (Hpre : pre top (run (sign_char p) (S n) ++ w ++ t)
                 = (run (sign_char p) (S n) ++ w ++ t)%string)
    by now destruct p.
  rewrite Hpre. cbn [first_match].
  rewrite (attention_with_parens_sign p n w t (bare_word_plain w Hw)).
  cbn [catches].
  now rewrite (attention_without_parens_sign p n w t Hw Ht).
Qed.

Lemma attention_head_group (h : head) (r : string) :
  valid_head h = true ->
  exists tok,
    attention_head top (head_text h ++ String "(" r)%string
    = Return (String "(" r, [tok])
    /\ forall body,
         make_attention pow plus minus (ParseResults [tok; body])
         = Return (Attention (head_weight pow plus minus h) body).
Proof.
  destruct h as [p n|d]; cbn [valid_head head_text head_weight]; intros H.
  - exists (Str (run (sign_char p) (S n))).
    split; [exact (attention_head_at p n "(" r eq_refl)|].
    intros body. rewrite make_attention_sign. now destruct p.
  - exists (Num (PyFloat.of_string (numeral_text d))).
    split; [|reflexivity].
    unfold attention_head, MatchFirst.
    destruct (numeral_first d H) as (c & u & E & Hc).
    assert (Hpre : pre top (numeral_text d ++ String "(" r)
                   = (numeral_text d ++ String "(" r)%string).
    { rewrite E. cbn [append]. unfold pre. cbn [leaveWhitespace top preParse].
      now rewrite (in_nums_not_whitespace c Hc). }
    rewrite Hpre. cbn [first_match].
    pose proof (number_numeral 0 d (String "(" r) H eq_refl) as Hn.
    change (run " " 0 ++ ?x)%string with x in Hn. now rewrite Hn.
Qed.

Lemma letter_quoted_string (c : ascii) (r : string) :
  is_letter c = true -> quoted_string top (String c r) = Raise ParseException.
Proof. intros H. fails_by_char c H. Qed.

Lemma close_quoted_string (r : string) :
  quoted_string top (String ")" r) = Raise ParseException.
Proof. reflexivity. Qed.

Lemma close_fragment_inside_attention (r : string) :
  fragment_inside_attention top (String ")" r) = Raise ParseException.
Proof. reflexivity. Qed.

Lemma pre_letter (c : ascii) (r : string) :
  is_letter c = true -> pre top (String c r) = String c r.
Proof.
  intros H. unfold pre. cbn [leaveWhitespace top preParse].
  now rewrite (starter_not_whitespace c (letter_starter c H)).
Qed.

Lemma fragment_inside_attention_bare (w t : string) :
  bare_word w = true -> ends_word t = true ->
  fragment_inside_attention top (w ++ t)%string = Return (t, [Fragment w 1]).
Proof.
  intros Hw Ht. unfold fragment_inside_attention, with_action.
  rewrite (CharsNotIn_bare_at w t Hw Ht). cbn [bind doActions top].
  cbn [make_fragment all_strings for_each bind app join tokens_of].
  reflexivity.
Qed.

Lemma ends_word_inner_rest (ws : list (nat * string)) (t : string) :
  ends_word (inner_rest ws ++ String ")" t) = true.
Proof. destruct ws as [|[k w] rest]; reflexivity. Qed.

Lemma pre_inner_rest (k : nat) (w : string) (rest : list (nat * string))
  (t : string) :
  bare_word w = true ->
  pre top (inner_rest ((k, w) :: rest) ++ String ")" t)
  = (w ++ inner_rest rest ++ String ")" t)%string.
Proof.
  intros Hw.
  destruct (plain_word_first w (inner_rest rest ++ String ")" t)
              (bare_word_plain w Hw)) as (c & r & E & Hc).
  cbn [inner_rest].
  change (String " " (run " " k ++ w ++ inner_rest rest) ++ String ")" t)%string
    with ((run " " (S k) ++ w ++ inner_rest rest) ++ String ")" t)%string.
  rewrite !append_assoc, E.
  apply pre_blanks_char. exact (starter_not_whitespace c (letter_starter c Hc)).
Qed.

Section group_body.

Variables ret inner : parser.
Variable bound : nat.
Hypothesis ret_letter : forall c r,
  is_letter c = true -> String.length (String c r) < bound ->
  ret top (String c r) = Raise ParseException.
Hypothesis ret_close : forall r,
  String.length (String ")" r) < bound ->
  ret top (String ")" r) = Raise ParseException.
Hypothesis inner_letter : forall c r,
  is_letter c = true -> String.length (String c r) < bound ->
  inner top (String c r) = Raise ParseException.
Hypothesis inner_close : forall r,
  String.length (String ")" r) < bound ->
  inner top (String ")" r) = Raise ParseException.

Lemma group_item_word (w t : string) :
  bare_word w = true -> ends_word t = true ->
  String.length (w ++ t) < bound ->
  group_item ret inner top (w ++ t)%string = Return (pre top t, [Fragment w 1]).
Proof.
  intros Hw Ht Hb.
  pose proof (fragment_inside_attention_bare w t Hw Ht) as Hf.
  destruct (plain_word_first w t (bare_word_plain w Hw)) as (c & r & E & Hc).
  rewrite E in *. unfold group_item. unfold MatchFirst at 1.
  rewrite (pre_letter c r Hc). cbn [first_match].
  rewrite (letter_quoted_string c r Hc). cbn [catches].
  rewrite (ret_letter c r Hc Hb). cbn [catches].
  unfold delimited_list. rewrite And_cons. unfold MatchFirst.
  rewrite (pre_letter c r Hc). cbn [first_match].
  rewrite (inner_letter c r Hc Hb). cbn [catches]. rewrite Hf. cbn [bind].
  rewrite And_cons, no_delimiter. cbn [bind And app]. reflexivity.
Qed.

Lemma group_item_close (t : string) :
  String.length (String ")" t) < bound ->
  group_item ret inner top (String ")" t) = Raise ParseException.
Proof.
  intros Hb. unfold group_item. unfold MatchFirst at 1.
  change (pre top (String ")" t)) with (String ")" t). cbn [first_match].
  rewrite close_quoted_string. cbn [catches].
  rewrite (ret_close t Hb). cbn [catches].
  unfold delimited_list. rewrite And_cons. unfold MatchFirst.
  change (pre top (String ")" t)) with (String ")" t). cbn [first_match].
  rewrite (inner_close t Hb). cbn [catches].
  rewrite close_fragment_inside_attention. reflexivity.
Qed.

Lemma group_loop (ws : list (nat * string)) (t : string) :
  forallb bare_word (map snd ws) = true ->
  forall fuel acc,
    String.length (pre top (inner_rest ws ++ String ")" t)) < fuel ->
    String.length (inner_rest ws ++ String ")" t) < bound ->
    many_loop fuel (group_item ret inner) top
              (pre top (inner_rest ws ++ String ")" t)) acc
    = Return (String ")" t, acc ++ map (fun w => Fragment w 1) (map snd ws)).
Proof.
  induction ws as [|[k w] rest IH]; intros Hws fuel acc Hf Hb.
  - cbn [inner_rest append] in *.
    change (pre top (String ")" t)) with (String ")" t).
    destruct fuel as [|fuel]; [inversion Hf|].
    rewrite many_loop_S, (group_item_close t Hb). cbn [catches map].
    now rewrite app_nil_r.
  - cbn [map snd forallb] in Hws. apply andb_prop in Hws as [Hw Hrest].
    rewrite (pre_inner_rest k w rest t Hw) in *.
    assert (Hlen : String.length (inner_rest ((k, w) :: rest) ++ String ")" t)
                   = S (k + String.length
                              (w ++ inner_rest rest ++ String ")" t))).
    { cbn [inner_rest append String.length].
      rewrite !length_append, length_run. lia. }
    rewrite Hlen in Hb.
    destruct fuel as [|fuel]; [inversion Hf|].
    rewrite many_loop_S.
    rewrite (group_item_word w _ Hw (ends_word_inner_rest rest t)) by lia.
    pose proof (length_pre top (inner_rest rest ++ String ")" t)) as Hp.
    assert (Hw1 : 0 < String.length w)
      by (destruct w; [discriminate|cbn [String.length]; lia]).
    rewrite length_append in Hf, Hb.
    assert (Hlt : String.length (pre top (inner_rest rest ++ String ")" t))
                  < String.length (w ++ inner_rest rest ++ String ")" t)).
    { rewrite length_append. lia. }
    apply Nat.ltb_lt in Hlt. rewrite Hlt.
    rewrite (IH Hrest); [|lia|lia].
    cbn [map snd]. now rewrite <- app_assoc.
Qed.

Lemma group_items (w : string) (ws : list (nat * string)) (t : string) :
  bare_word w = true -> forallb bare_word (map snd ws) = true ->
  String.length (w ++ inner_rest ws ++ String ")" t) < bound ->
  ZeroOrMore (group_item ret inner) top (w ++ inner_rest ws ++ String ")" t)%string
  = Return (String ")" t, map (fun w => Fragment w 1) (w :: map snd ws)).
Proof.
  intros Hw Hws Hb. unfold ZeroOrMore, OneOrMore.
  destruct (plain_word_first w (inner_rest ws ++ String ")" t)
              (bare_word_plain w Hw)) as (c & r & E & Hc).
  assert (Hpre : pre top (w ++ inner_rest ws ++ String ")" t)
                 = (w ++ inner_rest ws ++ String ")" t)%string)
    by (rewrite E; exact (pre_letter c r Hc)).
  rewrite Hpre.
  rewrite (group_item_word w _ Hw (ends_word_inner_rest ws t) Hb). cbn [bind].
  rewrite (group_loop ws t Hws).
  - reflexivity.
  - lia.
  - rewrite length_append in Hb. lia.
Qed.

End group_body.

Lemma nested_expr_fuel_letter (f : nat) (content : parser) (c : ascii)
  (r : string) :
  is_letter c = true ->
  nested_expr_fuel (S f) content top (String c r) = Raise ParseException.
Proof. intros H. fails_by_char c H. Qed.

Lemma nested_expr_fuel_close (f : nat) (content : parser) (r : string) :
  nested_expr_fuel (S f) content top (String ")" r) = Raise ParseException.
Proof. reflexivity. Qed.

Lemma attention_with_parens_fuel_letter (f : nat) (c : ascii) (r : string) :
  is_letter c = true ->
  attention_with_parens_fuel pow plus minus (S f) top (String c r)
  = Raise ParseException.
Proof. intros H. fails_by_char c H. Qed.

Lemma attention_with_parens_fuel_close (f : nat) (r : string) :
  attention_with_parens_fuel pow plus minus (S f) top (String ")" r)
  = Raise ParseException.
Proof. reflexivity. Qed.

Lemma guard_at (outer : string) (e : parser) (s : string) :
  String.length s < String.length outer -> guard outer e top s = e top s.
Proof. intros H. unfold guard. apply Nat.ltb_lt in H. now rewrite H. Qed.

Lemma nested_expr_group (inner : parser) (w : string)
  (ws : list (nat * string)) (t : string) :
  (forall c r,
      is_letter c = true ->
      String.length (String c r)
      < String.length (String "(" (w ++ inner_rest ws ++ String ")" t)) ->
      inner top (String c r) = Raise ParseException) ->
  (forall r,
      String.length (String ")" r)
      < String.length (String "(" (w ++ inner_rest ws ++ String ")" t)) ->
      inner top (String ")" r) = Raise ParseException) ->
  bare_word w = true -> forallb bare_word (map snd ws) = true ->
  nested_expr (delimited_list (MatchFirst [inner; fragment_inside_attention])
                              SPACE_CHARS) top
              (String "(" (w ++ inner_rest ws ++ String ")" t))
  = Return (t, [ParseResults (map (fun w => Fragment w 1) (w :: map snd ws))]).
Proof.
  intros Hl Hc Hw Hws. unfold nested_expr. rewrite nested_expr_fuel_S.
  change (MatchFirst [quoted_string; ?ret; delimited_list ?e SPACE_CHARS])
    with (group_item ret inner).
  unfold Group. rewrite And_cons.
  change (Suppress (Literal "(") top (String "(" ?u))
    with (@Return (string * list node) (u, [])).
  cbn [bind]. rewrite And_cons.
  rewrite (group_items _ inner
             (String.length (String "(" (w ++ inner_rest ws ++ String ")" t)))).
  - cbn [bind]. rewrite And_cons.
    change (Suppress (Literal ")") top (String ")" t))
      with (@Return (string * list node) (t, [])).
    cbn [bind And app]. now rewrite app_nil_r.
  - intros c r Hlet Hb. rewrite (guard_at _ _ _ Hb).
    cbn [String.length]. now apply nested_expr_fuel_letter.
  - intros r Hb. rewrite (guard_at _ _ _ Hb).
    cbn [String.length]. apply nested_expr_fuel_close.
  - exact Hl.
  - exact Hc.
  - exact Hw.
  - exact Hws.
  - cbn [String.length]. lia.
Qed.

Lemma attention_with_parens_group (h : head) (w : string)
  (ws : list (nat * string)) (t : string) :
  valid_head h = true -> bare_word w = true ->
  forallb bare_word (map snd ws) = true ->
  attention_with_parens pow plus minus top
    (head_text h ++ String "(" (w ++ inner_rest ws ++ String ")" t))%string
  = Return (t, [item_token pow plus minus (word_group h w ws)]).
Proof.
  intros Hh Hw Hws. unfold attention_with_parens.
  rewrite attention_with_parens_fuel_S. unfold with_action. rewrite And_cons.
  destruct (attention_head_group h (w ++ inner_rest ws ++ String ")" t) Hh)
    as (tok & Hhead & Hmake).
  rewrite Hhead. cbn [bind]. rewrite And_cons.
  assert (Hlen : forall u,
             String.length u
             < String.length (String "(" (w ++ inner_rest ws ++ String ")" t)) ->
             String.length u
             < String.length
                 (head_text h ++ String "(" (w ++ inner_rest ws ++ String ")" t))).
  { intros u Hu. rewrite length_append. lia. }
  assert (Hfuel : exists f,
             String.length
               (head_text h ++ String "(" (w ++ inner_rest ws ++ String ")" t))
             = S f).
  { rewrite length_append. cbn [String.length]. eexists.
    rewrite Nat.add_succ_r. reflexivity. }
  destruct Hfuel as (f & Hf).
  rewrite (nested_expr_group _ w ws t).
  - cbn [bind And app doActions top]. rewrite Hmake. reflexivity.
  - intros c r Hlet Hb. rewrite (guard_at _ _ _ (Hlen _ Hb)), Hf.
    now apply attention_with_parens_fuel_letter.
  - intros r Hb. rewrite (guard_at _ _ _ (Hlen _ Hb)), Hf.
    apply attention_with_parens_fuel_close.
  - exact Hw.
  - exact Hws.
Qed.

Lemma group_text (h : head) (w : string) (ws : list (nat * string))
  (t : string) :
  (item_text (word_group h w ws) ++ t)%string
  = (head_text h ++ String "(" (w ++ inner_rest ws ++ String ")" t))%string.
Proof.
  cbn [item_text]. rewrite append_assoc. cbn [append].
  now rewrite !append_assoc.
Qed.

Lemma pre_starter (c : ascii) (r : string) :
  starter c = true -> pre top (String c r) = String c r.
Proof.
  intros H. unfold pre. cbn [leaveWhitespace top preParse].
  now rewrite (starter_not_whitespace c H).
Qed.

Lemma group_first_chunk (h : head) (w : string) (ws : list (nat * string))
  (t : string) :
  valid_head h = true -> bare_word w = true ->
  forallb bare_word (map snd ws) = true -> tail t ->
  exists u t',
    (head_text h ++ String "(" (w ++ inner_rest ws ++ String ")" t))%string
    = (u ++ t')%string
    /\ u <> "" /\ token_chars u = true /\ tail t'.
Proof.
  intros Hh Hw Hws Ht.
  destruct (head_text_first h Hh) as (c & r & Eh & Hc).
  pose proof (head_text_token h Hh) as Hth.
  destruct (plain_word_token w (bare_word_plain w Hw)) as [_ Htw].
  unfold token_chars in *.
  destruct ws as [|[k w2] rest].
  - exists (head_text h ++ String "(" (w ++ ")"))%string, t.
    split; [|split; [|split]].
    + cbn [inner_rest append]. rewrite append_assoc. cbn [append].
      rewrite append_assoc. reflexivity.
    + rewrite Eh. discriminate.
    + rewrite forallb_chars_append, Hth. cbn [list_ascii_of_string forallb andb].
      rewrite forallb_chars_append, Htw. reflexivity.
    + exact Ht.
  - cbn [map snd forallb] in Hws. apply andb_prop in Hws as [Hw2 Hrest].
    exists (head_text h ++ String "(" w)%string,
           (inner_rest ((k, w2) :: rest) ++ String ")" t)%string.
    split; [|split; [|split]].
    + rewrite append_assoc. reflexivity.
    + rewrite Eh. discriminate.
    + rewrite forallb_chars_append, Hth. cbn [list_ascii_of_string forallb andb].
      exact Htw.
    + split.
      * right. cbn [inner_rest append]. eexists. reflexivity.
      * right. rewrite (pre_inner_rest k w2 rest t Hw2).
        destruct (plain_word_first w2 (inner_rest rest ++ String ")" t)
                    (bare_word_plain w2 Hw2)) as (c2 & r2 & E2 & Hc2).
        exists c2, r2. split; [exact E2|exact (letter_starter c2 Hc2)].
Qed.

Lemma prompt_part_group (h : head) (w : string) (ws : list (nat * string))
  (t : string) :
  valid_head h = true -> bare_word w = true ->
  forallb bare_word (map snd ws) = true -> tail t ->
  first_match [cross_attention_substitute pow plus minus;
               attention pow plus minus;
               quoted_fragment pow plus minus;
               unquoted_fragment] top
              (item_text (word_group h w ws) ++ t)%string
  = Return (t, [item_token pow plus minus (word_group h w ws)]).
Proof.
  intros Hh Hw Hws Ht. rewrite group_text.
  destruct (group_first_chunk h w ws t Hh Hw Hws Ht) as (u & t' & E & Hn & Hu & Ht').
  destruct (head_text_first h Hh) as (c & r & Eh & Hc).
  assert (Hs : exists c r, (u ++ t')%string = String c r /\ starter c = true).
  { rewrite <- E, Eh. eexists _, _. split; [reflexivity|exact Hc]. }
  pose proof (cross_attention_substitute_token u t' Hn Hu Ht' Hs) as Hx.
  rewrite <- E in Hx.
  cbn [first_match]. rewrite Hx. cbn [catches].
  unfold attention, MatchFirst.
  assert (Hpre : pre top (head_text h ++ String "(" (w ++ inner_rest ws ++ String ")" t))
                 = (head_text h ++ String "(" (w ++ inner_rest ws ++ String ")" t))%string).
  { rewrite Eh. exact (pre_starter c _ Hc). }
  rewrite Hpre. cbn [first_match].
  now rewrite (attention_with_parens_group h w ws t Hh Hw Hws).
Qed.

Lemma prompt_part_item (s : string) (it : item) (t : string) :
  valid_item it = true -> tail t -> pre top s = (item_text it ++ t)%string ->
  prompt_part pow plus minus top s = Return (t, [item_token pow plus minus it]).
Proof.
  intros Hit Ht Hs. unfold prompt_part, MatchFirst. rewrite Hs.
  destruct it as [[[p n]|] w|h w ws].
  - cbn [item_text sign_text valid_item] in *. rewrite append_assoc.
    now apply prompt_part_signed.
  - now apply prompt_part_plain.
  - cbn [valid_item] in Hit. apply andb_prop in Hit as [Hit Hws].
    apply andb_prop in Hit as [Hh Hw]. now apply prompt_part_group.
Qed.

Lemma prompt_part_end : prompt_part pow plus minus top "" = Raise ParseException.
Proof. vm_compute. reflexivity. Qed.

Lemma prompt_part_blank (s : string) :
  pre top s = "" -> prompt_part pow plus minus top s = Raise ParseException.
Proof.
  intros H. unfold prompt_part, MatchFirst. rewrite H. exact prompt_part_end.
Qed.

Lemma prompt_part_loop (trail : nat) (its : list (nat * item)) :
  all_valid its = true ->
  forall fuel acc,
    String.length (tail_of trail its) < fuel ->
    many_loop fuel (prompt_part pow plus minus) top (tail_of trail its) acc
    = Return (run " " trail,
              acc ++ map (fun kit => item_token pow plus minus (snd kit)) its).
Proof.
  induction its as [|[k it] its IH]; intros Hits fuel acc Hf.
  - destruct fuel as [|fuel]; [inversion Hf|].
    rewrite many_loop_S. cbn [tail_of].
    rewrite (prompt_part_blank _ (pre_blanks trail)). cbn [catches map].
    now rewrite app_nil_r.
  - simpl in Hits. apply andb_prop in Hits as [Hit Hits]. simpl in Hit.
    destruct fuel as [|fuel]; [inversion Hf|].
    rewrite many_loop_S. cbn [tail_of].
    rewrite (prompt_part_item
               (String " " (run " " k ++ item_text it ++ tail_of trail its))
               it (tail_of trail its) Hit (tail_tail_of trail its Hits)
               (pre_blanks_item (S k) _ _ Hit)).
    assert (Hlen : String.length (tail_of trail its)
                   < String.length
                       (String " " (run " " k ++ item_text it ++ tail_of trail its))).
    { simpl. rewrite !length_append. lia. }
    apply Nat.ltb_lt in Hlen. rewrite Hlen.
    rewrite IH; [|exact Hits|].
    + cbn [map snd]. now rewrite <- app_assoc.
    + simpl in Hf. rewrite !length_append in Hf. lia.
Qed.

Lemma OneOrMore_prompt_part (trail : nat) (it : item) (its : list (nat * item)) :
  valid_item it = true -> all_valid its = true ->
  OneOrMore (prompt_part pow plus minus) top (item_text it ++ tail_of trail its)%string
  = Return (run " " trail,
            item_token pow plus minus it
            :: map (fun kit => item_token pow plus minus (snd kit)) its).
Proof.
  intros Hit Hits. unfold OneOrMore.
  rewrite (prompt_part_item _ it (tail_of trail its) Hit (tail_tail_of trail its Hits)
             (eq_trans (f_equal (pre top) (pre_item _ _ Hit))
                       (pre_item _ _ Hit))).
  cbn [bind]. now rewrite prompt_part_loop by (auto; lia).
Qed.

Lemma item_token_prompt_item (it : item) :
  prompt_item (item_token pow plus minus it) = true.
Proof. now destruct it as [[[p n]|] w|h w ws]. Qed.

Lemma Prompt_init_tokens (l : list item) :
  Prompt_init (ParseResults (map (item_token pow plus minus) l))
  = Return (Prompt (ParseResults (map (item_token pow plus minus) l))).
Proof.
  rewrite (Prompt_init_spec (ParseResults (map (item_token pow plus minus) l))
             (map (item_token pow plus minus) l) eq_refl).
  replace (forallb prompt_item (map (item_token pow plus minus) l)) with true;
    [reflexivity|].
  symmetry. apply forallb_forall. intros x Hx.
  apply in_map_iff in Hx as (it & <- & _). apply item_token_prompt_item.
Qed.

Lemma StringEnd_blanks (k : nat) : StringEnd top (run " " k) = Return ("", []).
Proof. unfold StringEnd. now rewrite pre_blanks. Qed.

Lemma prompt_items (trail : nat) (it : item) (its : list (nat * item)) :
  valid_item it = true -> all_valid its = true ->
  prompt pow plus minus top (item_text it ++ tail_of trail its)%string
  = Return ("", [Prompt (ParseResults
                           (map (item_token pow plus minus)
                                (it :: map snd its)))]).
Proof.
  intros Hit Hits.
  unfold prompt, with_action. cbn [And].
  unfold Group, MatchFirst. rewrite (pre_item _ _ Hit). cbn [first_match].
  rewrite (OneOrMore_prompt_part trail it its Hit Hits). cbn [bind].
  rewrite StringEnd_blanks.
  cbn [bind doActions top app]. cbn [py_getitem py_iter bind nth_error].
  cbn [map]. rewrite <- (map_map snd (item_token pow plus minus)).
  pose proof (Prompt_init_tokens (it :: map snd its)) as Hp. cbn [map] in Hp.
  now rewrite Hp.
Qed.

Lemma branch_end :
  MatchFirst [blend pow plus minus; prompt pow plus minus] top ""
  = Raise ParseException.
Proof. vm_compute. reflexivity. Qed.

Lemma implicit_conjunction_items (trail : nat) (it : item)
  (its : list (nat * item)) :
  valid_item it = true -> all_valid its = true ->
  implicit_conjunction pow plus minus top (item_text it ++ tail_of trail its)%string
  = Return ("", [Conjunction
                   [Prompt (ParseResults
                              (map (item_token pow plus minus)
                                   (it :: map snd its)))]
                   [Num 1]]).
Proof.
  intros Hit Hits.
  unfold implicit_conjunction, with_action, OneOrMore.
  rewrite (pre_item _ _ Hit). unfold MatchFirst at 1.
  rewrite (pre_item _ _ Hit).
  pose proof (prompt_items trail it its Hit Hits) as Hp.
  destruct (item_text_starter it (tail_of trail its) Hit) as (c & r & E & Hc).
  rewrite E in *.
  cbn [first_match]. rewrite (starter_blend c _ Hc). cbn [catches].
  rewrite Hp. cbn [bind]. rewrite many_loop_S, branch_end. cbn [catches bind].
  reflexivity.
Qed.

Lemma conjunction_items (s : string) (trail : nat) (it : item)
  (its : list (nat * item)) :
  valid_item it = true -> all_valid its = true ->
  pre top s = (item_text it ++ tail_of trail its)%string ->
  conjunction pow plus minus top s
  = Return ("", [Conjunction
                   [Prompt (ParseResults
                              (map (item_token pow plus minus)
                                   (it :: map snd its)))]
                   [Num 1]]).
Proof.
  intros Hit Hits Hs. unfold conjunction, MatchFirst. rewrite Hs.
  pose proof (implicit_conjunction_items trail it its Hit Hits) as Hi.
  destruct (item_text_starter it (tail_of trail its) Hit) as (c & r & E & Hc).
  rewrite E in *.
  cbn [first_match]. rewrite (starter_conjunction_with_parens c _ Hc).
  cbn [catches]. now rewrite Hi.
Qed.

Lemma flatten_fragments_at (scale : float) (ws : list string)
  (acc : list node) :
  for_each (fun c r => flatten_internal c scale r)
           (map (fun w => Fragment w 1) ws) acc
  = Return (acc ++ map (fun w => Fragment w scale) ws).
Proof.
  revert acc. induction ws as [|w ws IH]; intros acc; cbn [map].
  - cbn [for_each]. now rewrite app_nil_r.
  - change (for_each (fun c r => flatten_internal c scale r)
              (Fragment w 1 :: map (fun w => Fragment w 1) ws) acc)
      with (bind (flatten_internal (Fragment w 1) scale acc)
                 (for_each (fun c r => flatten_internal c scale r)
                           (map (fun w => Fragment w 1) ws))).
    cbn [flatten_internal bind]. rewrite float_mul_1_l, IH.
    now rewrite <- app_assoc.
Qed.

Lemma flatten_internal_token (it : item) (acc : list node) :
  flatten_internal (item_token pow plus minus it) 1 acc
  = Return (acc ++ item_fragments pow plus minus it).
Proof.
  destruct it as [[[p n]|] w|h w ws]; unfold item_token, item_fragments.
  - cbn [flatten_internal for_each bind]. now rewrite !float_mul_1_l.
  - cbn [flatten_internal sign_weight]. now rewrite float_mul_1_l.
  - cbn [flatten_internal]. rewrite flatten_fragments_at.
    now rewrite float_mul_1_l.
Qed.

Lemma for_each_flatten_tokens (l : list item) (acc : list node) :
  for_each (fun c r => flatten_internal c 1 r)
           (map (item_token pow plus minus) l) acc
  = Return (acc ++ flat_map (item_fragments pow plus minus) l).
Proof.
  revert acc. induction l as [|it l IH]; intros acc; cbn [map flat_map].
  - cbn [for_each]. now rewrite app_nil_r.
  - change (for_each (fun c r => flatten_internal c 1 r)
              (item_token pow plus minus it :: map (item_token pow plus minus) l) acc)
      with (bind (flatten_internal (item_token pow plus minus it) 1 acc)
                 (for_each (fun c r => flatten_internal c 1 r)
                           (map (item_token pow plus minus) l))).
    rewrite flatten_internal_token. cbn [bind]. rewrite IH.
    now rewrite <- app_assoc.
Qed.

Lemma item_fragments_fragments (l : list item) :
  forallb is_Fragment (flat_map (item_fragments pow plus minus) l) = true.
Proof.
  apply forallb_forall. intros x Hx.
  apply in_flat_map in Hx as (it & _ & Hx).
  destruct it as [sign w|h w ws]; unfold item_fragments in Hx.
  - destruct Hx as [<- | []]. reflexivity.
  - apply in_map_iff in Hx as (w' & <- & _). reflexivity.
Qed.

Lemma flatten_items (l : list item) :
  flatten (Conjunction [Prompt (ParseResults (map (item_token pow plus minus) l))]
                       [Num 1])
  = (fused <- fuse_fragments (flat_map (item_fragments pow plus minus) l) ;;
     Return (Conjunction [FlattenedPrompt fused] [Num 1])).
Proof.
  unfold flatten. cbn [for_each flatten_internal].
  rewrite for_each_flatten_tokens. cbn [bind app].
  destruct (fuse_fragments_fragments _ (item_fragments_fragments l))
    as (out & Ho & Hout).
  rewrite Ho. cbn [bind].
  rewrite (FlattenedPrompt_init_flat out
             (forallb_weaken _ _ _ is_Fragment_flat_item Hout)).
  reflexivity.
Qed.

End words.

Lemma expandtabs_from_plain (s : string) :
  forallb word_or_blank (list_ascii_of_string s) = true ->
  forall col, expandtabs_from col s = s.
Proof.
  induction s as [|c s IH]; intros H col; [reflexivity|].
  simpl in H. apply andb_prop in H as [Hc Hs]. cbn [expandtabs_from].
  assert (E : (nat_of_ascii c =? 9) = false
              /\ ((nat_of_ascii c =? 10) || (nat_of_ascii c =? 13)) = false).
  { unfold word_or_blank in Hc. apply orb_prop in Hc as [Hc|Hc].
    - now apply unquoted_word_not_tab.
    - apply Ascii.eqb_eq in Hc. subst c. split; reflexivity. }
  destruct E as [E1 E2]. cbv zeta. rewrite E1, E2. now rewrite IH.
Qed.

Lemma token_or_blank (u : string) :
  token_chars u = true -> forallb word_or_blank (list_ascii_of_string u) = true.
Proof.
  unfold token_chars. intros H. rewrite forallb_forall in *.
  intros c Hc. unfold word_or_blank. now rewrite (H c Hc).
Qed.

Lemma blanks_plain (k : nat) :
  forallb word_or_blank (list_ascii_of_string (run " " k)) = true.
Proof. now apply forallb_chars_run. Qed.

Lemma inner_rest_plain (ws : list (nat * string)) :
  forallb bare_word (map snd ws) = true ->
  forallb word_or_blank (list_ascii_of_string (inner_rest ws)) = true.
Proof.
  induction ws as [|[k w] rest IH]; [reflexivity|].
  cbn [map snd forallb]. intros H. apply andb_prop in H as [Hw Hrest].
  destruct (plain_word_token w (bare_word_plain w Hw)) as [_ Hu].
  cbn [inner_rest list_ascii_of_string forallb].
  now rewrite !forallb_chars_append, blanks_plain, (token_or_blank _ Hu), IH.
Qed.

Lemma item_text_plain (it : item) :
  valid_item it = true ->
  forallb word_or_blank (list_ascii_of_string (item_text it)) = true.
Proof.
  destruct it as [sign w|h w ws]; intros H.
  - destruct (word_text_token sign w H) as [_ Hu]. exact (token_or_blank _ Hu).
  - cbn [valid_item] in H. apply andb_prop in H as [H Hws].
    apply andb_prop in H as [Hh Hw].
    destruct (plain_word_token w (bare_word_plain w Hw)) as [_ Hu].
    cbn [item_text]. rewrite forallb_chars_append.
    rewrite (token_or_blank _ (head_text_token h Hh)).
    cbn [list_ascii_of_string forallb andb].
    rewrite !forallb_chars_append, (token_or_blank _ Hu).
    now rewrite (inner_rest_plain ws Hws).
Qed.

Lemma tail_of_plain (trail : nat) (its : list (nat * item)) :
  all_valid its = true ->
  forallb word_or_blank (list_ascii_of_string (tail_of trail its)) = true.
Proof.
  induction its as [|[k it] its IH]; simpl; [intros _; apply blanks_plain|].
  intros H. apply andb_prop in H as [Hit Hits]. simpl in Hit.
  now rewrite !forallb_chars_append, blanks_plain, (item_text_plain it Hit), IH.
Qed.

Lemma expandtabs_items (lead trail : nat) (it : item) (its : list (nat * item)) :
  valid_item it = true -> all_valid its = true ->
  expandtabs (run " " lead ++ item_text it ++ tail_of trail its)
  = (run " " lead ++ item_text it ++ tail_of trail its)%string.
Proof.
  intros Hit Hits. apply expandtabs_from_plain.
  now rewrite !forallb_chars_append, blanks_plain, (item_text_plain it Hit),
              tail_of_plain.
Qed.

Lemma lstrip_has_nonspace (s : string) :
  has_nonspace s = true -> has_nonspace (lstrip s) = true.
Proof.
  unfold has_nonspace. induction s as [|c s IH]; simpl; [auto|].
  destruct (isspace c) eqn:E; simpl; [exact IH|]. now rewrite E.
Qed.

Lemma string_rev_acc_has_nonspace (s acc : string) :
  has_nonspace (string_rev_acc s acc) = has_nonspace s || has_nonspace acc.
Proof.
  unfold has_nonspace. revert acc. induction s as [|c s IH]; intros acc; simpl;
    [reflexivity|].
  rewrite IH. simpl. destruct (isspace c); simpl; [reflexivity|].
  now rewrite !orb_true_r.
Qed.

Lemma strip_has_nonspace (s : string) :
  has_nonspace s = true -> (String.length (strip s) =? 0) = false.
Proof.
  intros H. unfold strip, string_rev.
  assert (Hs : has_nonspace
                 (string_rev_acc (lstrip (string_rev_acc (lstrip s) "")) "") = true).
  { rewrite string_rev_acc_has_nonspace, orb_false_r.
    apply lstrip_has_nonspace.
    rewrite string_rev_acc_has_nonspace, orb_false_r.
    now apply lstrip_has_nonspace. }
  destruct (string_rev_acc (lstrip (string_rev_acc (lstrip s) "")) "");
    [discriminate|reflexivity].
Qed.

Lemma items_not_blank (lead : nat) (it : item) (t : string) :
  valid_item it = true ->
  (String.length (strip (run " " lead ++ item_text it ++ t)) =? 0) = false.
Proof.
  intros Hit. apply strip_has_nonspace.
  destruct (item_text_first it Hit) as (c & r & -> & Hc).
  unfold has_nonspace.
  induction lead as [|k IH]; simpl; [|exact IH].
  now rewrite (starter_not_isspace c Hc).
Qed.

Lemma parse_items (pow : float -> nat -> float) (lead trail : nat) (it : item)
  (its : list (nat * item)) :
  valid_item it = true -> all_valid its = true ->
  parse (default_parser pow) (run " " lead ++ item_text it ++ tail_of trail its)
  = (fused <- fuse_fragments
                (flat_map (item_fragments pow 1.1 0.9) (it :: map snd its)) ;;
     Return (Conjunction [FlattenedPrompt fused] [Num 1.0])).
Proof.
  intros Hit Hits.
  unfold parse. rewrite (items_not_blank lead it _ Hit).
  unfold parse_string. rewrite (expandtabs_items lead trail it its Hit Hits).
  cbn [root default_parser PromptParser_init]. unfold build_parser_logic.
  fold top.
  rewrite (conjunction_items pow 1.1 0.9 _ trail it its Hit Hits
             (pre_blanks_item lead _ _ Hit)).
  cbn [bind py_getitem py_iter nth_error].
  now rewrite flatten_items.
Qed.

Lemma fuse_equal_weights (weight : float) (a : string) (ws : list string) :
  PrimFloat.eqb weight weight = true ->
  for_each fuse_item (map (fun w => Fragment w weight) ws) [Fragment a weight]
  = Return [Fragment (join " " (a :: ws)) weight].
Proof.
  intros Hr. revert a. induction ws as [|w ws IH]; intros a; [reflexivity|].
  cbn [map].
  change (for_each fuse_item
            (Fragment w weight :: map (fun w => Fragment w weight) ws)
            [Fragment a weight])
    with (bind (fuse_item (Fragment w weight) ([] ++ [Fragment a weight]))
               (for_each fuse_item (map (fun w => Fragment w weight) ws))).
  rewrite fuse_item_after_fragment, Hr. cbn [bind app].
  rewrite IH. f_equal. f_equal. f_equal.
  exact (join_merge [] ws a w).
Qed.

Lemma fuse_same_weight (weight : float) (w : string) (ws : list string) :
  PrimFloat.eqb weight weight = true ->
  fuse_fragments (map (fun w => Fragment w weight) (w :: ws))
  = Return [Fragment (join " " (w :: ws)) weight].
Proof.
  intros Hr. unfold fuse_fragments. cbn [map].
  change (for_each fuse_item
            (Fragment w weight :: map (fun w => Fragment w weight) ws) [])
    with (bind (fuse_item (Fragment w weight) [])
               (for_each fuse_item (map (fun w => Fragment w weight) ws))).
  rewrite fuse_item_first. cbn [bind]. now apply fuse_equal_weights.
Qed.

Lemma fuse_plain_words (w : string) (ws : list string) :
  fuse_fragments (map (fun w => Fragment w 1) (w :: ws))
  = Return [Fragment (join " " (w :: ws)) 1].
Proof. exact (fuse_same_weight 1 w ws eq_refl). Qed.

Lemma join_words (w : string) (ws : list string) :
  join " " (w :: ws)
  = (run " " 0 ++ w ++ tail_of 0 (map (fun w => unsigned (0, w)) ws))%string.
Proof.
  revert w. induction ws as [|w' ws IH]; intros w.
  - simpl. now rewrite append_nil_r.
  - rewrite join_cons by discriminate. rewrite IH. reflexivity.
Qed.




(** X16.  A prompt of plain words comes back as one fragment of weight 1.0
    whose text is the words joined by single blanks, however many blanks
    stand before, between and after the words; typed with single blanks, the
    text comes back as it was typed. *)
Theorem parse_plain_words (pow : float -> nat -> float) :
  (forall lead trail w ws,
      plain_word w = true -> forallb (fun kw => plain_word (snd kw)) ws = true ->
      parse (default_parser pow)
            (run " " lead ++ w ++ tail_of trail (map unsigned ws))
      = Return (Conjunction
                  [FlattenedPrompt [Fragment (join " " (w :: map snd ws)) 1.0]]
                  [Num 1.0]))
  /\ (forall w ws,
      plain_word w = true -> forallb plain_word ws = true ->
      parse (default_parser pow) (join " " (w :: ws))
      = Return (Conjunction [FlattenedPrompt [Fragment (join " " (w :: ws)) 1.0]]
                            [Num 1.0])).
Proof.
  assert (G : forall lead trail w ws,
      plain_word w = true -> forallb (fun kw => plain_word (snd kw)) ws = true ->
      parse (default_parser pow)
            (run " " lead ++ w ++ tail_of trail (map unsigned ws))
      = Return (Conjunction
                  [FlattenedPrompt [Fragment (join " " (w :: map snd ws)) 1.0]]
                  [Num 1.0])).
  { intros lead trail w ws Hw Hws.
    assert (Hits : all_valid (map unsigned ws) = true).
    { unfold all_valid. rewrite forallb_forall in *. intros kit Hk.
      apply in_map_iff in Hk as (kw & <- & Hkw). exact (Hws kw Hkw). }
    pose proof (parse_items pow lead trail (one_word None w) (map unsigned ws)
                  Hw Hits) as H.
    cbn [item_text sign_text] in H.
    change (("" ++ w)%string) with w in H. rewrite H.
    assert (E : flat_map (item_fragments pow 1.1 0.9)
                    (one_word None w :: map snd (map unsigned ws))
                = map (fun w => Fragment w 1) (w :: map snd ws)).
    { cbn [flat_map map item_fragments sign_weight app]. f_equal.
      rewrite !map_map. clear. induction ws as [|kw ws IH]; [reflexivity|].
      cbn [map flat_map]. now rewrite IH. }
    rewrite E. now rewrite fuse_plain_words. }
  split; [exact G|].
  intros w ws Hw Hws. rewrite (join_words w ws) at 1.
  rewrite <- (map_map (fun w => (0, w)) unsigned).
  rewrite G; [|exact Hw|].
  - rewrite map_map. cbn [snd]. now rewrite map_id.
  - rewrite forallb_forall in *. intros kw Hkw.
    apply in_map_iff in Hkw as (x & <- & Hx). simpl. auto.
Qed.

Lemma parse_plain_words_witness :
  parse (default_parser power)
        (run " " 2 ++ "a" ++ tail_of 1 (map unsigned [(3, "test"); (0, "prompt")]))
  = Return (Conjunction
              [FlattenedPrompt [Fragment "a test prompt" 1.0]] [Num 1.0])
  /\ parse (default_parser power) (join " " ["a"; "test"; "prompt"])
     = Return (Conjunction
                 [FlattenedPrompt [Fragment "a test prompt" 1.0]] [Num 1.0]).
Proof.
  destruct (parse_plain_words power) as [H1 H2]. split.
  - exact (H1 2 1 "a" [(3, "test"); (0, "prompt")] eq_refl eq_refl).
  - exact (H2 "a" ["test"; "prompt"] eq_refl eq_refl).
Defined.

(** ** Explicit conjunctions and blends *)

Lemma string_rev_acc_append (s t acc : string) :
  string_rev_acc (s ++ t) acc = string_rev_acc t (string_rev_acc s acc).
Proof.
  revert acc. induction s as [|c s IH]; intros acc; [reflexivity|].
  cbn [append string_rev_acc]. apply IH.
Qed.

Lemma string_rev_acc_twice (s acc r : string) :
  string_rev_acc (string_rev_acc s acc) r = string_rev_acc acc (s ++ r)%string.
Proof.
  revert acc r. induction s as [|c s IH]; intros acc r; [reflexivity|].
  cbn [append string_rev_acc]. now rewrite IH.
Qed.

Lemma drop_ends_between (a b : ascii) (s : string) :
  drop_ends (String a (s ++ String b "")) = s.
Proof.
  unfold drop_ends, string_rev. rewrite string_rev_acc_append.
  cbn [string_rev_acc]. rewrite string_rev_acc_twice.
  cbn [string_rev_acc]. apply append_nil_r.
Qed.

Lemma strip_prefix_append (lit r : string) :
  strip_prefix lit (lit ++ r) = Some r.
Proof.
  induction lit as [|c lit IH]; [reflexivity|].
  cbn [append strip_prefix]. now rewrite Ascii.eqb_refl.
Qed.

Lemma expandtabs_from_no_tab (s : string) :
  forallb no_tab (list_ascii_of_string s) = true ->
  forall col, expandtabs_from col s = s.
Proof.
  induction s as [|c s IH]; intros H col; [reflexivity|].
  cbn [list_ascii_of_string forallb] in H. apply andb_prop in H as [Hc Hs].
  cbn [expandtabs_from]. cbv zeta. unfold no_tab in Hc. cbv zeta in Hc.
  apply negb_true_iff in Hc. rewrite <- orb_assoc in Hc.
  apply orb_false_elim in Hc as [E1 E2]. rewrite E1, E2. now rewrite IH.
Qed.

Lemma word_or_blank_no_tab (c : ascii) : word_or_blank c = true -> no_tab c = true.
Proof. intros H. by_char c H. Qed.

Lemma in_nums_no_tab (c : ascii) : in_nums c = true -> no_tab c = true.
Proof. intros H. by_char c H. Qed.

Lemma Literal_here (lit r : string) :
  pre top (lit ++ r) = (lit ++ r)%string ->
  Literal lit top (lit ++ r)%string = Return (r, [Str lit]).
Proof. intros H. unfold Literal. now rewrite H, strip_prefix_append. Qed.

Lemma phrase_text_items (p : phrase) :
  phrase_text p
  = (run " " 0 ++ item_text (one_word None (fst p))
     ++ tail_of 0 (map (fun w => unsigned (0, w)) (snd p)))%string.
Proof. destruct p as [w ws]. exact (join_words w ws). Qed.

Lemma phrase_valid (p : phrase) :
  plain_phrase p = true ->
  valid_item (one_word None (fst p)) = true
  /\ all_valid (map (fun w => unsigned (0, w)) (snd p)) = true.
Proof.
  intros H. apply andb_prop in H as [Hw Hws]. split; [exact Hw|].
  unfold all_valid. rewrite forallb_forall in *. intros kit Hk.
  apply in_map_iff in Hk as (w & <- & Hin). exact (Hws w Hin).
Qed.

Lemma phrase_text_plain (p : phrase) :
  plain_phrase p = true ->
  forallb word_or_blank (list_ascii_of_string (phrase_text p)) = true.
Proof.
  intros H. destruct (phrase_valid p H) as [Hit Hits].
  rewrite phrase_text_items. cbn [run]. change (("" ++ ?x)%string) with x.
  rewrite forallb_chars_append, (item_text_plain _ Hit).
  now rewrite (tail_of_plain 0 _ Hits).
Qed.

Lemma word_or_blank_quotable (c : ascii) :
  word_or_blank c = true ->
  negb (Ascii.eqb c dquote) && negb (is_char 92 c)
  && negb (is_char 10 c || is_char 13 c) = true.
Proof. intros H. by_char c H. Qed.

Lemma scan_quoted_string_plain (inner t : string) :
  forallb word_or_blank (list_ascii_of_string inner) = true ->
  starts_with dquote t = false ->
  scan_quoted_string dquote (inner ++ String dquote t) = (inner, String dquote t).
Proof.
  intros Hi Ht. induction inner as [|c s IH].
  - cbn [append scan_quoted_string]. rewrite Ascii.eqb_refl.
    destruct t as [|c2 t']; [reflexivity|]. cbn [starts_with] in Ht.
    now rewrite Ht.
  - cbn [list_ascii_of_string forallb] in Hi. apply andb_prop in Hi as [Hc Hs].
    apply word_or_blank_quotable in Hc.
    apply andb_prop in Hc as [Hc H3]. apply andb_prop in Hc as [H1 H2].
    apply negb_true_iff in H1, H2, H3.
    cbn [append scan_quoted_string]. rewrite H1, H2, H3. now rewrite (IH Hs).
Qed.

Lemma dbl_quoted_string_plain (k : nat) (inner t : string) :
  forallb word_or_blank (list_ascii_of_string inner) = true ->
  starts_with dquote t = false ->
  dbl_quoted_string top
    (run " " k ++ String dquote (inner ++ String dquote t))%string
  = Return (t, [Str (String dquote (inner ++ q))]).
Proof.
  intros Hi Ht. unfold dbl_quoted_string, Combine.
  rewrite pre_blanks_char by reflexivity.
  cbn [And doActions top]. unfold Regex at 1. cbn [pre leaveWhitespace].
  unfold match_quoted_string. rewrite Ascii.eqb_refl.
  rewrite (scan_quoted_string_plain inner t Hi Ht). cbn [bind].
  unfold Literal. cbn [pre leaveWhitespace strip_prefix].
  rewrite Ascii.eqb_refl. cbn [bind app as_string].
  now rewrite append_nil_r.
Qed.

Lemma stops_not_quote (t : string) :
  stops t = true -> starts_with dquote t = false.
Proof.
  destruct t as [|c r]; [reflexivity|]. cbn [stops starts_with]. intros H.
  false_by_char c H.
Qed.

Lemma stops_not_digit (t : string) :
  stops t = true ->
  match t with String c _ => in_nums c = false | EmptyString => True end.
Proof.
  destruct t as [|c r]; [exact (fun _ => I)|]. cbn [stops]. intros H.
  false_by_char c H.
Qed.

Lemma stops_not_point (c : ascii) (r : string) :
  stops (String c r) = true -> is_char 46 c = false.
Proof. cbn [stops]. intros H. false_by_char c H. Qed.

Lemma phrase_tokens (pow : float -> nat -> float) (plus minus : float)
  (p : phrase) :
  map (item_token pow plus minus)
      (one_word None (fst p) :: map snd (map (fun w => unsigned (0, w)) (snd p)))
  = map (fun w => Fragment w 1) (fst p :: snd p).
Proof.
  cbn [map]. f_equal. rewrite !map_map. apply map_ext. reflexivity.
Qed.

Lemma phrase_not_blank (p : phrase) :
  plain_phrase p = true -> (String.length (strip (phrase_text p)) =? 0) = false.
Proof.
  intros H. destruct (phrase_valid p H) as [Hit _].
  rewrite phrase_text_items. exact (items_not_blank 0 _ _ Hit).
Qed.

Section explicit.

Variable pow : float -> nat -> float.
Variables plus minus : float.

Lemma prompt_phrase (p : phrase) :
  plain_phrase p = true ->
  parse_string (prompt pow plus minus) (phrase_text p)
  = Return (ParseResults [phrase_prompt p]).
Proof.
  intros H. destruct (phrase_valid p H) as [Hit Hits].
  unfold parse_string. fold top. rewrite phrase_text_items.
  rewrite (expandtabs_items 0 0 _ _ Hit Hits).
  change (run " " 0 ++ ?x)%string with x.
  rewrite (prompt_items pow plus minus 0 _ _ Hit Hits). cbn [bind].
  unfold phrase_prompt. now rewrite phrase_tokens.
Qed.

Lemma quoted_prompt_phrase (k : nat) (p : phrase) (t : string) :
  plain_phrase p = true -> stops t = true ->
  quoted_prompt pow plus minus top (run " " k ++ quoted p ++ t)%string
  = Return (t, [phrase_prompt p]).
Proof.
  intros Hp Ht. unfold quoted_prompt, with_action.
  assert (E : (run " " k ++ quoted p ++ t)%string
              = (run " " k ++ String dquote (phrase_text p ++ String dquote t))%string).
  { unfold quoted, q. cbn [append]. now rewrite append_assoc. }
  rewrite E, (dbl_quoted_string_plain k _ t (phrase_text_plain p Hp)
                (stops_not_quote t Ht)).
  cbn [bind doActions top]. unfold make_prompt_from_quoted_string.
  cbn [py_getitem py_iter bind nth_error]. unfold q. rewrite drop_ends_between.
  rewrite (phrase_not_blank p Hp), (prompt_phrase p Hp).
  reflexivity.
Qed.

End explicit.

Section lists.

Context {X : Type}.
Variable e : parser.
Variable text : X -> string.
Variable tok : X -> node.
Variable ok : X -> bool.
Hypothesis e_item : forall k x t,
  ok x = true -> stops t = true ->
  e top (run " " k ++ text x ++ t)%string = Return (t, [tok x]).

Lemma more_stops (items : list (nat * X)) (r : string) :
  stops (more text items ++ String ")" r) = true.
Proof. destruct items as [|[k x] rest]; reflexivity. Qed.

Lemma comma_item (k : nat) (x : X) (t : string) :
  ok x = true -> stops t = true ->
  And [Suppress (Literal ","); e] top (String "," (run " " k ++ text x ++ t))
  = Return (t, [tok x]).
Proof.
  intros Hx Ht. cbn [And]. unfold Suppress at 1.
  change (Literal "," top (String "," (run " " k ++ text x ++ t)))
    with (@Return (string * list node)
            ((run " " k ++ text x ++ t)%string, [Str ","])).
  cbn [bind]. rewrite (e_item k x t Hx Ht). reflexivity.
Qed.

Lemma comma_closes (r : string) :
  And [Suppress (Literal ","); e] top (String ")" r) = Raise ParseException.
Proof. reflexivity. Qed.

Lemma delimited_loop (items : list (nat * X)) (r : string) :
  forallb ok (map snd items) = true ->
  forall fuel acc,
    String.length (more text items ++ String ")" r) < fuel ->
    many_loop fuel (And [Suppress (Literal ","); e]) top
              (more text items ++ String ")" r)%string acc
    = Return (String ")" r, acc ++ map tok (map snd items)).
Proof.
  induction items as [|[k x] rest IH]; intros Hok fuel acc Hf.
  - destruct fuel as [|fuel]; [inversion Hf|].
    cbn [more append]. rewrite many_loop_S, comma_closes. cbn [catches map].
    now rewrite app_nil_r.
  - cbn [map snd forallb] in Hok. apply andb_prop in Hok as [Hx Hrest].
    destruct fuel as [|fuel]; [inversion Hf|].
    cbn [more] in *.
    change (String "," (run " " k ++ text x ++ more text rest) ++ String ")" r)%string
      with (String "," ((run " " k ++ text x ++ more text rest) ++ String ")" r)) in *.
    rewrite !append_assoc in *.
    rewrite many_loop_S, (comma_item k x _ Hx (more_stops rest r)).
    assert (Hlen : String.length (more text rest ++ String ")" r)
                   < String.length
                       (String "," (run " " k ++ text x ++ more text rest
                                    ++ String ")" r))).
    { cbn [String.length]. rewrite !length_append. lia. }
    apply Nat.ltb_lt in Hlen. rewrite Hlen.
    rewrite (IH Hrest).
    + cbn [map snd]. now rewrite <- app_assoc.
    + cbn [String.length] in Hf. rewrite !length_append in Hf.
      rewrite length_append. lia.
Qed.

Lemma ZeroOrMore_items (items : list (nat * X)) (r : string) :
  forallb ok (map snd items) = true ->
  ZeroOrMore (And [Suppress (Literal ","); e]) top
             (more text items ++ String ")" r)%string
  = Return (String ")" r, map tok (map snd items)).
Proof.
  intros Hok. unfold ZeroOrMore, OneOrMore.
  destruct items as [|[k' x'] rest].
  - cbn [more append]. change (pre top (String ")" r)) with (String ")" r).
    rewrite comma_closes. reflexivity.
  - cbn [map snd forallb] in Hok. apply andb_prop in Hok as [Hx' Hrest].
    cbn [more].
    change (String "," (run " " k' ++ text x' ++ more text rest) ++ String ")" r)%string
      with (String "," ((run " " k' ++ text x' ++ more text rest) ++ String ")" r)).
    rewrite !append_assoc.
    change (pre top (String "," ?u)) with (String "," u).
    rewrite (comma_item k' x' _ Hx' (more_stops rest r)). cbn [bind].
    rewrite (delimited_loop rest r Hrest) by lia.
    reflexivity.
Qed.

Lemma delimited_list_items (k : nat) (x : X) (items : list (nat * X))
  (r : string) :
  ok x = true -> forallb ok (map snd items) = true ->
  delimited_list e "," top
    (run " " k ++ text x ++ more text items ++ String ")" r)%string
  = Return (String ")" r, tok x :: map tok (map snd items)).
Proof.
  intros Hx Hok. unfold delimited_list. rewrite And_cons.
  rewrite (e_item k x _ Hx (more_stops items r)). cbn [bind].
  rewrite And_cons, (ZeroOrMore_items items r Hok). cbn [bind And app].
  now rewrite app_nil_r.
Qed.

End lists.

Lemma open_paren (u : string) : lparen top (String "(" u) = Return (u, []).
Proof. reflexivity. Qed.

Lemma close_paren (u : string) : rparen top (String ")" u) = Return (u, []).
Proof. reflexivity. Qed.

Lemma stops_ends_number (t : string) : stops t = true -> ends_number t = true.
Proof.
  destruct t as [|c r]; [reflexivity|]. cbn [stops ends_number]. intros H.
  by_char c H.
Qed.

Lemma number_weight (k : nat) (d : numeral) (t : string) :
  is_numeral d = true -> stops t = true ->
  number top (run " " k ++ numeral_text d ++ t)%string = Return (t, [weight_of d]).
Proof.
  intros Hd Ht. exact (number_numeral k d t Hd (stops_ends_number t Ht)).
Qed.

Lemma weights_group (d : numeral) (ds : list (nat * numeral)) (r : string) :
  is_numeral d = true -> forallb is_numeral (map snd ds) = true ->
  Group blend_weights top (weights_text d ds ++ String ")" r)%string
  = Return (String ")" r, [ParseResults (map weight_of (d :: map snd ds))]).
Proof.
  intros Hd Hds. unfold Group, blend_weights, weights_text.
  rewrite append_assoc.
  change (numeral_text d ++ more numeral_text ds ++ String ")" r)%string
    with (run " " 0 ++ numeral_text d ++ more numeral_text ds ++ String ")" r)%string.
  rewrite (delimited_list_items number numeral_text weight_of is_numeral
             number_weight 0 d ds r Hd Hds).
  reflexivity.
Qed.

Lemma no_weights :
  Optional (Group conjunction_weights) top ")" = Return (")", []).
Proof. vm_compute. reflexivity. Qed.

Lemma numeral_pre (d : numeral) (t : string) :
  is_numeral d = true ->
  pre top (numeral_text d ++ t) = (numeral_text d ++ t)%string.
Proof.
  intros H. destruct (numeral_first d H) as (c & r & -> & Hc).
  cbn [append]. unfold pre.
  cbn [leaveWhitespace top preParse]. now rewrite (in_nums_not_whitespace c Hc).
Qed.

Section conjunctions.

Variable pow : float -> nat -> float.
Variables plus minus : float.

Lemma terms_group (p : phrase) (ps : list (nat * phrase)) (r : string) :
  plain_phrase p = true -> forallb plain_phrase (map snd ps) = true ->
  Group (blend_terms pow plus minus) top (terms_text p ps ++ String ")" r)%string
  = Return (String ")" r, [ParseResults (map phrase_prompt (p :: map snd ps))]).
Proof.
  intros Hp Hps. unfold Group, blend_terms, terms_text.
  rewrite append_assoc.
  change (quoted p ++ more quoted ps ++ String ")" r)%string
    with (run " " 0 ++ quoted p ++ more quoted ps ++ String ")" r)%string.
  rewrite (delimited_list_items (quoted_prompt pow plus minus) quoted
             phrase_prompt plain_phrase (quoted_prompt_phrase pow plus minus)
             0 p ps r Hp Hps).
  reflexivity.
Qed.

Lemma phrase_prompts_like (l : list phrase) :
  forallb prompt_like (map phrase_prompt l) = true.
Proof. induction l as [|p l IH]; [reflexivity|exact IH]. Qed.

Lemma after_terms_matches (name : string) (weights : parser) (w : string)
  (toks : list node) :
  weights top (w ++ ")")%string = Return (")", toks) ->
  And (after_terms (String "." name) weights) top
      (String ")" (String "." (name ++ String "(" (w ++ ")"))))
  = Return ("", toks).
Proof.
  intros Hw. unfold after_terms.
  rewrite And_cons, close_paren. cbn [bind]. rewrite And_cons.
  unfold Suppress at 1.
  change (String "." (name ++ String "(" (w ++ ")")))
    with (String "." name ++ String "(" (w ++ ")"))%string.
  rewrite (Literal_here (String "." name) _ eq_refl). cbn [bind].
  rewrite And_cons, open_paren. cbn [bind]. rewrite And_cons, Hw. cbn [bind].
  rewrite And_cons, close_paren. cbn [bind And app]. now rewrite app_nil_r.
Qed.

Lemma optional_weights (d : numeral) (ds : list (nat * numeral)) :
  is_numeral d = true -> forallb is_numeral (map snd ds) = true ->
  Optional (Group conjunction_weights) top (weights_text d ds ++ ")")%string
  = Return (")", [ParseResults (map weight_of (d :: map snd ds))]).
Proof.
  intros Hd Hds. unfold Optional, conjunction_weights.
  assert (Hpre : pre top (weights_text d ds ++ ")")
                 = (weights_text d ds ++ ")")%string).
  { unfold weights_text. rewrite append_assoc. exact (numeral_pre d _ Hd). }
  rewrite Hpre. now rewrite (weights_group d ds "" Hd Hds).
Qed.

Lemma terms_then (name : string) (weights : parser) (p : phrase)
  (ps : list (nat * phrase)) (w : string) (toks : list node) :
  plain_phrase p = true -> forallb plain_phrase (map snd ps) = true ->
  weights top (w ++ ")")%string = Return (")", toks) ->
  Group (And (lparen :: Group (blend_terms pow plus minus)
                     :: after_terms (String "." name) weights)) top
        (String "(" (terms_text p ps
                     ++ String ")" (String "." (name ++ String "(" (w ++ ")")))))
  = Return ("", [ParseResults
                   (ParseResults (map phrase_prompt (p :: map snd ps)) :: toks)]).
Proof.
  intros Hp Hps Hw. unfold Group at 1.
  rewrite And_cons, open_paren. cbn [bind].
  rewrite And_cons, (terms_group p ps _ Hp Hps). cbn [bind].
  rewrite (after_terms_matches name weights w toks Hw). reflexivity.
Qed.

Lemma conjunction_without_weights (p : phrase) (ps : list (nat * phrase)) :
  plain_phrase p = true -> forallb plain_phrase (map snd ps) = true ->
  conjunction pow plus minus top
    (String "(" (terms_text p ps ++ ").and()"))
  = Return ("", [Conjunction (map phrase_prompt (p :: map snd ps))
                             (repeat (Num 1.0) (S (List.length ps)))]).
Proof.
  intros Hp Hps. unfold conjunction, MatchFirst.
  change (pre top (String "(" ?u)) with (String "(" u).
  cbn [first_match].
  unfold conjunction_with_parens_and_quotes, conjunction_terms, with_action.
  pose proof (terms_then "and" (Optional (Group conjunction_weights)) p ps ""
                [] Hp Hps no_weights) as H.
  unfold after_terms in H. cbn [append] in H. cbn [append]. rewrite H.
  cbn [bind doActions top]. unfold make_conjunction.
  cbn [py_getitem py_iter py_len bind nth_error List.length Nat.ltb Nat.leb].
  rewrite (Conjunction_init_prompt_like
             (PyList (map phrase_prompt (p :: map snd ps))) _
             (map phrase_prompt (p :: map snd ps)) eq_refl
             (phrase_prompts_like (p :: map snd ps))).
  cbn [py_iter bind]. rewrite repeat_length, Nat.eqb_refl.
  cbn [negb tokens_of]. rewrite length_map. cbn [List.length].
  now rewrite length_map.
Qed.

Lemma conjunction_with_weights (p : phrase) (ps : list (nat * phrase))
  (d : numeral) (ds : list (nat * numeral)) :
  plain_phrase p = true -> forallb plain_phrase (map snd ps) = true ->
  is_numeral d = true -> forallb is_numeral (map snd ds) = true ->
  conjunction pow plus minus top
    (String "(" (terms_text p ps ++ ").and(" ++ weights_text d ds ++ ")"))
  = if List.length ds =? List.length ps
    then Return ("", [Conjunction (map phrase_prompt (p :: map snd ps))
                                  (map weight_of (d :: map snd ds))])
    else Raise ParsingException.
Proof.
  intros Hp Hps Hd Hds. unfold conjunction, MatchFirst.
  change (pre top (String "(" ?u)) with (String "(" u).
  cbn [first_match].
  unfold conjunction_with_parens_and_quotes, conjunction_terms, with_action.
  pose proof (terms_then "and" (Optional (Group conjunction_weights)) p ps
                (weights_text d ds) _ Hp Hps (optional_weights d ds Hd Hds)) as H.
  unfold after_terms in H. cbn [append] in H. cbn [append]. rewrite H.
  cbn [bind doActions top]. unfold make_conjunction.
  cbn [py_getitem py_iter py_len bind nth_error List.length Nat.ltb Nat.leb].
  rewrite (Conjunction_init_prompt_like
             (PyList (map phrase_prompt (p :: map snd ps))) _
             (map phrase_prompt (p :: map snd ps)) eq_refl
             (phrase_prompts_like (p :: map snd ps))).
  cbn [py_iter bind map List.length Nat.eqb]. rewrite !length_map.
  destruct (List.length ds =? List.length ps); reflexivity.
Qed.

Lemma and_at_blend (u : string) :
  Suppress (Literal ".and") top (String "." (String "b" u))
  = Raise ParseException.
Proof. reflexivity. Qed.

Lemma conjunction_with_parens_at_blend (p : phrase) (ps : list (nat * phrase))
  (u : string) :
  plain_phrase p = true -> forallb plain_phrase (map snd ps) = true ->
  conjunction_with_parens_and_quotes pow plus minus top
    (String "(" (terms_text p ps ++ String ")" (String "." (String "b" u))))
  = Raise ParseException.
Proof.
  intros Hp Hps.
  unfold conjunction_with_parens_and_quotes, conjunction_terms, with_action.
  unfold Group at 1. rewrite And_cons, open_paren. cbn [bind].
  rewrite And_cons, (terms_group p ps _ Hp Hps). cbn [bind].
  rewrite And_cons, close_paren. cbn [bind].
  rewrite And_cons, and_at_blend. reflexivity.
Qed.

Lemma phrase_prompts_blend (l : list phrase) :
  forallb blend_item (map phrase_prompt l) = true.
Proof. induction l as [|p l IH]; [reflexivity|exact IH]. Qed.

Lemma blend_phrases (p : phrase) (ps : list (nat * phrase))
  (d : numeral) (ds : list (nat * numeral)) :
  plain_phrase p = true -> forallb plain_phrase (map snd ps) = true ->
  is_numeral d = true -> forallb is_numeral (map snd ds) = true ->
  blend pow plus minus top
    (String "(" (terms_text p ps ++ ").blend(" ++ weights_text d ds ++ ")"))
  = if List.length ds =? List.length ps
    then Return ("", [Blend (ParseResults (map phrase_prompt (p :: map snd ps)))
                            (ParseResults (map weight_of (d :: map snd ds)))
                            true])
    else Raise ParsingException.
Proof.
  intros Hp Hps Hd Hds. unfold blend, with_action.
  pose proof (terms_then "blend" (Group blend_weights) p ps
                (weights_text d ds) _ Hp Hps (weights_group d ds "" Hd Hds)) as H.
  unfold after_terms in H. cbn [append] in H. cbn [append]. rewrite H.
  cbn [bind doActions top py_getitem py_iter nth_error].
  rewrite (Blend_init_spec
             (ParseResults (map phrase_prompt (p :: map snd ps)))
             (ParseResults (map weight_of (d :: map snd ds))) true
             (map phrase_prompt (p :: map snd ps))
             (List.length (map weight_of (d :: map snd ds))) eq_refl eq_refl).
  rewrite (phrase_prompts_blend (p :: map snd ps)).
  rewrite !length_map. cbn [List.length Nat.eqb]. rewrite !length_map.
  rewrite (Nat.eqb_sym (List.length ps)).
  destruct (List.length ds =? List.length ps); reflexivity.
Qed.

Lemma conjunction_of_blend (p : phrase) (ps : list (nat * phrase))
  (d : numeral) (ds : list (nat * numeral)) :
  plain_phrase p = true -> forallb plain_phrase (map snd ps) = true ->
  is_numeral d = true -> forallb is_numeral (map snd ds) = true ->
  conjunction pow plus minus top
    (String "(" (terms_text p ps ++ ").blend(" ++ weights_text d ds ++ ")"))
  = if List.length ds =? List.length ps
    then Return ("", [Conjunction
                        [Blend (ParseResults (map phrase_prompt (p :: map snd ps)))
                               (ParseResults (map weight_of (d :: map snd ds)))
                               true]
                        [Num 1.0]])
    else Raise ParsingException.
Proof.
  intros Hp Hps Hd Hds. unfold conjunction, MatchFirst.
  change (pre top (String "(" ?u)) with (String "(" u).
  cbn [first_match].
  pose proof (conjunction_with_parens_at_blend p ps
                ("lend(" ++ weights_text d ds ++ ")") Hp Hps) as H1.
  cbn [append] in H1. cbn [append]. rewrite H1. cbn [catches].
  unfold implicit_conjunction, with_action, OneOrMore.
  change (pre top (String "(" ?u)) with (String "(" u).
  unfold MatchFirst at 1.
  change (pre top (String "(" ?u)) with (String "(" u).
  cbn [first_match].
  pose proof (blend_phrases p ps d ds Hp Hps Hd Hds) as H2.
  cbn [append] in H2. rewrite H2.
  destruct (List.length ds =? List.length ps); [|reflexivity].
  cbn [bind String.length]. rewrite many_loop_S, (branch_end pow plus minus).
  cbn [catches bind doActions top]. reflexivity.
Qed.

End conjunctions.

Lemma flatten_words (ws : list string) (acc : list node) :
  for_each (fun c r => flatten_internal c 1 r)
           (map (fun w => Fragment w 1) ws) acc
  = Return (acc ++ map (fun w => Fragment w 1) ws).
Proof.
  revert acc. induction ws as [|w ws IH]; intros acc; cbn [map].
  - cbn [for_each]. now rewrite app_nil_r.
  - change (for_each (fun c r => flatten_internal c 1 r)
              (Fragment w 1 :: map (fun w => Fragment w 1) ws) acc)
      with (bind (flatten_internal (Fragment w 1) 1 acc)
                 (for_each (fun c r => flatten_internal c 1 r)
                           (map (fun w => Fragment w 1) ws))).
    cbn [flatten_internal bind]. rewrite float_mul_1_l, IH.
    now rewrite <- app_assoc.
Qed.

Lemma flatten_phrase_prompt (p : phrase) (results : list node) :
  flatten_internal (phrase_prompt p) 1 results
  = Return (results ++ [phrase_flat p]).
Proof.
  unfold phrase_prompt. cbn [flatten_internal].
  rewrite (flatten_words (fst p :: snd p) []). cbn [app bind].
  rewrite (fuse_plain_words (fst p) (snd p)). cbn [bind].
  rewrite (FlattenedPrompt_init_flat [Fragment (join " " (fst p :: snd p)) 1] eq_refl).
  reflexivity.
Qed.

Lemma flatten_phrase_prompts (l : list phrase) (acc : list node) :
  for_each (fun c r => flatten_internal c 1 r) (map phrase_prompt l) acc
  = Return (acc ++ map phrase_flat l).
Proof.
  revert acc. induction l as [|p l IH]; intros acc; cbn [map].
  - cbn [for_each]. now rewrite app_nil_r.
  - change (for_each (fun c r => flatten_internal c 1 r)
              (phrase_prompt p :: map phrase_prompt l) acc)
      with (bind (flatten_internal (phrase_prompt p) 1 acc)
                 (for_each (fun c r => flatten_internal c 1 r)
                           (map phrase_prompt l))).
    rewrite flatten_phrase_prompt. cbn [bind]. rewrite IH.
    now rewrite <- app_assoc.
Qed.

Lemma flatten_branches (l : list phrase) (acc : list node) :
  for_each (fun part acc => r <- flatten_internal part 1 [] ;; Return (acc ++ r))
           (map phrase_prompt l) acc
  = Return (acc ++ map phrase_flat l).
Proof.
  revert acc. induction l as [|p l IH]; intros acc; cbn [map].
  - cbn [for_each]. now rewrite app_nil_r.
  - change (for_each (fun part acc => r <- flatten_internal part 1 [] ;;
                                      Return (acc ++ r))
              (phrase_prompt p :: map phrase_prompt l) acc)
      with (bind (r <- flatten_internal (phrase_prompt p) 1 [] ;; Return (acc ++ r))
                 (for_each (fun part acc => r <- flatten_internal part 1 [] ;;
                                            Return (acc ++ r))
                           (map phrase_prompt l))).
    rewrite flatten_phrase_prompt. cbn [bind app]. rewrite IH.
    now rewrite <- app_assoc.
Qed.

Lemma phrase_flats_like (l : list phrase) :
  forallb prompt_like (map phrase_flat l) = true.
Proof. induction l as [|p l IH]; [reflexivity|exact IH]. Qed.

Lemma phrase_flats_blend (l : list phrase) :
  forallb blend_item (map phrase_flat l) = true.
Proof. induction l as [|p l IH]; [reflexivity|exact IH]. Qed.

Lemma flatten_conjunction_phrases (l : list phrase) (ws : list node) :
  List.length ws = List.length l ->
  flatten (Conjunction (map phrase_prompt l) ws)
  = Return (Conjunction (map phrase_flat l) ws).
Proof.
  intros Hl. unfold flatten. rewrite flatten_branches. cbn [bind app].
  rewrite (Conjunction_init_prompt_like (PyList (map phrase_flat l)) _
             (map phrase_flat l) eq_refl (phrase_flats_like l)).
  cbn [py_iter bind]. rewrite length_map, Hl, Nat.eqb_refl. reflexivity.
Qed.

Lemma flatten_blend_phrases (l : list phrase) (ws : list node) :
  List.length ws = List.length l ->
  flatten (Conjunction [Blend (ParseResults (map phrase_prompt l))
                              (ParseResults ws) true] [Num 1.0])
  = Return (Conjunction [Blend (PyList (map phrase_flat l)) (ParseResults ws) true]
                        [Num 1.0]).
Proof.
  intros Hl. unfold flatten. cbn [for_each flatten_internal].
  rewrite flatten_phrase_prompts. cbn [bind app].
  rewrite (Blend_init_spec (PyList (map phrase_flat l)) (ParseResults ws) true
             (map phrase_flat l) (List.length ws) eq_refl eq_refl).
  rewrite length_map, Hl, Nat.eqb_refl, (phrase_flats_blend l).
  reflexivity.
Qed.

Lemma quoted_no_tab (p : phrase) :
  plain_phrase p = true ->
  forallb no_tab (list_ascii_of_string (quoted p)) = true.
Proof.
  intros H. unfold quoted, q. cbn [list_ascii_of_string forallb].
  rewrite forallb_chars_append.
  rewrite (forallb_chars_weaken _ _ _ word_or_blank_no_tab (phrase_text_plain p H)).
  reflexivity.
Qed.

Lemma numeral_no_tab (d : numeral) :
  is_numeral d = true ->
  forallb no_tab (list_ascii_of_string (numeral_text d)) = true.
Proof.
  destruct d as [i f]. unfold is_numeral, numeral_text. cbn [fst snd].
  intros H. apply andb_prop in H as [H Hf]. apply andb_prop in H as [_ Hi].
  pose proof (forallb_chars_weaken _ _ _ in_nums_no_tab Hi) as Hi'.
  destruct f as [f|]; [|exact Hi'].
  rewrite forallb_chars_append, Hi'. cbn [list_ascii_of_string forallb].
  now rewrite (forallb_chars_weaken _ _ _ in_nums_no_tab Hf).
Qed.

Lemma more_no_tab {X : Type} (text : X -> string) (ok : X -> bool)
  (items : list (nat * X)) :
  (forall x, ok x = true -> forallb no_tab (list_ascii_of_string (text x)) = true) ->
  forallb ok (map snd items) = true ->
  forallb no_tab (list_ascii_of_string (more text items)) = true.
Proof.
  intros Hok. induction items as [|[k x] rest IH]; intros H; [reflexivity|].
  cbn [map snd forallb] in H. apply andb_prop in H as [Hx Hrest].
  cbn [more list_ascii_of_string forallb].
  rewrite !forallb_chars_append, (forallb_chars_run no_tab " " k eq_refl).
  now rewrite (Hok x Hx), (IH Hrest).
Qed.

Lemma terms_no_tab (p : phrase) (ps : list (nat * phrase)) :
  plain_phrase p = true -> forallb plain_phrase (map snd ps) = true ->
  forallb no_tab (list_ascii_of_string (terms_text p ps)) = true.
Proof.
  intros Hp Hps. unfold terms_text.
  rewrite forallb_chars_append, (quoted_no_tab p Hp).
  exact (more_no_tab quoted plain_phrase ps quoted_no_tab Hps).
Qed.

Lemma weights_no_tab (d : numeral) (ds : list (nat * numeral)) :
  is_numeral d = true -> forallb is_numeral (map snd ds) = true ->
  forallb no_tab (list_ascii_of_string (weights_text d ds)) = true.
Proof.
  intros Hd Hds. unfold weights_text.
  rewrite forallb_chars_append, (numeral_no_tab d Hd).
  exact (more_no_tab numeral_text is_numeral ds numeral_no_tab Hds).
Qed.

Lemma parse_at_paren (pow : float -> nat -> float) (s : string) :
  forallb no_tab (list_ascii_of_string s) = true ->
  parse (default_parser pow) (String "(" s)
  = ('(_, toks) <- conjunction pow 1.1 0.9 top (String "(" s) ;;
     root0 <- py_getitem (ParseResults toks) 0 ;;
     flatten root0).
Proof.
  intros H. unfold parse.
  rewrite (strip_has_nonspace (String "(" s) eq_refl).
  unfold parse_string, expandtabs. fold top.
  rewrite (expandtabs_from_no_tab (String "(" s)) by exact H.
  cbn [root default_parser PromptParser_init]. unfold build_parser_logic.
  destruct (conjunction pow 1.1 0.9 top (String "(" s)) as [[rest toks]|x|];
    reflexivity.
Qed.

Lemma parse_conjunction_text (pow : float -> nat -> float) (p : phrase)
  (ps : list (nat * phrase)) (tail_text : string) :
  plain_phrase p = true -> forallb plain_phrase (map snd ps) = true ->
  forallb no_tab (list_ascii_of_string tail_text) = true ->
  parse (default_parser pow) (String "(" (terms_text p ps ++ tail_text))
  = ('(_, toks) <- conjunction pow 1.1 0.9 top
                     (String "(" (terms_text p ps ++ tail_text)) ;;
     root0 <- py_getitem (ParseResults toks) 0 ;;
     flatten root0).
Proof.
  intros Hp Hps Ht. apply parse_at_paren.
  now rewrite forallb_chars_append, (terms_no_tab p ps Hp Hps), Ht.
Qed.

Lemma method_no_tab (name : string) (d : numeral) (ds : list (nat * numeral)) :
  forallb no_tab (list_ascii_of_string name) = true ->
  is_numeral d = true -> forallb is_numeral (map snd ds) = true ->
  forallb no_tab (list_ascii_of_string (name ++ weights_text d ds ++ ")")) = true.
Proof.
  intros Hn Hd Hds.
  now rewrite !forallb_chars_append, Hn, (weights_no_tab d ds Hd Hds).
Qed.

(** X17.  An explicit conjunction.  For phrases of plain words between
    double quotes, separated by commas, within parentheses and followed by
    [.and()], [parse] returns a conjunction with one flattened prompt per
    phrase, in order, each holding the phrase as one fragment of weight
    1.0.  Without weights every prompt weighs 1.0; with weights written as
    runs of digits the conjunction holds their values when they are as many
    as the phrases, and [parse] raises [ParsingException] when they are
    not. *)
Theorem parse_explicit_conjunction (pow : float -> nat -> float) :
  (forall p ps,
      plain_phrase p = true -> forallb plain_phrase (map snd ps) = true ->
      parse (default_parser pow) ("(" ++ terms_text p ps ++ ").and()")
      = Return (Conjunction (map phrase_flat (p :: map snd ps))
                            (repeat (Num 1.0) (S (List.length ps)))))
  /\ (forall p ps d ds,
      plain_phrase p = true -> forallb plain_phrase (map snd ps) = true ->
      is_numeral d = true -> forallb is_numeral (map snd ds) = true ->
      parse (default_parser pow)
            ("(" ++ terms_text p ps ++ ").and(" ++ weights_text d ds ++ ")")
      = if List.length ds =? List.length ps
        then Return (Conjunction (map phrase_flat (p :: map snd ps))
                                 (map weight_of (d :: map snd ds)))
        else Raise ParsingException).
Proof.
  split.
  - intros p ps Hp Hps.
    change ("(" ++ terms_text p ps ++ ").and()")%string
      with (String "(" (terms_text p ps ++ ").and()")).
    rewrite (parse_conjunction_text pow p ps ").and()" Hp Hps eq_refl).
    rewrite (conjunction_without_weights pow 1.1 0.9 p ps Hp Hps).
    cbn [bind py_getitem py_iter nth_error].
    apply (flatten_conjunction_phrases (p :: map snd ps)).
    rewrite repeat_length. cbn [List.length]. now rewrite length_map.
  - intros p ps d ds Hp Hps Hd Hds.
    change ("(" ++ terms_text p ps ++ ").and(" ++ weights_text d ds ++ ")")%string
      with (String "(" (terms_text p ps ++ ").and(" ++ weights_text d ds ++ ")")).
    rewrite (parse_conjunction_text pow p ps _ Hp Hps
               (method_no_tab ").and(" d ds eq_refl Hd Hds)).
    rewrite (conjunction_with_weights pow 1.1 0.9 p ps d ds Hp Hps Hd Hds).
    destruct (List.length ds =? List.length ps) eqn:E; [|reflexivity].
    apply Nat.eqb_eq in E.
    cbn [bind py_getitem py_iter nth_error].
    apply (flatten_conjunction_phrases (p :: map snd ps)).
    cbn [map List.length]. now rewrite !length_map, E.
Qed.

Lemma parse_explicit_conjunction_witness :
  parse (default_parser power)
        ("(" ++ terms_text ("fire", ["flames"]) [(1, ("mountain", ["man"]))]
         ++ ").and()")
  = Return (Conjunction [FlattenedPrompt [Fragment "fire flames" 1.0];
                         FlattenedPrompt [Fragment "mountain man" 1.0]]
                        [Num 1.0; Num 1.0])
  /\ parse (default_parser power)
           ("(" ++ terms_text ("fire", []) [(1, ("flames", []))]
            ++ ").and(" ++ weights_text ("2", None) [] ++ ")")
     = Raise ParsingException.
Proof.
  destruct (parse_explicit_conjunction power) as [H1 H2]. split.
  - exact (H1 ("fire", ["flames"]) [(1, ("mountain", ["man"]))] eq_refl eq_refl).
  - exact (H2 ("fire", []) [(1, ("flames", []))] ("2", None) [] eq_refl eq_refl
              eq_refl eq_refl).
Defined.

(** X18.  A blend.  For phrases of plain words between double quotes,
    separated by commas, within parentheses and followed by [.blend(...)]
    with weights written as runs of digits, [parse] returns a conjunction of
    weight 1.0 whose one branch is a [Blend]: its prompts are one flattened
    prompt per phrase, in order, each holding the phrase as one fragment of
    weight 1.0, and its weights are the values of the digits.  When the
    weights are not as many as the phrases, [parse] raises
    [ParsingException]. *)
Theorem parse_blend (pow : float -> nat -> float) (p : phrase)
  (ps : list (nat * phrase)) (d : numeral) (ds : list (nat * numeral)) :
  plain_phrase p = true -> forallb plain_phrase (map snd ps) = true ->
  is_numeral d = true -> forallb is_numeral (map snd ds) = true ->
  parse (default_parser pow)
        ("(" ++ terms_text p ps ++ ").blend(" ++ weights_text d ds ++ ")")
  = if List.length ds =? List.length ps
    then Return (Conjunction
                   [Blend (PyList (map phrase_flat (p :: map snd ps)))
                          (ParseResults (map weight_of (d :: map snd ds)))
                          true]
                   [Num 1.0])
    else Raise ParsingException.
Proof.
  intros Hp Hps Hd Hds.
  change ("(" ++ terms_text p ps ++ ").blend(" ++ weights_text d ds ++ ")")%string
    with (String "(" (terms_text p ps ++ ").blend(" ++ weights_text d ds ++ ")")).
  rewrite (parse_conjunction_text pow p ps _ Hp Hps
             (method_no_tab ").blend(" d ds eq_refl Hd Hds)).
  rewrite (conjunction_of_blend pow 1.1 0.9 p ps d ds Hp Hps Hd Hds).
  destruct (List.length ds =? List.length ps) eqn:E; [|reflexivity].
  apply Nat.eqb_eq in E.
  cbn [bind py_getitem py_iter nth_error].
  apply (flatten_blend_phrases (p :: map snd ps)).
  cbn [map List.length]. now rewrite !length_map, E.
Qed.

Lemma parse_blend_witness :
  parse (default_parser power)
        ("(" ++ terms_text ("fire", []) [(1, ("fire", ["flames"]))]
         ++ ").blend(" ++ weights_text ("0", Some "75") [(1, ("3", None))] ++ ")")
  = Return (Conjunction
              [Blend (PyList [FlattenedPrompt [Fragment "fire" 1.0];
                              FlattenedPrompt [Fragment "fire flames" 1.0]])
                     (ParseResults [Num 0.75; Num 3.0]) true]
              [Num 1.0]).
Proof.
  exact (parse_blend power ("fire", []) [(1, ("fire", ["flames"]))]
           ("0", Some "75") [(1, ("3", None))]
           eq_refl eq_refl eq_refl eq_refl).
Defined.
